(** * BaxterWriter: the trajectory pipeline of [baxter_writer.py]

    A shallow embedding of the [BaxterWriter] class: the spatial mapper, the
    IK trajectory builder, the iLQR refiner with its stage cost, and the
    joint-trajectory / basis-parameter codec.

    Numbers.  The program computes in binary64 floating point through numpy.
    Every definition below is written over an arbitrary carrier [num] that
    offers the arithmetic the program uses (class [Scalar]); no algebraic law
    is assumed, so what is proved for all carriers holds for IEEE doubles
    ([float_Scalar], which also runs the examples) and for real numbers
    ([R_Scalar], the exact arithmetic the formulas are read in).  What is
    said of signs and bounds is proved for the reals and, where it survives
    rounding, for IEEE doubles from the standard library's specification of
    them.

    Arrays.  A numpy 2-D array is a record with its column count and its
    rows; a 1-D array is a list.  The empty 1-D array [np.array([])] is
    written as the array with no rows and no columns: every operation used
    by the program ([len], iteration, [.T], [np.diff], [np.vstack], [[0]])
    treats the two alike.  Where the shape of what a caller passes matters,
    an array of any number of dimensions is its shape and its entries
    ([ndarray]).

    Effects.  A method of the class is a computation over the object
    ([self]) that may raise and that emits, in program order, the calls it
    makes to its collaborators and the lines it prints. *)

From Stdlib Require Import String.
From Stdlib Require Import List ZArith Arith Lia Bool Reals Lra.
From Stdlib Require Floats Uint63.
Import ListNotations.

Set Implicit Arguments.

(** ** Scalars *)

Class Scalar (num : Type) : Type := {
  s_of_Z : Z -> num;
  s_add : num -> num -> num;
  s_sub : num -> num -> num;
  s_mul : num -> num -> num;
  s_div : num -> num -> num;
  s_sqrt : num -> num
}.

Declare Scope num_scope.
Delimit Scope num_scope with num.
Notation "x + y" := (s_add x y) : num_scope.
Notation "x - y" := (s_sub x y) : num_scope.
Notation "x * y" := (s_mul x y) : num_scope.
Notation "x / y" := (s_div x y) : num_scope.

(** A decimal literal of the source, [n / d] with [d] a power of ten.  In
    binary64 the correctly rounded quotient of two exactly representable
    integers is the double nearest to the decimal, which is what Python reads
    the literal as. *)
Definition dec {num} `{Scalar num} (n d : Z) : num := (s_of_Z n / s_of_Z d)%num.

Definition float_of_Z (z : Z) : PrimFloat.float :=
  match z with
  | Z0 => PrimFloat.of_uint63 (Uint63.of_Z 0)
  | Zpos _ => PrimFloat.of_uint63 (Uint63.of_Z z)
  | Zneg p => PrimFloat.opp (PrimFloat.of_uint63 (Uint63.of_Z (Zpos p)))
  end.

#[export] Instance float_Scalar : Scalar PrimFloat.float := {
  s_of_Z := float_of_Z;
  s_add := PrimFloat.add;
  s_sub := PrimFloat.sub;
  s_mul := PrimFloat.mul;
  s_div := PrimFloat.div;
  s_sqrt := PrimFloat.sqrt
}.

#[export] Instance R_Scalar : Scalar R := {
  s_of_Z := IZR;
  s_add := Rplus;
  s_sub := Rminus;
  s_mul := Rmult;
  s_div := Rdiv;
  s_sqrt := sqrt
}.

(** ** Outcomes and the method monad *)

Inductive exn : Type :=
| IndexError
| ValueError
| TypeError.

Inductive Outcome (A : Type) : Type :=
| Ok (a : A)
| Raise (e : exn).
Arguments Ok {A} a.
Arguments Raise {A} e.

Definition is_ok {A} (o : Outcome A) : bool :=
  match o with Ok _ => true | Raise _ => false end.

(** A computation reads and may replace the object [S], returns or raises,
    and emits events of type [E]. *)
Definition M (S E A : Type) : Type := S -> Outcome A * S * list E.

Definition ret {S E A} (a : A) : M S E A := fun s => (Ok a, s, []).

Definition bind {S E A B} (m : M S E A) (f : A -> M S E B) : M S E B :=
  fun s =>
    match m s with
    | (Ok a, s1, ev1) =>
        match f a s1 with
        | (r, s2, ev2) => (r, s2, ev1 ++ ev2)
        end
    | (Raise e, s1, ev1) => (Raise e, s1, ev1)
    end.

Definition get {S E} : M S E S := fun s => (Ok s, s, []).
Definition emit {S E} (e : E) : M S E unit := fun s => (Ok tt, s, [e]).
Definition lift {S E A} (o : Outcome A) : M S E A := fun s => (o, s, []).

Declare Scope method_scope.
Delimit Scope method_scope with method.
Notation "x <- c1 ;; c2" := (bind c1 (fun x => c2))
  (at level 100, c1 at next level, right associativity) : method_scope.
Notation "c1 ;; c2" := (bind c1 (fun _ => c2))
  (at level 100, right associativity) : method_scope.

Definition result {S E A} (r : Outcome A * S * list E) : Outcome A := fst (fst r).
Definition final {S E A} (r : Outcome A * S * list E) : S := snd (fst r).
Definition events {S E A} (r : Outcome A * S * list E) : list E := snd r.

(** ** numpy arrays *)

Record Array2 (num : Type) : Type := mkArray2 {
  ncols : nat;
  rows : list (list num)
}.
Arguments mkArray2 {num} ncols rows.

Section Numpy.
Context {num : Type} `{Scalar num}.

Local Abbreviation vec := (list num).

Definition zero : num := s_of_Z 0.

(** [len(a)] *)
Definition len (a : Array2 num) : nat := length (rows a).

(** [np.zeros(k)] and [np.zeros((n, k))] *)
Definition np_zeros (k : nat) : vec := repeat zero k.
Definition np_zeros2 (n k : nat) : Array2 num :=
  mkArray2 k (repeat (np_zeros k) n).

(** [np.array(l)] for a list of 1-D arrays of one length. *)
Definition np_array (l : list vec) : Array2 num :=
  match l with
  | [] => mkArray2 0 []
  | r :: _ => mkArray2 (length r) l
  end.

(** [a.T] *)
Definition column (j : nat) (a : Array2 num) : vec :=
  map (fun r => nth j r zero) (rows a).
Definition np_T (a : Array2 num) : Array2 num :=
  mkArray2 (len a) (map (fun j => column j a) (seq 0 (ncols a))).

(** [a[t]] for [t >= 0] *)
Definition getitem (a : Array2 num) (t : nat) : Outcome vec :=
  match nth_error (rows a) t with
  | Some r => Ok r
  | None => Raise IndexError
  end.

(** [v[lo:hi]] and [a[:, lo:hi]] *)
Definition slice (lo hi : nat) (v : vec) : vec := firstn (hi - lo) (skipn lo v).
Definition slice_cols (lo hi : nat) (a : Array2 num) : Array2 num :=
  mkArray2 (Nat.min hi (ncols a) - lo) (map (slice lo hi) (rows a)).

(** Broadcasting of two 1-D shapes. *)
Definition broadcast (n m : nat) : option nat :=
  if n =? m then Some n
  else if n =? 1 then Some m
  else if m =? 1 then Some n
  else None.

Definition bc_nth (v : vec) (i : nat) : num :=
  if length v =? 1 then nth 0 v zero else nth i v zero.

(** An elementwise binary operation on two 1-D arrays. *)
Definition np_binop (f : num -> num -> num) (a b : vec) : Outcome vec :=
  match broadcast (length a) (length b) with
  | Some k => Ok (map (fun i => f (bc_nth a i) (bc_nth b i)) (seq 0 k))
  | None => Raise ValueError
  end.

(** [a * s] and [a / s] for a scalar [s]. *)
Definition np_scale (a : Array2 num) (s : num) : Array2 num :=
  mkArray2 (ncols a) (map (map (fun x => (x * s)%num)) (rows a)).
Definition np_div_scalar (a : Array2 num) (s : num) : Array2 num :=
  mkArray2 (ncols a) (map (map (fun x => (x / s)%num)) (rows a)).

(** [a + v] for a 2-D [a] that has at least two columns and a 1-D [v]:
    [v] is added to every row, or its only element to every entry. *)
Definition np_add_row (a : Array2 num) (v : vec) : Outcome (Array2 num) :=
  if (length v =? ncols a) || (length v =? 1) then
    Ok (mkArray2 (ncols a)
          (map (fun r => map (fun i => (nth i r zero + bc_nth v i)%num)
                           (seq 0 (ncols a))) (rows a)))
  else Raise ValueError.

(** [dst[:, 0:2] = src], where [dst] has as many rows as [src] and at
    least two columns: [src] must have two columns, or one, which is then
    written to both. *)
Definition setitem_cols_0_2 (dst src : Array2 num) : Outcome (Array2 num) :=
  if (ncols src =? 2) || (ncols src =? 1) then
    Ok (mkArray2 (ncols dst)
          (map (fun dr => [bc_nth (snd dr) 0; bc_nth (snd dr) 1] ++ skipn 2 (fst dr))
             (combine (rows dst) (rows src))))
  else Raise ValueError.

(** [np.diff(a, axis=0)] *)
Definition vsub (a b : vec) : vec :=
  map (fun xy => (fst xy - snd xy)%num) (combine a b).
Definition np_diff (a : Array2 num) : Array2 num :=
  mkArray2 (ncols a) (map (fun pq => vsub (snd pq) (fst pq))
                        (combine (rows a) (tl (rows a)))).

(** [np.vstack([v, a])] for a 1-D [v] *)
Definition np_vstack (v : vec) (a : Array2 num) : Outcome (Array2 num) :=
  if length v =? ncols a then Ok (mkArray2 (ncols a) (v :: rows a))
  else Raise ValueError.

(** [np.linalg.norm(v)]: the square root of the sum of the squares, summed
    from the left.  ([inertia] may answer with a numpy matrix, whose product
    with a 1-D control is a one-row matrix; its Frobenius norm is this same
    number.)  numpy hands the sum to the dot product of its BLAS, which may
    add the squares in another order: in binary64 the last bits of the norm
    can differ from this one, its sign and what holds in exact arithmetic
    cannot. *)
Definition sum_sq (v : vec) : num :=
  fold_left (fun acc x => (acc + x * x)%num) v zero.
Definition np_norm (v : vec) : num := s_sqrt (sum_sq v).

(** [m.dot(u)] *)
Definition dot (a b : vec) : num :=
  fold_left (fun acc xy => (acc + fst xy * snd xy)%num) (combine a b) zero.
Definition np_dot (m : Array2 num) (u : vec) : Outcome vec :=
  if ncols m =? length u then Ok (map (fun r => dot r u) (rows m))
  else Raise ValueError.

(** [np.linspace(start, stop, n)]: [arange(0, n) * step + start] with the
    last point set to [stop]; a single point is [0 * (stop - start) + start]. *)
Definition np_linspace (start stop : num) (n : nat) : vec :=
  match n with
  | 0 => []
  | 1 => [(s_of_Z 0 * (stop - start) + start)%num]
  | S m =>
      let step := ((stop - start) / s_of_Z (Z.of_nat m))%num in
      map (fun i => (s_of_Z (Z.of_nat i) * step + start)%num) (seq 0 m) ++ [stop]
  end.

End Numpy.

(** Sequencing of array operations that may raise. *)
Definition obind {A B} (o : Outcome A) (f : A -> Outcome B) : Outcome B :=
  match o with
  | Ok a => f a
  | Raise e => Raise e
  end.

Declare Scope outcome_scope.
Delimit Scope outcome_scope with outcome.
Notation "x <~ c1 ;; c2" := (obind c1 (fun x => c2))
  (at level 100, c1 at next level, right associativity) : outcome_scope.

(** ** Collaborators

    The kinematic and dynamic model ([baxter_pykdl_revised]), the function
    approximator ([pyrbf_funcapprox]) and the trajectory controller
    ([pylqr.pylqr_trajctrl]) are imported by the program; they enter as
    records of the operations the program calls. *)

Record RobotDynamics (num : Type) : Type := mkRobotDynamics {
  num_jnts : nat;
  forward_position_kinematics : list num -> list num;
  inverse_kinematics : list num -> list num -> list num -> option (list num);
  inertia : list num -> Array2 num
}.

(** [fit(z, y, replace_theta)] and [evaluate(z, theta)]; the program fits
    with [replace_theta=False], which leaves the approximator as it was. *)
Record FunctionApproximator (num : Type) : Type := mkFunctionApproximator {
  fa_fit : list num -> list num -> bool -> list num;
  fa_evaluate : list num -> list num -> list num
}.

(** Modelled from the spec: the constructor [PyLQR_TrajCtrl(R, dt)] of
    [pylqr.pylqr_trajctrl] is not part of the sources; the controller keeps
    the fixed scalar weight of the effort term as [R_] and the time step. *)
Record PyLQR_TrajCtrl (num : Type) : Type := mkPyLQR_TrajCtrl {
  R_ : num;
  dt_ : num
}.

(** The stage cost handed to the solver: state, control, step, auxiliary. *)
Definition CostFn (num : Type) : Type :=
  list num -> list num -> nat -> unit -> Outcome num.

(** ** The writer object *)

Record BaxterWriter (num : Type) : Type := mkBaxterWriter {
  baxter_urdf_path : string;
  robot_dynamics : RobotDynamics num;
  func_approxs : list (FunctionApproximator num);
  eval_z : list num;
  block_center : list num;
  scale : num;
  seed_pos : list num;
  seed_pose : list num
}.

(** What a method does to the outside, in program order:
    - [IKSolve]: a call [robot_dynamics.inverse_kinematics(pnt,
      orientation=..., seed=...)] and what it returned;
    - [Printed]: the line ['Failed to solve IK at step {0} for desired
      position {1}.'] with its two arguments;
    - [BuildSolver]: [build_ilqr_general_solver(cost_func=..., n_dims=...,
      T=...)];
    - [Synthesize]: [synthesize_trajectory(x0, u_array_init, n_itrs=...)]. *)
Inductive Event (num : Type) : Type :=
| IKSolve (pnt orientation seed : list num) (q : option (list num))
| Printed (idx : nat) (pnt : list num)
| BuildSolver (cost_func : CostFn num) (n_dims T : nat)
| Synthesize (x0 : list num) (u_array_init : Array2 num) (n_itrs : nat).

Arguments IKSolve {num} pnt orientation seed q.
Arguments Printed {num} idx pnt.
Arguments BuildSolver {num} cost_func n_dims T.
Arguments Synthesize {num} x0 u_array_init n_itrs.

Definition Method (num A : Type) : Type := M (BaxterWriter num) (Event num) A.

Section Writer.
Context {num : Type} `{Scalar num}.

(** The imported constructors and the solver run. *)
Variable path_prefix : string.
Variable baxter_dynamics : string -> string -> RobotDynamics num.
Variable PyRBF_FunctionApproximator :
  string -> nat -> bool -> FunctionApproximator num.
Variable synthesize_trajectory :
  PyLQR_TrajCtrl num -> CostFn num -> nat -> nat ->
  list num -> Array2 num -> nat -> Outcome (Array2 num).

Definition put (w : BaxterWriter num) : Method num unit :=
  fun _ => (Ok tt, w, []).

(** [os.path.join(path_prefix, 'urdf/baxter.urdf')] *)
Definition os_path_join (a b : string) : string := (a ++ "/" ++ b)%string.

(** The robot description that [print_robot_description] writes out is not
    kept in the trace. *)
Definition prepare_baxter_robot_manipulator (manip_idx : Z) : Method num unit :=
  (self <- get ;;
   let baxter_urdf_path := os_path_join path_prefix "urdf/baxter.urdf" in
   let kin_name := if (manip_idx =? 0)%Z then "left"%string else "right"%string in
   put (mkBaxterWriter baxter_urdf_path
          (baxter_dynamics kin_name baxter_urdf_path)
          (func_approxs self) (eval_z self) (block_center self) (scale self)
          (seed_pos self) (seed_pose self)))%method.

Definition prepare_manipulator_function_approximators : Method num unit :=
  (self <- get ;;
   let func_approxs :=
     map (fun dof_idx : nat => PyRBF_FunctionApproximator "sigmoid" 20 true)
       (seq 0 (num_jnts (robot_dynamics self))) in
   let eval_z := np_linspace (s_of_Z 0) (s_of_Z 1) 100 in
   put (mkBaxterWriter (baxter_urdf_path self) (robot_dynamics self)
          func_approxs eval_z (block_center self) (scale self)
          (seed_pos self) (seed_pose self)))%method.

(** [__init__] *)
Definition init : Method num unit :=
  (prepare_baxter_robot_manipulator 1 ;;
   prepare_manipulator_function_approximators ;;
   self <- get ;;
   let block_center := [dec 844 1000; dec (-357) 1000; dec 257 1000] in
   let scale := (dec 9 100 / (dec 15 10 + dec 15 10))%num in
   let seed_pos := [dec 230 100000; dec (-77274) 100000; dec 95529 100000;
                    dec 153091 100000; dec (-91924) 100000; dec 55914 100000;
                    dec (-9664) 100000] in
   let seed_pose := forward_position_kinematics (robot_dynamics self) seed_pos in
   put (mkBaxterWriter (baxter_urdf_path self) (robot_dynamics self)
          (func_approxs self) (eval_z self) block_center scale
          seed_pos seed_pose))%method.

(** The object before [__init__] has run: no attribute is set. *)
Definition blank : BaxterWriter num :=
  mkBaxterWriter ""
    (mkRobotDynamics 0 (fun _ => []) (fun _ _ _ => None) (fun _ => mkArray2 0 []))
    [] [] [] zero [] [].

(** [BaxterWriter()] *)
Definition new_BaxterWriter : BaxterWriter num := final (init blank).

(** *** Spatial mapper *)

Definition generate_spatial_trajectory (char_traj : Array2 num)
  : Method num (Array2 num) :=
  (self <- get ;;
   let spatial_traj := np_zeros2 (len char_traj) 3 in
   spatial_traj <- lift (setitem_cols_0_2 spatial_traj
                           (np_scale char_traj (scale self))) ;;
   spatial_traj <- lift (np_add_row spatial_traj (block_center self)) ;;
   ret spatial_traj)%method.

(** *** Codec *)

Definition derive_jnt_traj_from_fa_parms (fa_parms : list (list num))
  : Method num (Array2 num) :=
  (self <- get ;;
   let jnt_traj :=
     np_T (np_array (map (fun pf => fa_evaluate (snd pf) (eval_z self) (fst pf))
                       (combine fa_parms (func_approxs self)))) in
   ret jnt_traj)%method.

Definition derive_fa_parms_from_jnt_traj (q_array : Array2 num)
  : Method num (list (list num)) :=
  (self <- get ;;
   let z := np_linspace (s_of_Z 0) (s_of_Z 1) (len q_array) in
   let fa_parms :=
     map (fun qf => fa_fit (snd qf) z (fst qf) false)
       (combine (rows (np_T q_array)) (func_approxs self)) in
   ret fa_parms)%method.

(** *** IK trajectory builder *)

(** The [for] loop, with its two loop variables [q_seed] and [q_array]. *)
Fixpoint ik_loop (idx : nat) (pnts : list (list num))
  (q_seed : list num) (q_array : list (list num))
  : Method num (list (list num)) :=
  match pnts with
  | [] => ret q_array
  | pnt :: rest =>
      (self <- get ;;
       let orientation := slice 3 7 (seed_pose self) in
       let q := inverse_kinematics (robot_dynamics self) pnt orientation q_seed in
       emit (IKSolve pnt orientation q_seed q) ;;
       match q with
       | None =>
           emit (Printed idx pnt) ;;
           ik_loop (S idx) rest q_seed q_array
       | Some q' =>
           ik_loop (S idx) rest q' (q_array ++ [q'])
       end)%method
  end.

Definition derive_ik_trajectory (spatial_traj : Array2 num)
  : Method num (Array2 num) :=
  (self <- get ;;
   let q_seed := seed_pos self in
   q_array <- ik_loop 0 (rows spatial_traj) q_seed [] ;;
   ret (np_array q_array))%method.

(** The two stages as [main] and [build_ik_joint_traj_for_chars] chain
    them on one character trajectory. *)
Definition ik_pipeline (char_traj : Array2 num) : Method num (Array2 num) :=
  (spatial_traj <- generate_spatial_trajectory char_traj ;;
   derive_ik_trajectory spatial_traj)%method.

(** *** iLQR refiner *)

Definition sq (x : num) : num := (x * x)%num.

Definition traj_cost (self : BaxterWriter num)
  (lqr_traj_ctrl : PyLQR_TrajCtrl num) (spatial_traj : Array2 num)
  : CostFn num :=
  fun x u t aux =>
    (let cart_pose :=
       forward_position_kinematics (robot_dynamics self) (slice 0 7 x) in
     target <~ getitem spatial_traj t ;;
     err <~ np_binop s_sub (slice 0 3 cart_pose) target ;;
     werr <~ np_binop s_mul err [s_of_Z 10; s_of_Z 10; s_of_Z 50] ;;
     let track_err := sq (np_norm werr) in
     let jnt_mass := inertia (robot_dynamics self) (slice 0 7 x) in
     tau <~ np_dot jnt_mass u ;;
     let ctrl_effort := sq (np_norm tau) in
     Ok (track_err + R_ lqr_traj_ctrl * ctrl_effort)%num)%outcome.

Definition derive_ilqr_trajectory (spatial_traj : Array2 num)
  : Method num (Array2 num) :=
  (let dt := dec 1 100 in
   let lqr_traj_ctrl := mkPyLQR_TrajCtrl (dec 1 100) dt in
   self <- get ;;
   let cost := traj_cost self lqr_traj_ctrl spatial_traj in
   emit (BuildSolver cost 7 100) ;;
   q_ik <- derive_ik_trajectory spatial_traj ;;
   x0 <- lift (getitem q_ik 0) ;;
   let q_dot_ik := np_div_scalar (np_diff q_ik) dt in
   q_dot_ik <- lift (np_vstack (np_zeros 7) q_dot_ik) ;;
   let q_ddot_ik := np_div_scalar (np_diff q_dot_ik) dt in
   let u_array_init := q_ddot_ik in
   emit (Synthesize x0 u_array_init 25) ;;
   syn_traj <- lift (synthesize_trajectory lqr_traj_ctrl cost 7 100
                       x0 u_array_init 25) ;;
   ret (slice_cols 0 7 syn_traj))%method.

End Writer.

(** ** Reading a trace *)

(** One IK solve: its target, orientation, seed, and what came back. *)
Record Solve (num : Type) : Type := mkSolve {
  sv_pnt : list num;
  sv_orientation : list num;
  sv_seed : list num;
  sv_q : option (list num)
}.

Section Trace.
Context {num : Type}.

(** The IK solves of a trace, in order. *)
Fixpoint solves (evs : list (Event num)) : list (Solve num) :=
  match evs with
  | [] => []
  | IKSolve pnt orientation seed q :: evs' =>
      mkSolve pnt orientation seed q :: solves evs'
  | _ :: evs' => solves evs'
  end.

(** The diagnostics of a trace, in order: skipped index and position. *)
Fixpoint diagnostics (evs : list (Event num)) : list (nat * list num) :=
  match evs with
  | [] => []
  | Printed idx pnt :: evs' => (idx, pnt) :: diagnostics evs'
  | _ :: evs' => diagnostics evs'
  end.

(** The solver builds and runs of a trace. *)
Fixpoint builds (evs : list (Event num)) : list (nat * nat) :=
  match evs with
  | [] => []
  | BuildSolver _ n_dims T :: evs' => (n_dims, T) :: builds evs'
  | _ :: evs' => builds evs'
  end.

Fixpoint runs (evs : list (Event num)) : list (list num * Array2 num * nat) :=
  match evs with
  | [] => []
  | Synthesize x0 u n_itrs :: evs' => (x0, u, n_itrs) :: runs evs'
  | _ :: evs' => runs evs'
  end.

Definition failed (c : Solve num) : bool :=
  match sv_q c with None => true | Some _ => false end.

(** The configurations found by a sequence of solves. *)
Fixpoint accepted (cs : list (Solve num)) : list (list num) :=
  match cs with
  | [] => []
  | c :: cs' =>
      match sv_q c with
      | Some q => q :: accepted cs'
      | None => accepted cs'
      end
  end.

(** The failed solves of a sequence that starts at step [idx], each with
    its step and target. *)
Fixpoint failures (idx : nat) (cs : list (Solve num)) : list (nat * list num) :=
  match cs with
  | [] => []
  | c :: cs' =>
      if failed c then (idx, sv_pnt c) :: failures (S idx) cs'
      else failures (S idx) cs'
  end.

(** Warm start: each solve is seeded with the last configuration found
    before it, the first with [q_seed]. *)
Fixpoint warm_started (q_seed : list num) (cs : list (Solve num)) : Prop :=
  match cs with
  | [] => True
  | c :: cs' =>
      sv_seed c = q_seed /\
      warm_started (match sv_q c with Some q => q | None => q_seed end) cs'
  end.

(** What the IK loop, started at step [idx] on the targets [pnts] with
    seed [q_seed] and the rows [q_array], leaves behind in [r]. *)
Record loop_post (w : BaxterWriter num) (idx : nat) (pnts : list (list num))
  (q_seed : list num) (q_array : list (list num))
  (r : Outcome (list (list num)) * BaxterWriter num * list (Event num))
  : Prop := mkLoopPost {
  post_final : final r = w;
  post_result : result r = Ok (q_array ++ accepted (solves (events r)));
  post_targets : map (@sv_pnt num) (solves (events r)) = pnts;
  post_orientation :
    Forall (fun c => sv_orientation c = slice 3 7 (seed_pose w))
      (solves (events r));
  post_answers :
    Forall (fun c => sv_q c = inverse_kinematics (robot_dynamics w)
                                (sv_pnt c) (sv_orientation c) (sv_seed c))
      (solves (events r));
  post_seeds : warm_started q_seed (solves (events r));
  post_diagnostics :
    diagnostics (events r) = failures idx (solves (events r));
  post_builds : builds (events r) = [];
  post_runs : runs (events r) = []
}.

(** The spec's malformed input: a character trajectory that is no sequence
    of planar points (wrong shape), or an empty one. *)
Definition malformed (char_traj : Array2 num) : Prop :=
  ncols char_traj <> 2 \/ rows char_traj = [].

End Trace.

(** The spec's failing fast: the pipeline raises and nothing was asked of
    the kinematic model. *)
Definition fails_fast {num : Type} `{Scalar num}
  (w : BaxterWriter num) (char_traj : Array2 num) : Prop :=
  exists e, result (ik_pipeline char_traj w) = Raise e /\
            events (ik_pipeline char_traj w) = [].

(** ** Synthetic collaborators

    Small executable stand-ins for the imported modules, over IEEE doubles
    and over the reals, on which the methods are run. *)

Module Synthetic.

Definition fl (z : Z) : PrimFloat.float := float_of_Z z.

(** No configuration for a target whose first coordinate is 3; elsewhere
    the seed moved by the target's first coordinate. *)
Definition ik (pnt orientation seed : list PrimFloat.float)
  : option (list PrimFloat.float) :=
  if PrimFloat.eqb (nth 0 pnt (fl 0)) (fl 3) then None
  else Some (map (fun s => PrimFloat.add s (nth 0 pnt (fl 0))) seed).

Definition fk (q : list PrimFloat.float) : list PrimFloat.float :=
  firstn 3 q ++ [fl 0; fl 0; fl 0; fl 1].

Definition mass (q : list PrimFloat.float) : Array2 PrimFloat.float :=
  mkArray2 7 (map (fun i => map (fun j => if i =? j then fl 2 else fl 0) (seq 0 7))
                (seq 0 7)).

Definition dynamics (kin_name urdf : string) : RobotDynamics PrimFloat.float :=
  mkRobotDynamics 7 fk ik mass.

(** A parameter vector of [K] numbers: the first samples, padded; it is
    read back as a line through its first two entries. *)
Definition approximator (rbf_type : string) (K : nat) (normalize : bool)
  : FunctionApproximator PrimFloat.float :=
  mkFunctionApproximator
    (fun z y replace_theta => firstn K (y ++ repeat (fl 0) K))
    (fun z theta =>
       map (fun t => PrimFloat.add (nth 0 theta (fl 0))
                       (PrimFloat.mul (nth 1 theta (fl 0)) t)) z).

(** A solver that stays at [x0] with zero velocity over the horizon. *)
Definition solver (ctrl : PyLQR_TrajCtrl PrimFloat.float)
  (cost : CostFn PrimFloat.float) (n_dims T : nat)
  (x0 : list PrimFloat.float) (u : Array2 PrimFloat.float) (n_itrs : nat)
  : Outcome (Array2 PrimFloat.float) :=
  Ok (mkArray2 (2 * n_dims) (repeat (x0 ++ np_zeros n_dims) T)).

Definition writer : BaxterWriter PrimFloat.float :=
  new_BaxterWriter "/opt/vae_assoc" dynamics approximator.

(** Ten targets on a line: [(i, 0, 0)] for [i = 0 .. 9]. *)
Definition path10 : Array2 PrimFloat.float :=
  mkArray2 3 (map (fun i => [fl (Z.of_nat i); fl 0; fl 0]) (seq 0 10)).

(** The same line up to [(2, 0, 0)], all reachable. *)
Definition path3 : Array2 PrimFloat.float :=
  mkArray2 3 (map (fun i => [fl (Z.of_nat i); fl 0; fl 0]) (seq 0 3)).

(** A planar stroke of three points. *)
Definition stroke : Array2 PrimFloat.float :=
  mkArray2 2 [[fl 0; fl 0]; [fl 1; fl (-1)]; [fl (-1); fl 1]].

(** An array of two columns with no row. *)
Definition empty2 : Array2 PrimFloat.float := mkArray2 2 [].

(** A spatial path with no point. *)
Definition no_path : Array2 PrimFloat.float := mkArray2 3 [].

(** A trajectory of one column. *)
Definition column_path : Array2 PrimFloat.float :=
  mkArray2 1 [[fl 0]; [fl 1]].

(** Seven parameter vectors of two numbers. *)
Definition parms7 : list (list PrimFloat.float) :=
  map (fun j => [fl (Z.of_nat j); fl 1]) (seq 0 7).

End Synthetic.

Module SyntheticR.

Definition fk (q : list R) : list R := firstn 3 q ++ [0; 0; 0; 1]%R.

Definition mass (q : list R) : Array2 R :=
  mkArray2 2 [[2; 0]; [0; 2]]%R.

Definition dynamics (kin_name urdf : string) : RobotDynamics R :=
  mkRobotDynamics 7 fk (fun pnt orientation seed => Some seed) mass.

Definition approximator (rbf_type : string) (K : nat) (normalize : bool)
  : FunctionApproximator R :=
  mkFunctionApproximator
    (fun z y replace_theta => firstn K (y ++ repeat 0%R K))
    (fun z theta => map (fun t => (nth 0 theta 0 + nth 1 theta 0 * t)%R) z).

Definition writer : BaxterWriter R :=
  new_BaxterWriter "/opt/vae_assoc" dynamics approximator.

(** The controller that [derive_ilqr_trajectory] builds. *)
Definition ctrl : PyLQR_TrajCtrl R := mkPyLQR_TrajCtrl (dec 1 100) (dec 1 100).

Definition path2 : Array2 R := mkArray2 3 [[1; 2; 3]; [4; 5; 6]]%R.

Definition state : list R := [1; 2; 4; 0; 0; 0; 0; 0; 0; 0; 0; 0; 0; 0]%R.
Definition control : list R := [1; 0]%R.

Definition parms2 : list (list R) := [[0; 1]; [1; 1]]%R.

End SyntheticR.


(** ** The rest of the class *)

Section Reconstruction.
Context {num : Type} `{Scalar num}.

(** The [for] loop of [derive_cartesian_trajectory], with its list
    [spatial_traj]. *)
Fixpoint cartesian_loop (qs : list (list num)) (spatial_traj : list (list num))
  : Method num (list (list num)) :=
  match qs with
  | [] => ret spatial_traj
  | q :: rest =>
      (self <- get ;;
       let cart_pose := forward_position_kinematics (robot_dynamics self) q in
       cartesian_loop rest (spatial_traj ++ [cart_pose]))%method
  end.

Definition derive_cartesian_trajectory (q_array : Array2 num)
  : Method num (list (list num)) :=
  cartesian_loop (rows q_array) [].

Definition derive_cartesian_trajectory_from_fa_parms (fa_parms : list (list num))
  : Method num (list (list num)) :=
  (jnt_traj <- derive_jnt_traj_from_fa_parms fa_parms ;;
   spatial_traj <- derive_cartesian_trajectory jnt_traj ;;
   ret spatial_traj)%method.

End Reconstruction.

(** ** The batch builders *)

(** Unary minus, which the builders apply to the character coordinates. *)
Class Negation (num : Type) : Type := {
  s_neg : num -> num
}.

#[export] Instance float_Negation : Negation PrimFloat.float := {
  s_neg := PrimFloat.opp
}.

#[export] Instance R_Negation : Negation R := {
  s_neg := Ropp
}.

(** What a builder does to the outside: the line
    ['Processing character {0}...'], and what the writer's methods do. *)
Inductive BatchEvent (num : Type) : Type :=
| Processing (c : string)
| During (e : Event num).
Arguments Processing {num} c.
Arguments During {num} e.

Definition Batch (num A : Type) : Type := M (BaxterWriter num) (BatchEvent num) A.

(** A [defaultdict(list)] from character to the arrays appended so far. *)
Definition ResData (num : Type) : Type := list (string * list (list num)).

Section Builders.
Context {num : Type} `{Scalar num} `{Negation num}.

Variable path_prefix : string.
Variable baxter_dynamics : string -> string -> RobotDynamics num.
Variable PyRBF_FunctionApproximator :
  string -> nat -> bool -> FunctionApproximator num.
Variable synthesize_trajectory :
  PyLQR_TrajCtrl num -> CostFn num -> nat -> nat ->
  list num -> Array2 num -> nat -> Outcome (Array2 num).

(** A 2-D array is rectangular. *)
Definition shaped (a : Array2 num) : Prop :=
  Forall (fun r => length r = ncols a) (rows a).

(** [np.reshape(v, (k, -1))] for [k > 0]: [k] rows cut from [v] in order. *)
Fixpoint chunks (k n : nat) (v : list num) : list (list num) :=
  match k with
  | 0 => []
  | S k' => firstn n v :: chunks k' n (skipn n v)
  end.

Definition np_reshape (k : nat) (v : list num) : Outcome (Array2 num) :=
  if length v mod k =? 0
  then Ok (mkArray2 (length v / k) (chunks k (length v / k) v))
  else Raise ValueError.

(** [a.flatten()] *)
Definition flatten (a : Array2 num) : list num := concat (rows a).

(** [-v] *)
Definition np_neg (v : list num) : list num := map s_neg v.

(** The character trajectory read from a sample [xs ++ ys] of the points
    [(x_i, y_i)], after the rotation: the points [(-y_i, -x_i)]. *)
Definition turned (xs ys : list num) : Array2 num :=
  mkArray2 2 (map (fun j => [nth j (np_neg ys) zero; nth j (np_neg xs) zero])
                (seq 0 (length ys))).

(** A method of the writer, run inside a builder. *)
Definition during {A : Type} (m : Method num A) : Batch num A :=
  fun w => let r := m w in (result r, final r, map During (events r)).

(** [res_data[c]] and [res_data[c].append(x)] *)
Fixpoint dd_get (c : string) (res : ResData num) : option (list (list num)) :=
  match res with
  | [] => None
  | (c', xs) :: rest => if String.eqb c c' then Some xs else dd_get c rest
  end.

Fixpoint dd_append (c : string) (x : list num) (res : ResData num) : ResData num :=
  match res with
  | [] => [(c, [x])]
  | (c', xs) :: rest =>
      if String.eqb c c' then (c', xs ++ [x]) :: rest
      else (c', xs) :: dd_append c x rest
  end.

(** The body of the inner loop of [build_ik_joint_traj_for_chars], up to
    the array that is appended. *)
Definition ik_joint_traj_for_sample (d : list num) : Method num (list num) :=
  (a <- lift (np_reshape 2 (removelast d)) ;;
   let tmp_char_traj := np_T a in
   let tmp_char_traj :=
     np_T (np_array [np_neg (column 1 tmp_char_traj);
                     np_neg (column 0 tmp_char_traj)]) in
   tmp_spatial_traj <- generate_spatial_trajectory tmp_char_traj ;;
   tmp_q_array <- derive_ik_trajectory tmp_spatial_traj ;;
   ret (flatten (np_T tmp_q_array)))%method.

(** The same for [build_ilqr_joint_traj_for_chars]. *)
Definition ilqr_joint_traj_for_sample (d : list num) : Method num (list num) :=
  (a <- lift (np_reshape 2 (removelast d)) ;;
   let tmp_char_traj := np_T a in
   let tmp_char_traj :=
     np_T (np_array [np_neg (column 1 tmp_char_traj);
                     np_neg (column 0 tmp_char_traj)]) in
   tmp_spatial_traj <- generate_spatial_trajectory tmp_char_traj ;;
   tmp_q_array <- derive_ilqr_trajectory synthesize_trajectory tmp_spatial_traj ;;
   ret (flatten (np_T tmp_q_array)))%method.

(** The same for [build_fa_for_joint_trajs]. *)
Definition fa_for_sample (d : list num) : Method num (list num) :=
  (a <- lift (np_reshape 7 d) ;;
   let tmp_jnt_traj := np_T a in
   tmp_fa_parms <- derive_fa_parms_from_jnt_traj tmp_jnt_traj ;;
   ret (flatten (np_array tmp_fa_parms)))%method.

(** [for d in data[c]: ... res_data[c].append(...)] *)
Fixpoint samples_loop (body : list num -> Method num (list num))
  (c : string) (ds : list (list num)) (res_data : ResData num)
  : Batch num (ResData num) :=
  match ds with
  | [] => ret res_data
  | d :: rest =>
      (x <- during (body d) ;;
       samples_loop body c rest (dd_append c x res_data))%method
  end.

(** [for c in data.keys(): print ...; for d in data[c]: ...], over the
    characters in the order the dictionary gives them. *)
Fixpoint chars_loop (body : list num -> Method num (list num))
  (data : list (string * list (list num))) (res_data : ResData num)
  : Batch num (ResData num) :=
  match data with
  | [] => ret res_data
  | (c, ds) :: rest =>
      (emit (Processing c) ;;
       res_data <- samples_loop body c ds res_data ;;
       chars_loop body rest res_data)%method
  end.

Definition build_ik_joint_traj_for_chars (data : list (string * list (list num)))
  : Outcome (ResData num) * BaxterWriter num * list (BatchEvent num) :=
  let baxter_writer :=
    new_BaxterWriter path_prefix baxter_dynamics PyRBF_FunctionApproximator in
  chars_loop ik_joint_traj_for_sample data [] baxter_writer.

Definition build_ilqr_joint_traj_for_chars (data : list (string * list (list num)))
  : Outcome (ResData num) * BaxterWriter num * list (BatchEvent num) :=
  let baxter_writer :=
    new_BaxterWriter path_prefix baxter_dynamics PyRBF_FunctionApproximator in
  chars_loop ilqr_joint_traj_for_sample data [] baxter_writer.

Definition build_fa_for_joint_trajs (data : list (string * list (list num)))
  : Outcome (ResData num) * BaxterWriter num * list (BatchEvent num) :=
  let baxter_writer :=
    new_BaxterWriter path_prefix baxter_dynamics PyRBF_FunctionApproximator in
  chars_loop fa_for_sample data [] baxter_writer.

(** The characters printed by a builder, in order. *)
Fixpoint processed (evs : list (BatchEvent num)) : list string :=
  match evs with
  | [] => []
  | Processing c :: evs' => c :: processed evs'
  | During _ :: evs' => processed evs'
  end.

(** What the writer's methods did during a builder's run. *)
Fixpoint inner (evs : list (BatchEvent num)) : list (Event num) :=
  match evs with
  | [] => []
  | Processing _ :: evs' => inner evs'
  | During e :: evs' => e :: inner evs'
  end.

(** The result of a builder that ran [body] on the samples of [data] with
    the writer [w]: under each character the outputs of its samples, in
    their order; a character without a sample has no entry. *)
Definition grouped (body : list num -> Method num (list num))
  (w : BaxterWriter num) (data : list (string * list (list num)))
  (res : ResData num) : Prop :=
  forall c ds, In (c, ds) data ->
    exists xs,
      Forall2 (fun d x => result (body d w) = Ok x) ds xs /\
      dd_get c res = match xs with [] => None | _ :: _ => Some xs end.

(** What a run [r] of a builder over [data] leaves behind. *)
Record batch_post (body : list num -> Method num (list num))
  (w : BaxterWriter num) (data : list (string * list (list num)))
  (r : Outcome (ResData num) * BaxterWriter num * list (BatchEvent num))
  : Prop := mkBatchPost {
  batch_final : final r = w;
  batch_returns :
    forall res, result r = Ok res ->
      processed (events r) = map fst data /\
      grouped body w data res /\
      forall c, ~ In c (map fst data) -> dd_get c res = None;
  batch_total :
    (forall c ds d, In (c, ds) data -> In d ds ->
       exists x, result (body d w) = Ok x) ->
    exists res, result r = Ok res;
  batch_raises :
    forall e, result r = Raise e ->
      exists c ds d, In (c, ds) data /\ In d ds /\ result (body d w) = Raise e
}.

End Builders.

(** ** Binary64 numbers that are not below zero

    A number of the program is an IEEE double, which may be NaN: [x] is not
    negative when it is NaN, or its sign bit is clear. *)

Definition sf_not_negative (x : SpecFloat.spec_float) : Prop :=
  match x with
  | SpecFloat.S754_nan => True
  | SpecFloat.S754_zero s => s = false
  | SpecFloat.S754_infinity s => s = false
  | SpecFloat.S754_finite s _ _ => s = false
  end.

Definition not_negative (x : PrimFloat.float) : Prop :=
  sf_not_negative (FloatOps.Prim2SF x).

(** ** Arrays of any number of dimensions

    [generate_spatial_trajectory] takes whatever array its caller passes:
    numpy checks the shape only where the scaled array is written into the
    two planar columns.  An array of numbers is its shape and its entries in
    row-major order; the shape [[]] is that of a 0-d array. *)

Record ndarray (num : Type) : Type := mkNd {
  nd_shape : list nat;
  nd_data : list num
}.
Arguments mkNd {num} nd_shape nd_data.

Section AnyArray.
Context {num : Type} `{Scalar num}.

(** A 2-D array as an array of any dimension. *)
Definition of_Array2 (a : Array2 num) : ndarray num :=
  mkNd [len a; ncols a] (concat (rows a)).

(** [len(a)]: the first dimension; [len()] of a 0-d array raises. *)
Definition nd_len (a : ndarray num) : Outcome nat :=
  match nd_shape a with
  | [] => Raise TypeError
  | n :: _ => Ok n
  end.

(** [a * s] for a scalar [s] *)
Definition nd_scale (a : ndarray num) (s : num) : ndarray num :=
  mkNd (nd_shape a) (map (fun x => (x * s)%num) (nd_data a)).

(** An assignment strips unit dimensions from the left of a source that
    has more dimensions than the [k] of its target. *)
Fixpoint strip_units (k : nat) (shape : list nat) : list nat :=
  match shape with
  | 1 :: rest => if k <? length shape then strip_units k rest else shape
  | _ => shape
  end.

(** [dst[:, 0:2] = src], where [dst] has at least two columns: [src] is
    broadcast to the shape [(len(dst), 2)].  Seen as [a] rows of [b]
    entries (one row for a 1-d source, one entry for a 0-d one), it needs
    [a] to be [len(dst)] or 1 and [b] to be 2 or 1; a dimension of size 1
    is repeated. *)
Definition nd_setitem_cols_0_2 (dst : Array2 num) (src : ndarray num)
  : Outcome (Array2 num) :=
  let fill (a b : nat) :=
    if ((a =? len dst) || (a =? 1)) && ((b =? 2) || (b =? 1)) then
      Ok (mkArray2 (ncols dst)
            (map (fun id =>
                    let i := if a =? 1 then 0 else fst id in
                    let at_col j :=
                      nth (i * b + (if b =? 1 then 0 else j)) (nd_data src) zero in
                    [at_col 0; at_col 1] ++ skipn 2 (snd id))
               (combine (seq 0 (len dst)) (rows dst))))
    else Raise ValueError in
  match strip_units 2 (nd_shape src) with
  | [] => fill 1 1
  | [b] => fill 1 b
  | [a; b] => fill a b
  | _ => Raise ValueError
  end.

(** [generate_spatial_trajectory] on an array of any dimension. *)
Definition generate_spatial_trajectory_nd (char_traj : ndarray num)
  : Method num (Array2 num) :=
  (self <- get ;;
   n <- lift (nd_len char_traj) ;;
   let spatial_traj := np_zeros2 n 3 in
   spatial_traj <- lift (nd_setitem_cols_0_2 spatial_traj
                           (nd_scale char_traj (scale self))) ;;
   spatial_traj <- lift (np_add_row spatial_traj (block_center self)) ;;
   ret spatial_traj)%method.

(** The two stages chained on it. *)
Definition ik_pipeline_nd (char_traj : ndarray num) : Method num (Array2 num) :=
  (spatial_traj <- generate_spatial_trajectory_nd char_traj ;;
   derive_ik_trajectory spatial_traj)%method.

End AnyArray.

(** Further synthetic inputs. *)
Module SyntheticEdge.

(** Two targets, neither reachable. *)
Definition unreachable : Array2 PrimFloat.float :=
  mkArray2 3 [[Synthetic.fl 3; Synthetic.fl 0; Synthetic.fl 0];
              [Synthetic.fl 3; Synthetic.fl 1; Synthetic.fl 0]].

(** An arm of six joints: the solver answers with six angles. *)
Definition dynamics6 (kin_name urdf : string) : RobotDynamics PrimFloat.float :=
  mkRobotDynamics 6 Synthetic.fk
    (fun pnt orientation seed => Some (firstn 6 seed)) Synthetic.mass.

Definition writer6 : BaxterWriter PrimFloat.float :=
  new_BaxterWriter "/opt/vae_assoc" dynamics6 Synthetic.approximator.

(** A model in which the solver answers a three-coordinate target with a
    configuration that forward kinematics maps back to it. *)
Definition dynamics_exact (kin_name urdf : string)
  : RobotDynamics PrimFloat.float :=
  mkRobotDynamics 7 Synthetic.fk
    (fun pnt orientation seed =>
       if length pnt =? 3 then Some (pnt ++ skipn 3 seed) else None)
    Synthetic.mass.

Definition writer_exact : BaxterWriter PrimFloat.float :=
  new_BaxterWriter "/opt/vae_assoc" dynamics_exact Synthetic.approximator.

(** A sample of two points [(1, 3)] and [(2, 4)], closed by its marker, and
    one whose marker is followed by nothing even. *)
Definition sample2 : list PrimFloat.float :=
  map Synthetic.fl [1; 2; 3; 4; 0]%Z.
Definition sample_odd : list PrimFloat.float :=
  map Synthetic.fl [1; 2; 3; 0]%Z.

(** A state whose first joint is at [2^-600], the others at zero, at rest. *)
Definition tiny : PrimFloat.float := FloatOps.Z.ldexp (Synthetic.fl 1) (-600)%Z.
Definition state_off_target : list PrimFloat.float :=
  tiny :: repeat (Synthetic.fl 0) 13.

(** A joint trajectory of two configurations. *)
Definition joints2 : Array2 PrimFloat.float :=
  mkArray2 7 [map Synthetic.fl [1; 2; 3; 4; 5; 6; 7]%Z;
              map Synthetic.fl [8; 9; 10; 11; 12; 13; 14]%Z].

(** A data set with two samples of the letter a and none of b. *)
Definition data_ab : list (string * list (list PrimFloat.float)) :=
  [("a"%string, [sample2; sample2]); ("b"%string, [])].

End SyntheticEdge.

(** * Facts *)

(** ** Lists *)

Section ListFacts.
Context {A B : Type}.

Lemma nth_error_adjacent (f : A * A -> B) (l : list A) :
  forall i a b,
    nth_error l i = Some a -> nth_error l (S i) = Some b ->
    nth_error (map f (combine l (tl l))) i = Some (f (a, b)).
Proof.
  induction l as [|x l IH]; intros i a b Ha Hb.
  - destruct i; discriminate.
  - destruct l as [|y l]; [destruct i; discriminate|].
    destruct i as [|i]; simpl in *.
    + now inversion Ha; inversion Hb.
    + now apply IH.
Qed.

Lemma length_adjacent (f : A * A -> B) (l : list A) :
  length (map f (combine l (tl l))) = length l - 1.
Proof.
  rewrite length_map, length_combine.
  destruct l; cbn [tl length]; lia.
Qed.

End ListFacts.

(** ** Traces *)

Section TraceFacts.
Context {num : Type}.
Implicit Types (evs : list (Event num)) (cs : list (Solve num)).

Lemma solves_app evs1 evs2 : solves (evs1 ++ evs2) = solves evs1 ++ solves evs2.
Proof.
  induction evs1 as [|[] evs1 IH]; simpl; now rewrite ?IH.
Qed.

Lemma diagnostics_app evs1 evs2 :
  diagnostics (evs1 ++ evs2) = diagnostics evs1 ++ diagnostics evs2.
Proof.
  induction evs1 as [|[] evs1 IH]; simpl; now rewrite ?IH.
Qed.

Lemma builds_app evs1 evs2 : builds (evs1 ++ evs2) = builds evs1 ++ builds evs2.
Proof.
  induction evs1 as [|[] evs1 IH]; simpl; now rewrite ?IH.
Qed.

Lemma runs_app evs1 evs2 : runs (evs1 ++ evs2) = runs evs1 ++ runs evs2.
Proof.
  induction evs1 as [|[] evs1 IH]; simpl; now rewrite ?IH.
Qed.

Lemma failures_length idx cs :
  length (failures idx cs) = length (filter failed cs).
Proof.
  revert idx; induction cs as [|c cs IH]; intros idx; simpl; [reflexivity|].
  destruct (failed c); simpl; now rewrite IH.
Qed.

Lemma accepted_length cs :
  length (accepted cs) + length (filter failed cs) = length cs.
Proof.
  induction cs as [|c cs IH]; simpl; [reflexivity|].
  unfold failed at 1. destruct (sv_q c); simpl; lia.
Qed.

Lemma failures_In idx cs :
  forall i c, nth_error cs i = Some c -> sv_q c = None ->
              In (idx + i, sv_pnt c) (failures idx cs).
Proof.
  revert idx; induction cs as [|c0 cs IH]; intros idx i c Hi Hq.
  - destruct i; discriminate.
  - destruct i as [|i]; simpl in *.
    + inversion Hi; subst c0. unfold failed. rewrite Hq, Nat.add_0_r. now left.
    + replace (idx + S i) with (S idx + i) by lia.
      destruct (failed c0); [right|]; now apply IH.
Qed.

Lemma failures_inv idx cs :
  forall i p, In (i, p) (failures idx cs) ->
              exists c, idx <= i /\ nth_error cs (i - idx) = Some c /\
                        sv_q c = None /\ sv_pnt c = p.
Proof.
  revert idx; induction cs as [|c0 cs IH]; intros idx i p Hin; simpl in Hin.
  - contradiction.
  - assert (Hrest : In (i, p) (failures (S idx) cs) ->
                    exists c, idx <= i /\ nth_error (c0 :: cs) (i - idx) = Some c /\
                              sv_q c = None /\ sv_pnt c = p).
    { intros Hr. destruct (IH _ _ _ Hr) as (c & Hle & Hn & Hq & Hp).
      exists c. repeat split; try assumption; try lia.
      replace (i - idx) with (S (i - S idx)) by lia. exact Hn. }
    unfold failed in Hin. destruct (sv_q c0) eqn:Hq0; [now apply Hrest|].
    destruct Hin as [Heq|Hr]; [|now apply Hrest].
    inversion Heq; subst. exists c0. rewrite Nat.sub_diag. now repeat split.
Qed.

Lemma warm_started_head q_seed cs c :
  warm_started q_seed cs -> nth_error cs 0 = Some c -> sv_seed c = q_seed.
Proof.
  destruct cs as [|c0 cs]; simpl; [discriminate|].
  intros [Hs _] Hc. now inversion Hc; subst.
Qed.

Lemma warm_started_next q_seed cs :
  warm_started q_seed cs ->
  forall i c c', nth_error cs i = Some c -> nth_error cs (S i) = Some c' ->
                 sv_seed c' = match sv_q c with
                              | Some q => q
                              | None => sv_seed c
                              end.
Proof.
  revert q_seed; induction cs as [|c0 cs IH]; intros q_seed Hw i c c' Hc Hc'.
  - destruct i; discriminate.
  - destruct Hw as [Hs Hw]. destruct i as [|i]; simpl in Hc, Hc'.
    + inversion Hc; subst c0.
      rewrite (warm_started_head _ _ Hw Hc'). now rewrite Hs.
    + exact (IH _ Hw _ _ _ Hc Hc').
Qed.

Lemma last_cons {A : Type} (a d : A) (l : list A) : last (a :: l) d = last l a.
Proof.
  revert a d; induction l as [|b l IH]; intros a d; [reflexivity|].
  change (last (a :: b :: l) d) with (last (b :: l) d).
  now rewrite (IH b d), (IH b a).
Qed.

(** The seed of a solve is the last configuration found before it. *)
Lemma warm_started_seed q_seed cs :
  warm_started q_seed cs ->
  forall i c, nth_error cs i = Some c ->
              sv_seed c = last (accepted (firstn i cs)) q_seed.
Proof.
  revert q_seed; induction cs as [|c0 cs IH]; intros q_seed Hw i c Hc.
  - destruct i; discriminate.
  - destruct Hw as [Hs Hw]. destruct i as [|i]; simpl in Hc.
    + inversion Hc; subst c0. exact Hs.
    + rewrite (IH _ Hw _ _ Hc). cbn [firstn accepted].
      destruct (sv_q c0) as [q|]; [now rewrite last_cons | reflexivity].
Qed.

(** With no failed solve, the configurations found are the answers of
    the solves, step by step. *)
Lemma accepted_nth cs :
  filter failed cs = [] ->
  forall i c, nth_error cs i = Some c -> sv_q c = nth_error (accepted cs) i.
Proof.
  induction cs as [|c0 cs IH]; intros Hf i c Hc.
  - destruct i; discriminate.
  - simpl in Hf. unfold failed in Hf at 1.
    destruct (sv_q c0) eqn:Hq0; [|discriminate].
    simpl. rewrite Hq0. destruct i as [|i]; simpl in *.
    + inversion Hc; subst. exact Hq0.
    + now apply IH.
Qed.

(** Decide whether the solve [c] at step [k] failed, from a statement
    [Hat] of which steps fail. *)
Ltac settle_solve Hat k c :=
  let Hq := fresh "Hq" in
  destruct (sv_q c) eqn:Hq;
  [ try (exfalso; pose proof (proj2 (Hat k c eq_refl) eq_refl); congruence)
  | try (exfalso; pose proof (proj1 (Hat k c eq_refl) Hq); discriminate) ].

(** Exactly the fourth of ten solves fails. *)
Lemma fails_at_3_of_10 cs :
  length cs = 10 ->
  (forall i c, nth_error cs i = Some c -> (sv_q c = None <-> i = 3)) ->
  map fst (failures 0 cs) = [3] /\ length (accepted cs) = 9.
Proof.
  intros Hlen Hat.
  destruct cs as [|c0 [|c1 [|c2 [|c3 [|c4 [|c5 [|c6 [|c7 [|c8 [|c9 [|? ?]]]]]]]]]]];
    try discriminate.
  settle_solve Hat 0 c0. settle_solve Hat 1 c1. settle_solve Hat 2 c2.
  settle_solve Hat 3 c3. settle_solve Hat 4 c4. settle_solve Hat 5 c5.
  settle_solve Hat 6 c6. settle_solve Hat 7 c7. settle_solve Hat 8 c8.
  settle_solve Hat 9 c9.
  simpl; unfold failed.
  repeat match goal with Hq : sv_q _ = _ |- _ => rewrite Hq; clear Hq end.
  simpl; auto.
Qed.

End TraceFacts.

(** ** The IK loop *)

Section IKFacts.
Context {num : Type} `{Scalar num}.
Implicit Types (w : BaxterWriter num) (pnts : list (list num)).

Lemma len_np_array (l : list (list num)) : len (np_array l) = length l.
Proof. destruct l; reflexivity. Qed.

Lemma rows_np_array (l : list (list num)) : rows (np_array l) = l.
Proof. destruct l; reflexivity. Qed.

(** One turn of the loop. *)
Lemma ik_loop_step idx pnt pnts q_seed q_array w :
  ik_loop idx (pnt :: pnts) q_seed q_array w =
  let orientation := slice 3 7 (seed_pose w) in
  match inverse_kinematics (robot_dynamics w) pnt orientation q_seed with
  | None =>
      let r := ik_loop (S idx) pnts q_seed q_array w in
      (result r, final r,
       IKSolve pnt orientation q_seed None :: Printed idx pnt :: events r)
  | Some q' =>
      let r := ik_loop (S idx) pnts q' (q_array ++ [q']) w in
      (result r, final r, IKSolve pnt orientation q_seed (Some q') :: events r)
  end.
Proof.
  cbn [ik_loop]. unfold bind, get, emit. cbn.
  destruct (inverse_kinematics _ _ _ _);
    match goal with
    | |- context [ik_loop ?i ?p ?s ?a ?w] =>
        destruct (ik_loop i p s a w) as [[? ?] ?]
    end; reflexivity.
Qed.

Lemma ik_loop_post pnts :
  forall idx q_seed q_array w,
    loop_post w idx pnts q_seed q_array (ik_loop idx pnts q_seed q_array w).
Proof.
  induction pnts as [|pnt pnts IH]; intros idx q_seed q_array w.
  - constructor; cbn; auto. now rewrite app_nil_r.
  - rewrite ik_loop_step. cbn zeta.
    destruct (inverse_kinematics _ _ _ _) as [q'|] eqn:Hq.
    + pose proof (IH (S idx) q' (q_array ++ [q']) w) as P.
      destruct (ik_loop _ _ _ _ _) as [[r s] ev].
      destruct P as [Hf Hr Ht Ho Ha Hs Hd Hb Hn].
      unfold result, final, events in *. cbn in *.
      constructor; unfold result, final, events; cbn; auto.
      * rewrite Hr, <- app_assoc. reflexivity.
      * now rewrite Ht.
    + pose proof (IH (S idx) q_seed q_array w) as P.
      destruct (ik_loop _ _ _ _ _) as [[r s] ev].
      destruct P as [Hf Hr Ht Ho Ha Hs Hd Hb Hn].
      unfold result, final, events in *. cbn in *.
      constructor; unfold result, final, events; cbn; auto.
      * now rewrite Ht.
      * now rewrite Hd.
Qed.

(** The method around the loop. *)
Lemma derive_ik_trajectory_run (spatial_traj : Array2 num) w :
  derive_ik_trajectory spatial_traj w =
  let r := ik_loop 0 (rows spatial_traj) (seed_pos w) [] w in
  (match result r with
   | Ok q_array => Ok (np_array q_array)
   | Raise e => Raise e
   end, final r,
   match result r with
   | Ok _ => events r ++ []
   | Raise _ => events r
   end).
Proof.
  unfold derive_ik_trajectory, bind, get, ret. cbn.
  destruct (ik_loop _ _ _ _ _) as [[[q|e] s] ev]; reflexivity.
Qed.

Lemma derive_ik_trajectory_post (spatial_traj : Array2 num) w :
  let r := derive_ik_trajectory spatial_traj w in
  final r = w /\
  result r = Ok (np_array (accepted (solves (events r)))) /\
  loop_post w 0 (rows spatial_traj) (seed_pos w) []
    (Ok (accepted (solves (events r))), w, events r).
Proof.
  cbn zeta. rewrite derive_ik_trajectory_run. cbn zeta.
  pose proof (ik_loop_post (rows spatial_traj) 0 (seed_pos w) [] w) as P.
  destruct (ik_loop _ _ _ _ _) as [[r s] ev].
  destruct P as [Hf Hr Ht Ho Ha Hs Hd Hb Hn].
  cbn [result final events fst snd app] in *. subst s. rewrite Hr.
  rewrite app_nil_r.
  repeat split; auto.
Qed.

End IKFacts.

(** ** IK trajectory builder: skip and continue, warm start, frame *)

(** C1.  In [derive_ik_trajectory] every target of the spatial trajectory is
    handed to the IK solver exactly once, in order, and the method returns
    without raising.  A solve that fails is skipped: it adds no row to the
    returned trajectory, the solve after it is seeded as the failed one was,
    and one diagnostic carrying its index and position is printed.  Hence
    the returned trajectory has as many rows as the input has points minus
    the number of failed solves; when exactly the solve at index 3 of a
    10-point path fails, 9 rows are returned and the diagnostics name
    index 3 only. *)
Theorem derive_ik_trajectory_skips_failures
  {num : Type} `{Scalar num} (w : BaxterWriter num) (spatial_traj : Array2 num) :
  let r := derive_ik_trajectory spatial_traj w in
  let cs := solves (events r) in
  map (@sv_pnt num) cs = rows spatial_traj /\
  Forall (fun c => sv_q c = inverse_kinematics (robot_dynamics w)
                              (sv_pnt c) (sv_orientation c) (sv_seed c)) cs /\
  (exists q_array,
      result r = Ok q_array /\
      rows q_array = accepted cs /\
      len q_array = len spatial_traj - length (filter failed cs)) /\
  diagnostics (events r) = failures 0 cs /\
  length (diagnostics (events r)) = length (filter failed cs) /\
  (forall i c, nth_error cs i = Some c -> sv_q c = None ->
               In (i, sv_pnt c) (diagnostics (events r))) /\
  (forall i p, In (i, p) (diagnostics (events r)) ->
               exists c, nth_error cs i = Some c /\ sv_q c = None /\
                         nth_error (rows spatial_traj) i = Some p) /\
  (forall i c c', nth_error cs i = Some c -> nth_error cs (S i) = Some c' ->
                  sv_q c = None -> sv_seed c' = sv_seed c) /\
  (len spatial_traj = 10 ->
   (forall i c, nth_error cs i = Some c -> (sv_q c = None <-> i = 3)) ->
   exists q_array,
     result r = Ok q_array /\ len q_array = 9 /\
     map fst (diagnostics (events r)) = [3]).
Proof.
  intros r cs.
  destruct (derive_ik_trajectory_post spatial_traj w) as (_ & Hres & P).
  fold r in Hres, P. fold cs in Hres, P.
  destruct P as [_ _ Ht _ Ha Hs Hd _ _].
  cbn [events snd] in Ht, Ha, Hs, Hd. fold cs in Ht, Ha, Hs, Hd.
  assert (Hlen : length cs = len spatial_traj).
  { unfold len. now rewrite <- Ht, length_map. }
  assert (Hrows : len (np_array (accepted cs)) =
                  len spatial_traj - length (filter failed cs)).
  { rewrite len_np_array, <- Hlen, <- (accepted_length cs). lia. }
  split; [exact Ht|]. split; [exact Ha|].
  split; [exists (np_array (accepted cs)); now rewrite rows_np_array|].
  split; [exact Hd|].
  split; [now rewrite Hd, failures_length|].
  split; [intros i c Hc Hq; rewrite Hd; exact (failures_In 0 cs i Hc Hq)|].
  split.
  { intros i p Hin. rewrite Hd in Hin.
    destruct (failures_inv _ _ _ _ Hin) as (c & _ & Hc & Hq & Hp).
    rewrite Nat.sub_0_r in Hc. exists c. repeat split; try assumption.
    rewrite <- Ht, nth_error_map, Hc. cbn. now rewrite Hp. }
  split.
  { intros i c c' Hc Hc' Hq.
    rewrite (warm_started_next _ _ Hs _ Hc Hc'). now rewrite Hq. }
  intros H10 Hat. rewrite <- Hlen in H10.
  destruct (fails_at_3_of_10 cs H10 Hat) as [Hd3 Ha9].
  exists (np_array (accepted cs)).
  rewrite len_np_array, Hd. now repeat split.
Qed.

Lemma derive_ik_trajectory_skips_failures_witness :
  exists q_array,
    result (derive_ik_trajectory Synthetic.path10 Synthetic.writer) = Ok q_array /\
    len q_array = 9 /\
    map fst (diagnostics
               (events (derive_ik_trajectory Synthetic.path10 Synthetic.writer)))
    = [3].
Proof.
  destruct (derive_ik_trajectory_skips_failures Synthetic.writer Synthetic.path10)
    as (_ & _ & _ & _ & _ & _ & _ & _ & H10).
  apply H10; [reflexivity|].
  intros i c. vm_compute.
  do 10 (destruct i as [|i];
         [intros [= <-]; split; intros E; (reflexivity || discriminate E)|]).
  destruct i; discriminate.
Defined.

(** C2.  The first IK solve of [derive_ik_trajectory] is seeded with the
    configuration the writer holds as [seed_pos], whatever a caller has put
    there; every solve is the answer of the IK solver to its target, the
    fixed orientation and its seed; a solve that follows a successful one is
    seeded with the configuration that one returned, and a solve that
    follows a failed one is seeded as the failed one was: the seed of a
    solve is the last configuration accepted before it.  On a path where no
    solve fails the seed of step [i + 1] is row [i] of the returned
    trajectory, which has one row per target. *)
Theorem derive_ik_trajectory_warm_start
  {num : Type} `{Scalar num} (w : BaxterWriter num) (spatial_traj : Array2 num) :
  let r := derive_ik_trajectory spatial_traj w in
  let cs := solves (events r) in
  map (@sv_pnt num) cs = rows spatial_traj /\
  (forall c, nth_error cs 0 = Some c -> sv_seed c = seed_pos w) /\
  (forall i c c' q, nth_error cs i = Some c -> nth_error cs (S i) = Some c' ->
                    sv_q c = Some q -> sv_seed c' = q) /\
  (filter failed cs = [] ->
   exists q_array,
     result r = Ok q_array /\ len q_array = len spatial_traj /\
     forall i c', nth_error cs (S i) = Some c' ->
                  nth_error (rows q_array) i = Some (sv_seed c')) /\
  Forall (fun c => sv_orientation c = slice 3 7 (seed_pose w) /\
                   sv_q c = inverse_kinematics (robot_dynamics w)
                              (sv_pnt c) (sv_orientation c) (sv_seed c)) cs /\
  (forall i c c', nth_error cs i = Some c -> nth_error cs (S i) = Some c' ->
                  sv_q c = None -> sv_seed c' = sv_seed c) /\
  (forall i c, nth_error cs i = Some c ->
               sv_seed c = last (accepted (firstn i cs)) (seed_pos w)) /\
  result r = Ok (np_array (accepted cs)).
Proof.
  intros r cs.
  destruct (derive_ik_trajectory_post spatial_traj w) as (_ & Hres & P).
  fold r in Hres, P. fold cs in Hres, P.
  destruct P as [_ _ Ht Ho Ha Hs _ _ _].
  cbn [events snd] in Ht, Ho, Ha, Hs. fold cs in Ht, Ho, Ha, Hs.
  split; [exact Ht|].
  split; [intros c Hc; exact (warm_started_head _ _ Hs Hc)|].
  split.
  { intros i c c' q Hc Hc' Hq.
    rewrite (warm_started_next _ _ Hs _ Hc Hc'). now rewrite Hq. }
  split.
  { intros Hnone. exists (np_array (accepted cs)).
    split; [exact Hres|]. split.
    - rewrite len_np_array. pose proof (accepted_length cs) as Hl.
      rewrite Hnone in Hl. cbn in Hl. unfold len.
      rewrite <- Ht, length_map. lia.
    - intros i c' Hc'. rewrite rows_np_array.
      destruct (nth_error cs i) as [c|] eqn:Hc.
      + rewrite <- (accepted_nth cs Hnone i Hc).
        rewrite (warm_started_next _ _ Hs _ Hc Hc').
        destruct (sv_q c) eqn:Hq; [reflexivity|].
        assert (Hin : In c (filter failed cs)).
        { apply filter_In. split; [exact (nth_error_In _ _ Hc)|].
          unfold failed. now rewrite Hq. }
        rewrite Hnone in Hin. contradiction.
      + apply nth_error_None in Hc.
        assert (S i < length cs) by (apply nth_error_Some; congruence). lia. }
  split.
  { rewrite Forall_forall in *. intros c Hc. split; [now apply Ho | now apply Ha]. }
  split.
  { intros i c c' Hc Hc' Hq.
    rewrite (warm_started_next _ _ Hs _ Hc Hc'). now rewrite Hq. }
  split; [exact (warm_started_seed _ _ Hs) | exact Hres].
Qed.

Lemma derive_ik_trajectory_warm_start_witness :
  exists q_array,
    result (derive_ik_trajectory Synthetic.path3 Synthetic.writer) = Ok q_array /\
    len q_array = len Synthetic.path3 /\
    forall i c',
      nth_error (solves (events (derive_ik_trajectory Synthetic.path3
                                   Synthetic.writer))) (S i) = Some c' ->
      nth_error (rows q_array) i = Some (sv_seed c').
Proof.
  destruct (derive_ik_trajectory_warm_start Synthetic.writer Synthetic.path3)
    as (_ & _ & _ & Hall & _).
  apply Hall. vm_compute. reflexivity.
Defined.

(** C10.  [derive_ik_trajectory] leaves the writer as it found it, so
    [seed_pos], [seed_pose], [scale] and [block_center] are the same before
    and after every call: the warm-start seed is a local variable of the
    loop.  The first IK solve of a call is therefore seeded with the same
    [seed_pos] whatever was solved before. *)
Theorem derive_ik_trajectory_keeps_writer
  {num : Type} `{Scalar num} (w : BaxterWriter num)
  (spatial_traj1 spatial_traj2 : Array2 num) :
  let r1 := derive_ik_trajectory spatial_traj1 w in
  let r2 := derive_ik_trajectory spatial_traj2 (final r1) in
  final r1 = w /\ final r2 = w /\
  seed_pos (final r1) = seed_pos w /\ seed_pose (final r1) = seed_pose w /\
  scale (final r1) = scale w /\ block_center (final r1) = block_center w /\
  seed_pos (final r2) = seed_pos w /\ seed_pose (final r2) = seed_pose w /\
  scale (final r2) = scale w /\ block_center (final r2) = block_center w /\
  (forall c, nth_error (solves (events r1)) 0 = Some c -> sv_seed c = seed_pos w) /\
  (forall c, nth_error (solves (events r2)) 0 = Some c -> sv_seed c = seed_pos w).
Proof.
  intros r1 r2.
  destruct (derive_ik_trajectory_post spatial_traj1 w) as (Hf1 & _ & P1).
  fold r1 in Hf1, P1.
  assert (Hf2 : final r2 = w).
  { unfold r2. rewrite Hf1.
    now destruct (derive_ik_trajectory_post spatial_traj2 w) as (Hf2 & _ & _). }
  destruct (derive_ik_trajectory_post spatial_traj2 (final r1)) as (_ & _ & P2).
  fold r2 in P2. rewrite Hf1 in P2.
  destruct P1 as [_ _ _ _ _ Hs1 _ _ _]. destruct P2 as [_ _ _ _ _ Hs2 _ _ _].
  cbn [events snd] in Hs1, Hs2.
  rewrite Hf1, Hf2.
  repeat split; try reflexivity.
  - intros c Hc. exact (warm_started_head _ _ Hs1 Hc).
  - intros c Hc. exact (warm_started_head _ _ Hs2 Hc).
Qed.

(** ** Spatial mapper *)

Section MapperFacts.
Context {num : Type} `{Scalar num}.
Implicit Types (w : BaxterWriter num) (char_traj : Array2 num).

Lemma nth_error_combine {A B} (l1 : list A) :
  forall (l2 : list B) i a b,
    nth_error l1 i = Some a -> nth_error l2 i = Some b ->
    nth_error (combine l1 l2) i = Some (a, b).
Proof.
  induction l1 as [|x l1 IH]; intros [|y l2] [|i] a b Ha Hb;
    simpl in *; try discriminate.
  - now inversion Ha; inversion Hb.
  - now apply IH.
Qed.

(** The method is the two array operations, on an untouched writer. *)
Lemma generate_spatial_trajectory_run char_traj w :
  generate_spatial_trajectory char_traj w =
  ((spatial_traj <~ setitem_cols_0_2 (np_zeros2 (len char_traj) 3)
                      (np_scale char_traj (scale w)) ;;
    np_add_row spatial_traj (block_center w))%outcome, w, []).
Proof.
  unfold generate_spatial_trajectory, bind, get, lift, ret, obind. cbn.
  destruct (setitem_cols_0_2 _ _) as [a|e]; [|reflexivity].
  destruct (np_add_row _ _) as [b|e]; reflexivity.
Qed.

Lemma generate_spatial_trajectory_raises char_traj w :
  length (block_center w) = 3 ->
  (result (generate_spatial_trajectory char_traj w) = Raise ValueError <->
   ncols char_traj <> 2 /\ ncols char_traj <> 1).
Proof.
  intros Hbc. rewrite generate_spatial_trajectory_run.
  unfold result, obind, setitem_cols_0_2, np_add_row. cbn.
  rewrite Hbc. cbn.
  destruct (ncols char_traj =? 2) eqn:E2; destruct (ncols char_traj =? 1) eqn:E1;
    cbn; rewrite ?Nat.eqb_eq, ?Nat.eqb_neq in *;
    split; try discriminate; try tauto; intros [? ?]; lia.
Qed.

Lemma generate_spatial_trajectory_returns char_traj w :
  length (block_center w) = 3 ->
  ncols char_traj = 2 \/ ncols char_traj = 1 ->
  exists out,
    result (generate_spatial_trajectory char_traj w) = Ok out /\
    ncols out = 3 /\ len out = len char_traj /\
    rows out =
      map (fun r => map (fun i => (nth i r zero + nth i (block_center w) zero)%num)
                      (seq 0 3))
        (map (fun dr => [bc_nth (snd dr) 0; bc_nth (snd dr) 1] ++ skipn 2 (fst dr))
           (combine (repeat (np_zeros 3) (len char_traj))
              (map (map (fun x => (x * scale w)%num)) (rows char_traj)))).
Proof.
  intros Hbc Hc. rewrite generate_spatial_trajectory_run.
  unfold result, obind, setitem_cols_0_2, np_add_row. cbn.
  assert (E : (ncols char_traj =? 2) || (ncols char_traj =? 1) = true).
  { destruct Hc as [-> | ->]; reflexivity. }
  rewrite E, Hbc. cbn.
  eexists. split; [reflexivity|]. cbn. split; [reflexivity|]. split.
  - unfold len. cbn. rewrite !length_map, length_combine, repeat_length, length_map.
    apply Nat.min_id.
  - apply map_ext. intros r. unfold bc_nth. now rewrite Hbc.
Qed.

End MapperFacts.

(** C6.  For a planar trajectory (an array of two columns),
    [generate_spatial_trajectory] returns, without raising, without calling
    any collaborator and without touching the writer, an array of three
    columns with one row per input point, and the row at the index of the
    point [(x, y)] is [(x * scale, y * scale, 0) + block_center]. *)
Theorem generate_spatial_trajectory_maps_points
  {num : Type} `{Scalar num} (w : BaxterWriter num) (char_traj : Array2 num) :
  length (block_center w) = 3 ->
  ncols char_traj = 2 ->
  let r := generate_spatial_trajectory char_traj w in
  final r = w /\ events r = [] /\
  exists spatial_traj,
    result r = Ok spatial_traj /\
    ncols spatial_traj = 3 /\
    len spatial_traj = len char_traj /\
    forall i x y,
      nth_error (rows char_traj) i = Some [x; y] ->
      nth_error (rows spatial_traj) i =
      Some [(x * scale w + nth 0 (block_center w) zero)%num;
            (y * scale w + nth 1 (block_center w) zero)%num;
            (zero + nth 2 (block_center w) zero)%num].
Proof.
  intros Hbc Hc r.
  destruct (generate_spatial_trajectory_returns char_traj w Hbc (or_introl Hc))
    as (out & Hres & Hcols & Hlen & Hrows).
  split; [unfold r; now rewrite generate_spatial_trajectory_run|].
  split; [unfold r; now rewrite generate_spatial_trajectory_run|].
  exists out. repeat split; try assumption.
  intros i x y Hi. rewrite Hrows, !nth_error_map.
  assert (Hlt : i < len char_traj).
  { unfold len. apply nth_error_Some. congruence. }
  rewrite (nth_error_combine (repeat (np_zeros 3) (len char_traj))
             (map (map (fun x => (x * scale w)%num)) (rows char_traj)) i
             (a := np_zeros 3) (b := [(x * scale w)%num; (y * scale w)%num])).
  - reflexivity.
  - now apply nth_error_repeat.
  - now rewrite nth_error_map, Hi.
Qed.

Lemma generate_spatial_trajectory_maps_points_witness :
  exists spatial_traj,
    result (generate_spatial_trajectory Synthetic.stroke Synthetic.writer)
    = Ok spatial_traj /\
    len spatial_traj = 3.
Proof.
  destruct (generate_spatial_trajectory_maps_points Synthetic.writer Synthetic.stroke)
    as (_ & _ & out & Hres & _ & Hlen & _); [reflexivity | reflexivity |].
  exists out. split; [exact Hres | exact Hlen].
Defined.

(** ** The mapper on arrays of any dimension *)

Section NdFacts.
Context {num : Type} `{Scalar num}.
Implicit Types (w : BaxterWriter num) (char_traj : ndarray num).

Lemma generate_spatial_trajectory_nd_run char_traj w :
  generate_spatial_trajectory_nd char_traj w =
  ((n <~ nd_len char_traj ;;
    spatial_traj <~ nd_setitem_cols_0_2 (np_zeros2 n 3)
                      (nd_scale char_traj (scale w)) ;;
    np_add_row spatial_traj (block_center w))%outcome, w, []).
Proof.
  unfold generate_spatial_trajectory_nd, bind, get, lift, ret, obind. cbn.
  destruct (nd_len char_traj) as [n|e]; [|reflexivity].
  destruct (nd_setitem_cols_0_2 _ _) as [a|e]; [|reflexivity].
  destruct (np_add_row _ _) as [b|e]; reflexivity.
Qed.

Lemma ik_pipeline_nd_raises char_traj w e :
  result (generate_spatial_trajectory_nd char_traj w) = Raise e ->
  ik_pipeline_nd char_traj w = (Raise e, w, []).
Proof.
  unfold ik_pipeline_nd, bind. rewrite generate_spatial_trajectory_nd_run.
  unfold result. cbn [fst]. now intros ->.
Qed.

Lemma ik_pipeline_nd_returns char_traj w (out : Array2 num) :
  result (generate_spatial_trajectory_nd char_traj w) = Ok out ->
  ik_pipeline_nd char_traj w = derive_ik_trajectory out w.
Proof.
  unfold ik_pipeline_nd, bind. rewrite generate_spatial_trajectory_nd_run.
  unfold result. cbn [fst]. intros ->.
  now destruct (derive_ik_trajectory out w) as [[r s] ev].
Qed.

(** The pipeline once the mapper has returned [n] rows. *)
Lemma ik_pipeline_nd_solves char_traj w (out : Array2 num) :
  result (generate_spatial_trajectory_nd char_traj w) = Ok out ->
  let r := ik_pipeline_nd char_traj w in
  final r = w /\ is_ok (result r) = true /\
  map (@sv_pnt num) (solves (events r)) = rows out /\
  length (solves (events r)) = len out.
Proof.
  intros Hout r. unfold r. rewrite (ik_pipeline_nd_returns _ _ Hout).
  destruct (derive_ik_trajectory_post out w) as (Hf & Hres & P).
  destruct P as [_ _ Ht _ _ _ _ _ _]. cbn [events snd] in Ht.
  split; [exact Hf|]. split; [now rewrite Hres|]. split; [exact Ht|].
  unfold len. now rewrite <- Ht, length_map.
Qed.

Lemma strip_units_short (shape : list nat) :
  length shape <= 2 -> strip_units 2 shape = shape.
Proof.
  destruct shape as [|d rest]; [reflexivity|]. intros Hlen.
  destruct d as [|[|d]]; try reflexivity.
  cbn [strip_units]. cbn [length] in *.
  destruct (2 <? S (length rest)) eqn:E; [|reflexivity].
  apply Nat.ltb_lt in E. lia.
Qed.

Lemma strip_units_all (lead : list nat) (a b : nat) :
  forallb (Nat.eqb 1) lead = true -> strip_units 2 (lead ++ [a; b]) = [a; b].
Proof.
  induction lead as [|d lead IH]; intros Hall.
  - now apply strip_units_short.
  - cbn [forallb] in Hall. apply andb_prop in Hall. destruct Hall as [Hd Hall].
    apply Nat.eqb_eq in Hd. subst d. cbn [app strip_units].
    assert (E : (2 <? length (1 :: lead ++ [a; b])) = true).
    { apply Nat.ltb_lt. cbn [length]. rewrite length_app. cbn [length]. lia. }
    rewrite E. now apply IH.
Qed.

Lemma strip_units_some (lead : list nat) (a b : nat) :
  forallb (Nat.eqb 1) lead = false ->
  exists d1 d2 d3 rest, strip_units 2 (lead ++ [a; b]) = d1 :: d2 :: d3 :: rest.
Proof.
  induction lead as [|d lead IH]; intros Hall; [discriminate|].
  assert (Hlong : exists d2 d3 rest, lead ++ [a; b] = d2 :: d3 :: rest).
  { destruct lead as [|d2 [|d3 lead]]; cbn; eauto. }
  cbn [forallb] in Hall. destruct (Nat.eqb 1 d) eqn:Hd.
  - apply Nat.eqb_eq in Hd. subst d. cbn [andb] in Hall.
    cbn [app strip_units].
    assert (E : (2 <? length (1 :: lead ++ [a; b])) = true).
    { apply Nat.ltb_lt. cbn [length]. rewrite length_app. cbn [length]. lia. }
    rewrite E. now apply IH.
  - destruct Hlong as (d2 & d3 & rest & Hl). exists d, d2, d3, rest.
    cbn [app]. rewrite Hl.
    destruct d as [|[|d]]; try reflexivity. discriminate.
Qed.

(** The assignment by the shape [(a, b)] its source is seen with. *)
Lemma nd_setitem_cols_0_2_view (dst : Array2 num) (src : ndarray num) (a b : nat) :
  strip_units 2 (nd_shape src) = [a; b] \/
  (strip_units 2 (nd_shape src) = [b] /\ a = 1) \/
  (strip_units 2 (nd_shape src) = [] /\ a = 1 /\ b = 1) ->
  if ((a =? len dst) || (a =? 1)) && ((b =? 2) || (b =? 1)) then
    exists out, nd_setitem_cols_0_2 dst src = Ok out /\
                ncols out = ncols dst /\ len out = len dst
  else nd_setitem_cols_0_2 dst src = Raise ValueError.
Proof.
  intros Hview. unfold nd_setitem_cols_0_2.
  assert (Hlen : forall (f : nat * list num -> list num),
             length (map f (combine (seq 0 (len dst)) (rows dst))) = len dst).
  { intros f. rewrite length_map, length_combine, length_seq. apply Nat.min_id. }
  destruct Hview as [-> | [[-> ->] | (-> & -> & ->)]];
    destruct (_ && _); try reflexivity;
    eexists; (split; [reflexivity|]); (split; [reflexivity|]);
    unfold len at 1; cbn [rows]; apply Hlen.
Qed.

Lemma nd_setitem_cols_0_2_long (dst : Array2 num) (src : ndarray num)
  (d1 d2 d3 : nat) (rest : list nat) :
  strip_units 2 (nd_shape src) = d1 :: d2 :: d3 :: rest ->
  nd_setitem_cols_0_2 dst src = Raise ValueError.
Proof. intros E. unfold nd_setitem_cols_0_2. now rewrite E. Qed.

(** The mapper by the shape its input is seen with, the first dimension
    being [n]. *)
Lemma generate_spatial_trajectory_nd_view char_traj w (n a b : nat)
  (shape : list nat) :
  length (block_center w) = 3 ->
  nd_shape char_traj = n :: shape ->
  strip_units 2 (n :: shape) = [a; b] \/
  (strip_units 2 (n :: shape) = [b] /\ a = 1) ->
  if ((a =? n) || (a =? 1)) && ((b =? 2) || (b =? 1)) then
    exists out, result (generate_spatial_trajectory_nd char_traj w) = Ok out /\
                len out = n
  else result (generate_spatial_trajectory_nd char_traj w) = Raise ValueError.
Proof.
  intros Hbc Hshape Hview. rewrite generate_spatial_trajectory_nd_run.
  unfold result, nd_len. cbn [fst]. rewrite Hshape. cbn [obind].
  pose proof (@nd_setitem_cols_0_2_view (np_zeros2 n 3)
                (nd_scale char_traj (scale w)) a b) as Hset.
  assert (Hn : len (np_zeros2 n 3) = n).
  { unfold len, np_zeros2. cbn [rows]. apply repeat_length. }
  rewrite Hn in Hset. cbn [nd_scale nd_shape] in Hset. rewrite Hshape in Hset.
  destruct (((a =? n) || (a =? 1)) && ((b =? 2) || (b =? 1))).
  - destruct Hset as (out & Hout & Hcols & Hlen); [tauto|].
    rewrite Hout. cbn [obind]. unfold np_add_row.
    rewrite Hcols. cbn [np_zeros2 ncols]. rewrite Hbc. cbn [Nat.eqb orb].
    eexists. split; [reflexivity|]. unfold len. cbn [rows].
    rewrite length_map. unfold len in Hlen. now rewrite Hlen.
  - rewrite Hset by tauto. reflexivity.
Qed.

Lemma nth_concat_uniform (c : nat) (rs : list (list num)) :
  Forall (fun r => length r = c) rs ->
  forall i j, j < c ->
    nth (i * c + j) (concat rs) zero = nth j (nth i rs []) zero.
Proof.
  induction 1 as [|r rs Hr _ IH]; intros i j Hj.
  - cbn. destruct (i * c + j); destruct i; destruct j; reflexivity.
  - destruct i as [|i]; cbn [concat nth].
    + cbn [Nat.mul Nat.add]. apply app_nth1. lia.
    + replace (S i * c + j) with (length r + (i * c + j)) by (rewrite Hr; lia).
      rewrite app_nth2_plus. now apply IH.
Qed.

(** On a rectangular 2-D array the mapper is the one of the 2-D model. *)
Lemma generate_spatial_trajectory_nd_of_Array2 (a : Array2 num) w :
  shaped a ->
  generate_spatial_trajectory_nd (of_Array2 a) w
  = generate_spatial_trajectory a w.
Proof.
  intros Hshaped.
  rewrite generate_spatial_trajectory_nd_run, generate_spatial_trajectory_run.
  assert (E : nd_setitem_cols_0_2 (np_zeros2 (len a) 3)
                (nd_scale (of_Array2 a) (scale w))
              = setitem_cols_0_2 (np_zeros2 (len a) 3) (np_scale a (scale w)));
    [|unfold nd_len; cbn [of_Array2 nd_shape obind]; now rewrite E].
  unfold of_Array2.
  unfold nd_setitem_cols_0_2, setitem_cols_0_2.
  cbn [nd_scale nd_shape nd_data np_scale ncols rows].
  rewrite (strip_units_short [len a; ncols a]) by (cbn; lia).
  assert (Hn : len (np_zeros2 (len a) 3) = len a).
  { unfold len, np_zeros2. cbn [rows]. apply repeat_length. }
  rewrite Hn, Nat.eqb_refl. cbn [orb andb].
  destruct ((ncols a =? 2) || (ncols a =? 1)) eqn:Hc; [|reflexivity].
  f_equal. f_equal.
  set (f := fun x => (x * scale w)%num).
  assert (Hsc : Forall (fun r => length r = ncols a) (map (map f) (rows a))).
  { unfold shaped in Hshaped. rewrite Forall_forall in *. intros r Hin.
    apply in_map_iff in Hin. destruct Hin as (r0 & <- & Hin).
    rewrite length_map. now apply Hshaped. }
  rewrite concat_map.
  cbn [np_zeros2 rows].
  apply nth_error_ext. intros k. rewrite !nth_error_map.
  destruct (nth_error (rows a) k) as [row|] eqn:Hrow.
  - assert (Hk : k < len a) by (unfold len; apply nth_error_Some; congruence).
    rewrite (nth_error_combine (seq 0 (len a)) (repeat (np_zeros 3) (len a)) k
               (a := k) (b := np_zeros 3)).
    2: { rewrite nth_error_seq. apply Nat.ltb_lt in Hk. now rewrite Hk. }
    2: { now apply nth_error_repeat. }
    rewrite (nth_error_combine (repeat (np_zeros 3) (len a))
               (map (map f) (rows a)) k (a := np_zeros 3) (b := map f row)).
    2: { now apply nth_error_repeat. }
    2: { now rewrite nth_error_map, Hrow. }
    cbn [option_map fst snd].
    assert (Hi : (if len a =? 1 then 0 else k) = k).
    { destruct (len a =? 1) eqn:E1; [apply Nat.eqb_eq in E1; lia | reflexivity]. }
    assert (Hnth : nth k (map (map f) (rows a)) [] = map f row).
    { apply nth_error_nth. now rewrite nth_error_map, Hrow. }
    assert (Hl : length (map f row) = ncols a).
    { rewrite Forall_forall in Hsc. apply Hsc.
      apply (nth_error_In _ k). now rewrite nth_error_map, Hrow. }
    assert (Hcol : forall j, j < 2 ->
               nth (k * ncols a + (if ncols a =? 1 then 0 else j))
                 (concat (map (map f) (rows a))) zero
               = bc_nth (map f row) j).
    { intros j Hj. unfold bc_nth. rewrite Hl.
      apply orb_prop in Hc.
      destruct (ncols a =? 1) eqn:E1.
      - apply Nat.eqb_eq in E1.
        rewrite (nth_concat_uniform Hsc k (j := 0)) by lia. now rewrite Hnth.
      - rewrite (nth_concat_uniform Hsc k (j := j)); [now rewrite Hnth|].
        destruct Hc as [Hc|Hc]; [apply Nat.eqb_eq in Hc; lia | discriminate]. }
    rewrite Hi, (Hcol 0), (Hcol 1) by lia. reflexivity.
  - apply nth_error_None in Hrow.
    assert (E1 : nth_error (combine (seq 0 (len a)) (repeat (np_zeros 3) (len a))) k
                 = None).
    { apply nth_error_None. rewrite length_combine, length_seq, repeat_length.
      unfold len. lia. }
    assert (E2 : nth_error (combine (repeat (np_zeros 3) (len a))
                              (map (map f) (rows a))) k = None).
    { apply nth_error_None. rewrite length_combine, repeat_length, length_map.
      unfold len. lia. }
    now rewrite E1, E2.
Qed.

Lemma ik_pipeline_nd_of_Array2 (a : Array2 num) w :
  shaped a -> ik_pipeline_nd (of_Array2 a) w = ik_pipeline a w.
Proof.
  intros Hshaped. unfold ik_pipeline_nd, ik_pipeline, bind.
  now rewrite (generate_spatial_trajectory_nd_of_Array2 w Hshaped).
Qed.

End NdFacts.

(** C8, as stated, fails: an empty path is malformed, and the pipeline
    neither raises on it nor validates anything; a trajectory of one column
    is malformed too, and its rows reach the IK solver. *)
Lemma pipeline_accepts_malformed :
  malformed Synthetic.empty2 /\
  ~ fails_fast Synthetic.writer Synthetic.empty2 /\
  malformed Synthetic.column_path /\
  ~ fails_fast Synthetic.writer Synthetic.column_path /\
  length (solves (events (ik_pipeline Synthetic.column_path Synthetic.writer))) = 2.
Proof.
  split; [right; reflexivity|].
  split; [intros (e & He & _); vm_compute in He; discriminate He|].
  split; [left; vm_compute; discriminate|].
  split; [intros (e & He & _); vm_compute in He; discriminate He|].
  vm_compute. reflexivity.
Qed.

(** ** The pipeline and the shape of its input *)

(** The pipeline on a 2-D array. *)
Lemma ik_pipeline_on_2d_array
  {num : Type} `{Scalar num} (w : BaxterWriter num) (char_traj : Array2 num) :
  length (block_center w) = 3 ->
  let r := ik_pipeline char_traj w in
  final r = w /\
  (ncols char_traj <> 2 -> ncols char_traj <> 1 ->
   result r = Raise ValueError /\ events r = []) /\
  (ncols char_traj = 2 \/ ncols char_traj = 1 ->
   is_ok (result r) = true /\
   length (solves (events r)) = len char_traj).
Proof.
  intros Hbc r. unfold r, ik_pipeline, bind.
  pose proof (generate_spatial_trajectory_run char_traj w) as Hrun.
  pose proof (generate_spatial_trajectory_raises char_traj w Hbc) as Hraise.
  pose proof (generate_spatial_trajectory_returns char_traj w Hbc) as Hret.
  destruct (generate_spatial_trajectory char_traj w) as [[o s] ev].
  inversion Hrun as [[Ho Hs Hev]]. rewrite <- Ho. clear Ho.
  unfold result in Hraise, Hret. cbn [fst] in Hraise, Hret.
  destruct o as [out|e].
  - destruct (derive_ik_trajectory_post out w) as (Hf & Hres & P).
    destruct P as [_ _ Ht _ _ _ _ _ _]. cbn [events snd] in Ht.
    destruct (derive_ik_trajectory out w) as [[o' s'] ev'].
    unfold result, final, events in *. cbn in *.
    split; [exact Hf|]. split.
    + intros H2 H1. assert (Ok out = Raise ValueError) by (apply Hraise; auto).
      discriminate.
    + intros Hc. destruct (Hret Hc) as (out' & Hout & _ & Hlen & _).
      inversion Hout; subst out'. rewrite Hres. split; [reflexivity|].
      rewrite <- Hlen. unfold len. now rewrite <- Ht, length_map.
  - unfold result, final, events. cbn.
    split; [reflexivity|]. split.
    + intros H2 H1.
      assert (He : Raise e = Raise ValueError) by (apply Hraise; auto).
      now rewrite He.
    + intros Hc. destruct (Hret Hc) as (out' & Hout & _). discriminate.
Qed.

Section NdPipeline.
Context {num : Type} `{Scalar num}.
Implicit Types (w : BaxterWriter num) (char_traj : ndarray num).

Lemma ik_pipeline_nd_final char_traj w : final (ik_pipeline_nd char_traj w) = w.
Proof.
  destruct (result (generate_spatial_trajectory_nd char_traj w)) as [out|e] eqn:E.
  - now destruct (ik_pipeline_nd_solves _ _ E) as (Hf & _).
  - now rewrite (ik_pipeline_nd_raises _ _ E).
Qed.

Lemma generate_spatial_trajectory_nd_long char_traj w (n d1 d2 d3 : nat)
  (shape rest : list nat) :
  nd_shape char_traj = n :: shape ->
  strip_units 2 (n :: shape) = d1 :: d2 :: d3 :: rest ->
  result (generate_spatial_trajectory_nd char_traj w) = Raise ValueError.
Proof.
  intros Hshape Hstrip. rewrite generate_spatial_trajectory_nd_run.
  unfold result, nd_len. cbn [fst]. rewrite Hshape. cbn [obind].
  rewrite (@nd_setitem_cols_0_2_long _ _ (np_zeros2 n 3)
             (nd_scale char_traj (scale w)) d1 d2 d3 rest); [reflexivity|].
  cbn [nd_scale nd_shape]. now rewrite Hshape.
Qed.

(** What the pipeline does once the mapper has raised or returned. *)
Lemma ik_pipeline_nd_rejects char_traj w e :
  result (generate_spatial_trajectory_nd char_traj w) = Raise e ->
  result (ik_pipeline_nd char_traj w) = Raise e /\
  events (ik_pipeline_nd char_traj w) = [].
Proof. intros E. now rewrite (ik_pipeline_nd_raises _ _ E). Qed.

Lemma ik_pipeline_nd_accepts char_traj w (n : nat) :
  (exists out, result (generate_spatial_trajectory_nd char_traj w) = Ok out /\
               len out = n) ->
  is_ok (result (ik_pipeline_nd char_traj w)) = true /\
  length (solves (events (ik_pipeline_nd char_traj w))) = n.
Proof.
  intros (out & E & Hn).
  destruct (ik_pipeline_nd_solves _ _ E) as (_ & Hok & _ & Hlen).
  split; [exact Hok | now rewrite Hlen].
Qed.

End NdPipeline.

(** C8, amended.  The pipeline validates nothing itself: the only checks on
    the way are numpy's own in [generate_spatial_trajectory], [len()] and the
    broadcast of the scaled array into the two planar columns.  For an array
    of numbers of any dimension: a 0-d array raises [TypeError]; an array is
    accepted exactly when its shape is [(n, 2)], [(n, 1)], [(2,)], [(1,)] or
    [(1, ..., 1, b)] with [b] 2 or 1, and every other shape raises
    [ValueError]; whenever it raises, the kinematic model has been asked
    nothing and the writer is untouched.  An accepted input, be it an empty
    path, a single column or a 1-d array of two numbers, is not rejected:
    the pipeline returns and the IK solver is called once per row, so a 1-d
    array [(x, y)] gives twice the target of the point [(x, y)]. *)
Theorem pipeline_shape_check
  {num : Type} `{Scalar num} (w : BaxterWriter num) (char_traj : ndarray num) :
  length (block_center w) = 3 ->
  let r := ik_pipeline_nd char_traj w in
  final r = w /\
  (nd_shape char_traj = [] -> result r = Raise TypeError /\ events r = []) /\
  (forall k, nd_shape char_traj = [k] ->
     (k = 2 \/ k = 1 ->
      is_ok (result r) = true /\ length (solves (events r)) = k) /\
     (k <> 2 -> k <> 1 -> result r = Raise ValueError /\ events r = [])) /\
  (forall x y, nd_shape char_traj = [2] -> nd_data char_traj = [x; y] ->
     let target := [(x * scale w + nth 0 (block_center w) zero)%num;
                    (y * scale w + nth 1 (block_center w) zero)%num;
                    (zero + nth 2 (block_center w) zero)%num] in
     map (@sv_pnt num) (solves (events r)) = [target; target]) /\
  (forall n c, nd_shape char_traj = [n; c] ->
     (c = 2 \/ c = 1 ->
      is_ok (result r) = true /\ length (solves (events r)) = n) /\
     (c <> 2 -> c <> 1 -> result r = Raise ValueError /\ events r = [])) /\
  (forall lead a b, lead <> [] -> nd_shape char_traj = lead ++ [a; b] ->
     (forallb (Nat.eqb 1) (lead ++ [a]) = true -> b = 2 \/ b = 1 ->
      is_ok (result r) = true /\ length (solves (events r)) = 1) /\
     (forallb (Nat.eqb 1) (lead ++ [a]) = false \/ (b <> 2 /\ b <> 1) ->
      result r = Raise ValueError /\ events r = [])) /\
  (forall a : Array2 num,
     shaped a -> char_traj = of_Array2 a -> r = ik_pipeline a w) /\
  (forall a : Array2 num,
     let r2 := ik_pipeline a w in
     final r2 = w /\
     (ncols a <> 2 -> ncols a <> 1 ->
      result r2 = Raise ValueError /\ events r2 = []) /\
     (ncols a = 2 \/ ncols a = 1 ->
      is_ok (result r2) = true /\ length (solves (events r2)) = len a)).
Proof.
  intros Hbc r.
  split; [apply ik_pipeline_nd_final|].
  split.
  { intros Hshape. apply ik_pipeline_nd_rejects.
    rewrite generate_spatial_trajectory_nd_run. unfold result, nd_len.
    cbn [fst]. now rewrite Hshape. }
  split.
  { intros k Hshape.
    pose proof (@generate_spatial_trajectory_nd_view _ _ char_traj w k 1 k []
                  Hbc Hshape) as Hview.
    rewrite (strip_units_short [k]) in Hview by (cbn; lia).
    specialize (Hview (or_intror (conj eq_refl eq_refl))).
    cbn [Nat.eqb orb andb] in Hview. rewrite Bool.orb_true_r in Hview.
    cbn [andb] in Hview. split.
    - intros Hk.
      assert (E : (k =? 2) || (k =? 1) = true)
        by (destruct Hk as [-> | ->]; reflexivity).
      rewrite E in Hview. now apply ik_pipeline_nd_accepts.
    - intros H2 H1.
      assert (E : (k =? 2) || (k =? 1) = false).
      { apply Bool.orb_false_iff. split; now apply Nat.eqb_neq. }
      rewrite E in Hview. now apply ik_pipeline_nd_rejects. }
  split.
  { intros x y Hshape Hdata target.
    assert (Hout : result (generate_spatial_trajectory_nd char_traj w)
                   = Ok (mkArray2 3 [target; target])).
    { rewrite generate_spatial_trajectory_nd_run. unfold result, nd_len.
      cbn [fst]. rewrite Hshape. cbn [obind].
      unfold nd_setitem_cols_0_2, nd_scale. cbn [nd_shape nd_data].
      rewrite Hshape, Hdata. cbn. unfold np_add_row. cbn [ncols rows].
      rewrite Hbc. cbn. unfold bc_nth. rewrite Hbc. reflexivity. }
    now destruct (ik_pipeline_nd_solves _ _ Hout) as (_ & _ & Ht & _). }
  split.
  { intros n c Hshape.
    pose proof (@generate_spatial_trajectory_nd_view _ _ char_traj w n n c [c]
                  Hbc Hshape) as Hview.
    rewrite (strip_units_short [n; c]) in Hview by (cbn; lia).
    specialize (Hview (or_introl eq_refl)).
    rewrite Nat.eqb_refl in Hview. cbn [orb andb] in Hview. split.
    - intros Hc.
      assert (E : (c =? 2) || (c =? 1) = true)
        by (destruct Hc as [-> | ->]; reflexivity).
      rewrite E in Hview. now apply ik_pipeline_nd_accepts.
    - intros H2 H1.
      assert (E : (c =? 2) || (c =? 1) = false).
      { apply Bool.orb_false_iff. split; now apply Nat.eqb_neq. }
      rewrite E in Hview. now apply ik_pipeline_nd_rejects. }
  split.
  { intros lead a b Hne Hshape.
    destruct lead as [|d lead]; [contradiction|]. cbn [app] in Hshape.
    rewrite forallb_app.
    replace (forallb (Nat.eqb 1) [a]) with (1 =? a)
      by (cbn [forallb]; now rewrite Bool.andb_true_r).
    destruct (forallb (Nat.eqb 1) (d :: lead)) eqn:Hlead.
    - assert (Hd : d = 1).
      { cbn [forallb] in Hlead. apply andb_prop in Hlead.
        destruct Hlead as [Hd _]. apply Nat.eqb_eq in Hd. now subst. }
      pose proof (@generate_spatial_trajectory_nd_view _ _ char_traj w d a b
                    (lead ++ [a; b]) Hbc Hshape) as Hview.
      pose proof (strip_units_all (d :: lead) a b Hlead) as Hs.
      cbn [app] in Hs. rewrite Hs in Hview.
      specialize (Hview (or_introl eq_refl)).
      subst d. rewrite Bool.orb_diag in Hview. cbn [andb]. split.
      + intros Ha Hb. rewrite Nat.eqb_sym in Ha.
        assert (E : (b =? 2) || (b =? 1) = true)
          by (destruct Hb as [-> | ->]; reflexivity).
        rewrite Ha, E in Hview. now apply ik_pipeline_nd_accepts.
      + intros Hbad. apply ik_pipeline_nd_rejects.
        rewrite Nat.eqb_sym in Hbad.
        destruct (a =? 1); [|exact Hview].
        destruct Hbad as [Hbad | [H2 H1]]; [discriminate|].
        assert (E : (b =? 2) || (b =? 1) = false).
        { apply Bool.orb_false_iff. split; now apply Nat.eqb_neq. }
        now rewrite E in Hview.
    - cbn [andb].
      destruct (strip_units_some (d :: lead) a b Hlead)
        as (d1 & d2 & d3 & rest & Hstrip).
      cbn [app] in Hstrip.
      assert (Hraise : result (generate_spatial_trajectory_nd char_traj w)
                       = Raise ValueError)
        by exact (generate_spatial_trajectory_nd_long _ w Hshape Hstrip).
      split; [discriminate|]. intros _. now apply ik_pipeline_nd_rejects. }
  split.
  { intros a Hshaped ->. unfold r. now apply ik_pipeline_nd_of_Array2. }
  intros a. exact (ik_pipeline_on_2d_array w a Hbc).
Qed.

Lemma pipeline_shape_check_witness :
  is_ok (result (ik_pipeline_nd (mkNd [2] [Synthetic.fl 1; Synthetic.fl 2])
                   Synthetic.writer)) = true /\
  length (solves (events (ik_pipeline_nd
                            (mkNd [2] [Synthetic.fl 1; Synthetic.fl 2])
                            Synthetic.writer))) = 2.
Proof.
  destruct (pipeline_shape_check Synthetic.writer
              (mkNd [2] [Synthetic.fl 1; Synthetic.fl 2]))
    as (_ & _ & H1d & _); [reflexivity|].
  destruct (H1d 2 eq_refl) as (Hok & _).
  apply Hok. now left.
Defined.

(** ** iLQR refiner *)

Section RefinerFacts.
Context {num : Type} `{Scalar num}.
Variable synthesize_trajectory :
  PyLQR_TrajCtrl num -> CostFn num -> nat -> nat ->
  list num -> Array2 num -> nat -> Outcome (Array2 num).
Implicit Types (w : BaxterWriter num) (spatial_traj : Array2 num).

(** The method, stage by stage. *)
Lemma derive_ilqr_trajectory_run spatial_traj w :
  derive_ilqr_trajectory synthesize_trajectory spatial_traj w =
  let dt := dec 1 100 in
  let lqr_traj_ctrl := mkPyLQR_TrajCtrl (dec 1 100) dt in
  let cost := traj_cost w lqr_traj_ctrl spatial_traj in
  let r := derive_ik_trajectory spatial_traj w in
  let built := BuildSolver cost 7 100 :: events r in
  match result r with
  | Raise e => (Raise e, final r, built)
  | Ok q_ik =>
      match getitem q_ik 0 with
      | Raise e => (Raise e, final r, built)
      | Ok x0 =>
          match np_vstack (np_zeros 7) (np_div_scalar (np_diff q_ik) dt) with
          | Raise e => (Raise e, final r, built)
          | Ok q_dot_ik =>
              let u_array_init := np_div_scalar (np_diff q_dot_ik) dt in
              (match synthesize_trajectory lqr_traj_ctrl cost 7 100
                       x0 u_array_init 25 with
               | Ok syn_traj => Ok (slice_cols 0 7 syn_traj)
               | Raise e => Raise e
               end, final r, built ++ [Synthesize x0 u_array_init 25])
          end
      end
  end.
Proof.
  unfold derive_ilqr_trajectory.
  generalize (derive_ik_trajectory spatial_traj). intros m.
  unfold bind, get, emit, lift, ret, result, final, events. cbn.
  destruct (m w) as [[[q_ik|e] s] ev]; cbn; [|reflexivity].
  destruct (getitem q_ik 0) as [x0|e]; cbn; [|now rewrite app_nil_r].
  destruct (np_vstack _ _) as [q_dot_ik|e]; cbn; [|now rewrite !app_nil_r].
  destruct (synthesize_trajectory _ _ _ _ _ _ _) as [syn|e]; cbn;
    now rewrite ?app_nil_r.
Qed.

Lemma derive_ilqr_trajectory_builds spatial_traj w :
  builds (events (derive_ilqr_trajectory synthesize_trajectory spatial_traj w))
  = [(7, 100)].
Proof.
  rewrite derive_ilqr_trajectory_run. cbn zeta.
  destruct (derive_ik_trajectory_post spatial_traj w) as (_ & _ & P).
  destruct P as [_ _ _ _ _ _ _ Hb _]. cbn [events snd] in Hb.
  revert Hb. generalize (derive_ik_trajectory spatial_traj w). intros rik Hb.
  unfold events in *.
  destruct (result rik); [|cbn; now rewrite Hb].
  destruct (getitem _ _); [|cbn; now rewrite Hb].
  destruct (np_vstack _ _); cbn; [|now rewrite Hb].
  now rewrite builds_app, Hb.
Qed.

End RefinerFacts.

(** C3, as stated, fails: on a path of three points the solver is built
    with a horizon that is not three. *)
Lemma derive_ilqr_trajectory_horizon_differs :
  exists n_dims T,
    In (n_dims, T)
      (builds (events (derive_ilqr_trajectory Synthetic.solver Synthetic.path3
                         Synthetic.writer))) /\
    T <> len Synthetic.path3.
Proof.
  exists 7, 100. split; [vm_compute; now left | vm_compute; discriminate].
Qed.

(** C3, amended.  [derive_ilqr_trajectory] builds the solver once, before
    the IK solves, with [n_dims = 7] (the joint positions; the solver's
    state carries the seven velocities too) and the fixed horizon
    [T = 100], whatever the length of the spatial trajectory; the horizon
    is the number of points exactly when the trajectory has 100 points. *)
Theorem derive_ilqr_trajectory_fixed_horizon
  {num : Type} `{Scalar num}
  (synthesize_trajectory :
     PyLQR_TrajCtrl num -> CostFn num -> nat -> nat ->
     list num -> Array2 num -> nat -> Outcome (Array2 num))
  (w : BaxterWriter num) (spatial_traj : Array2 num) :
  let r := derive_ilqr_trajectory synthesize_trajectory spatial_traj w in
  builds (events r) = [(7, 100)] /\
  (exists cost rest, events r = BuildSolver cost 7 100 :: rest) /\
  (forall n_dims T, In (n_dims, T) (builds (events r)) ->
                    n_dims = 7 /\ T = 100 /\
                    (T = len spatial_traj <-> len spatial_traj = 100)).
Proof.
  intros r. pose proof (derive_ilqr_trajectory_builds synthesize_trajectory
                          spatial_traj w) as Hb. fold r in Hb.
  split; [exact Hb|]. split.
  - unfold r. rewrite derive_ilqr_trajectory_run. cbn zeta.
    destruct (result _); [|eexists; eexists; reflexivity].
    destruct (getitem _ _); [|eexists; eexists; reflexivity].
    destruct (np_vstack _ _); eexists; eexists; reflexivity.
  - intros n_dims T Hin. rewrite Hb in Hin.
    destruct Hin as [Heq|[]]. inversion Heq; subst.
    repeat split; intros; congruence.
Qed.



(** ** Codec *)

Section CodecFacts.
Context {num : Type} `{Scalar num}.
Implicit Types (w : BaxterWriter num).

Lemma length_np_linspace (start stop : num) (n : nat) :
  length (np_linspace start stop n) = n.
Proof.
  destruct n as [|[|m]]; [reflexivity | reflexivity |].
  unfold np_linspace. rewrite length_app, length_map, length_seq. cbn. lia.
Qed.

Lemma len_np_T (a : Array2 num) : len (np_T a) = ncols a.
Proof. unfold len, np_T. cbn. now rewrite length_map, length_seq. Qed.

Lemma nth_error_rows_np_T (a : Array2 num) (t : nat) :
  t < ncols a -> nth_error (rows (np_T a)) t = Some (column t a).
Proof.
  intros Ht. unfold np_T. cbn. rewrite nth_error_map.
  rewrite nth_error_seq. apply Nat.ltb_lt in Ht. now rewrite Ht.
Qed.

(** The series evaluated by the decoder, one per joint. *)
Lemma derive_jnt_traj_from_fa_parms_run (fa_parms : list (list num)) w :
  derive_jnt_traj_from_fa_parms fa_parms w =
  (Ok (np_T (np_array
               (map (fun pf => fa_evaluate (snd pf) (eval_z w) (fst pf))
                  (combine fa_parms (func_approxs w))))), w, []).
Proof. reflexivity. Qed.

Lemma derive_fa_parms_from_jnt_traj_run (q_array : Array2 num) w :
  derive_fa_parms_from_jnt_traj q_array w =
  (Ok (map (fun qf => fa_fit (snd qf)
                        (np_linspace (s_of_Z 0) (s_of_Z 1) (len q_array))
                        (fst qf) false)
         (combine (rows (np_T q_array)) (func_approxs w))), w, []).
Proof. reflexivity. Qed.

(** The decoded trajectory has one row per point of the evaluation axis. *)
Lemma len_decoded (fa_parms : list (list num)) w :
  fa_parms <> [] -> func_approxs w <> [] ->
  (forall fa theta, In fa (func_approxs w) ->
                    length (fa_evaluate fa (eval_z w) theta) = length (eval_z w)) ->
  len (np_T (np_array
               (map (fun pf => fa_evaluate (snd pf) (eval_z w) (fst pf))
                  (combine fa_parms (func_approxs w)))))
  = length (eval_z w).
Proof.
  intros Hp Hf Hev. rewrite len_np_T.
  destruct fa_parms as [|theta fa_parms]; [contradiction|].
  destruct (func_approxs w) as [|fa fas]; [contradiction|].
  cbn. apply Hev. now left.
Qed.

End CodecFacts.

Section ConstructedWriter.
Context {num : Type} `{Scalar num}.
Variable path_prefix : string.
Variable baxter_dynamics : string -> string -> RobotDynamics num.
Variable PyRBF_FunctionApproximator :
  string -> nat -> bool -> FunctionApproximator num.

(** What [__init__] sets, whatever the object held before. *)
Lemma init_sets_every_field (b : BaxterWriter num) :
  let urdf := os_path_join path_prefix "urdf/baxter.urdf" in
  let rd := baxter_dynamics "right" urdf in
  let seed := [dec 230 100000; dec (-77274) 100000; dec 95529 100000;
               dec 153091 100000; dec (-91924) 100000; dec 55914 100000;
               dec (-9664) 100000] in
  final (init path_prefix baxter_dynamics PyRBF_FunctionApproximator b) =
  mkBaxterWriter urdf rd
    (map (fun _ : nat => PyRBF_FunctionApproximator "sigmoid" 20 true)
       (seq 0 (num_jnts rd)))
    (np_linspace (s_of_Z 0) (s_of_Z 1) 100)
    [dec 844 1000; dec (-357) 1000; dec 257 1000]
    (dec 9 100 / (dec 15 10 + dec 15 10))%num
    seed (forward_position_kinematics rd seed).
Proof. reflexivity. Qed.

End ConstructedWriter.

(** C9, as stated, fails: the writer's axis has 100 points, yet the empty
    parameter set decodes to a trajectory of no row, and it is what encoding
    gives for a trajectory without a joint column, such as the array
    [derive_ik_trajectory] returns when no target was reachable, or one of
    three points and no column. *)
Lemma decode_of_nothing_has_no_row :
  length (eval_z Synthetic.writer) = 100 /\
  (exists jnt_traj,
      result (derive_jnt_traj_from_fa_parms [] Synthetic.writer) = Ok jnt_traj /\
      len jnt_traj = 0 /\ len jnt_traj <> 100) /\
  (exists q_array fa_parms jnt_traj,
      result (derive_ik_trajectory SyntheticEdge.unreachable Synthetic.writer)
      = Ok q_array /\
      result (derive_fa_parms_from_jnt_traj q_array Synthetic.writer)
      = Ok fa_parms /\
      result (derive_jnt_traj_from_fa_parms fa_parms Synthetic.writer)
      = Ok jnt_traj /\
      len jnt_traj = 0) /\
  (exists fa_parms jnt_traj,
      len (mkArray2 0 [[]; []; []] : Array2 PrimFloat.float) = 3 /\
      result (derive_fa_parms_from_jnt_traj (mkArray2 0 [[]; []; []])
                Synthetic.writer) = Ok fa_parms /\
      result (derive_jnt_traj_from_fa_parms fa_parms Synthetic.writer)
      = Ok jnt_traj /\
      len jnt_traj = 0).
Proof.
  split; [vm_compute; reflexivity|].
  split.
  { eexists. split; [reflexivity|]. split; [reflexivity | discriminate]. }
  split.
  { exists (np_array []), [], (np_T (np_array [])).
    split; [vm_compute; reflexivity|]. repeat split; reflexivity. }
  exists [], (np_T (np_array [])). repeat split; reflexivity.
Qed.

(** C9, amended.  On a writer built by the constructor the evaluation axis
    has 100 points, and [derive_jnt_traj_from_fa_parms], which takes no
    resolution, returns a trajectory of exactly 100 rows for every parameter
    set that holds at least one vector, whatever the length of the
    trajectory that was fitted; the arm has at least one joint.  So encoding
    a joint trajectory of [N] rows and at least one column and decoding the
    result gives 100 rows for every [N].  The empty parameter set, which
    encoding returns for a trajectory without a column, decodes to a
    trajectory of no row.  The approximator is taken to answer with one
    value per point of the axis it is given. *)
Theorem decoded_trajectory_has_100_rows
  {num : Type} `{Scalar num} (path_prefix : string)
  (baxter_dynamics : string -> string -> RobotDynamics num)
  (PyRBF_FunctionApproximator : string -> nat -> bool -> FunctionApproximator num) :
  (forall rbf_type K normalize z theta,
      length (fa_evaluate (PyRBF_FunctionApproximator rbf_type K normalize) z theta)
      = length z) ->
  0 < num_jnts (baxter_dynamics "right"%string
                  (os_path_join path_prefix "urdf/baxter.urdf"%string)) ->
  let w := new_BaxterWriter path_prefix baxter_dynamics PyRBF_FunctionApproximator in
  length (eval_z w) = 100 /\
  (forall fa_parms : list (list num),
      fa_parms <> [] ->
      let r := derive_jnt_traj_from_fa_parms fa_parms w in
      final r = w /\
      exists jnt_traj, result r = Ok jnt_traj /\ len jnt_traj = 100) /\
  (forall (N : nat) (q_array : Array2 num),
      len q_array = N -> 0 < ncols q_array ->
      let r := derive_fa_parms_from_jnt_traj q_array w in
      final r = w /\
      exists fa_parms jnt_traj,
        result r = Ok fa_parms /\
        result (derive_jnt_traj_from_fa_parms fa_parms (final r)) = Ok jnt_traj /\
        len jnt_traj = 100) /\
  (exists jnt_traj,
      result (derive_jnt_traj_from_fa_parms [] w) = Ok jnt_traj /\
      len jnt_traj = 0) /\
  (forall q_array : Array2 num,
      ncols q_array = 0 ->
      result (derive_fa_parms_from_jnt_traj q_array w) = Ok []).
Proof.
  intros Hev Hjnts w.
  assert (Hz : length (eval_z w) = 100).
  { unfold w, new_BaxterWriter. rewrite init_sets_every_field. cbn [eval_z].
    apply length_np_linspace. }
  assert (Hfas : func_approxs w <> []).
  { unfold w, new_BaxterWriter. rewrite init_sets_every_field. cbn [func_approxs].
    destruct (num_jnts _); [lia|]. discriminate. }
  assert (Hcontract : forall fa theta, In fa (func_approxs w) ->
            length (fa_evaluate fa (eval_z w) theta) = length (eval_z w)).
  { intros fa theta Hin. unfold w, new_BaxterWriter in Hin.
    rewrite init_sets_every_field in Hin. cbn [func_approxs] in Hin.
    apply in_map_iff in Hin. destruct Hin as (? & <- & _). apply Hev. }
  split; [exact Hz|]. split.
  { intros fa_parms Hp r. unfold r. rewrite derive_jnt_traj_from_fa_parms_run.
    split; [reflexivity|]. eexists. split; [reflexivity|].
    now rewrite len_decoded. }
  split.
  { intros N q_array HN Hc r. unfold r.
    rewrite derive_fa_parms_from_jnt_traj_run. split; [reflexivity|].
    eexists. eexists. split; [reflexivity|]. cbn [final fst snd].
    rewrite derive_jnt_traj_from_fa_parms_run. split; [reflexivity|].
    rewrite len_decoded; auto.
    destruct (func_approxs w) as [|fa fas]; [contradiction|].
    unfold np_T. cbn [rows]. destruct (ncols q_array); [lia|]. discriminate. }
  split.
  { rewrite derive_jnt_traj_from_fa_parms_run. eexists. split; reflexivity. }
  intros q_array Hc. rewrite derive_fa_parms_from_jnt_traj_run.
  unfold result, np_T. cbn [fst rows]. now rewrite Hc.
Qed.

Lemma decoded_trajectory_has_100_rows_witness :
  exists jnt_traj,
    result (derive_jnt_traj_from_fa_parms Synthetic.parms7 Synthetic.writer)
    = Ok jnt_traj /\
    len jnt_traj = 100.
Proof.
  destruct (decoded_trajectory_has_100_rows "/opt/vae_assoc"%string
              Synthetic.dynamics Synthetic.approximator) as (_ & Hdec & _).
  - intros rbf_type K normalize z theta. apply length_map.
  - cbn. lia.
  - destruct (Hdec Synthetic.parms7) as (_ & Hrows); [discriminate|].
    exact Hrows.
Defined.
(** ** The stage cost *)

Section CostFacts.
Context {num : Type} `{Scalar num}.

(** The cost on well-shaped arguments, in any arithmetic. *)
Lemma traj_cost_run (w : BaxterWriter num) (lqr_traj_ctrl : PyLQR_TrajCtrl num)
  (spatial_traj : Array2 num) (x u : list num) (t : nat)
  (p0 p1 p2 g0 g1 g2 : num) (orientation : list num) :
  forward_position_kinematics (robot_dynamics w) (slice 0 7 x)
  = p0 :: p1 :: p2 :: orientation ->
  nth_error (rows spatial_traj) t = Some [g0; g1; g2] ->
  ncols (inertia (robot_dynamics w) (slice 0 7 x)) = length u ->
  traj_cost w lqr_traj_ctrl spatial_traj x u t tt =
  Ok (sq (np_norm [((p0 - g0) * s_of_Z 10)%num; ((p1 - g1) * s_of_Z 10)%num;
                   ((p2 - g2) * s_of_Z 50)%num])
      + R_ lqr_traj_ctrl
        * sq (np_norm (map (fun row => dot row u)
                         (rows (inertia (robot_dynamics w) (slice 0 7 x))))))%num.
Proof.
  intros Hfk Htarget Hshape.
  unfold traj_cost, getitem, np_dot.
  rewrite Hfk, Htarget, Hshape, Nat.eqb_refl.
  reflexivity.
Qed.

Lemma np_binop_not_IndexError (f : num -> num -> num) (a b : list num) :
  np_binop f a b <> Raise IndexError.
Proof. unfold np_binop. destruct (broadcast _ _); discriminate. Qed.

Lemma np_dot_not_IndexError (m : Array2 num) (u : list num) :
  np_dot m u <> Raise IndexError.
Proof. unfold np_dot. destruct (_ =? _); discriminate. Qed.

(** The cost raises [IndexError] exactly beyond the end of the path. *)
Lemma traj_cost_IndexError (w : BaxterWriter num)
  (lqr_traj_ctrl : PyLQR_TrajCtrl num) (spatial_traj : Array2 num)
  (x u : list num) (t : nat) (aux : unit) :
  traj_cost w lqr_traj_ctrl spatial_traj x u t aux = Raise IndexError
  <-> len spatial_traj <= t.
Proof.
  unfold traj_cost, getitem, len.
  destruct (nth_error (rows spatial_traj) t) as [target|] eqn:Ht; cbn [obind].
  - assert (Hlt : t < length (rows spatial_traj))
      by (apply nth_error_Some; congruence).
    split; [|lia]. intros Hraise. exfalso.
    destruct (np_binop s_sub _ target) as [err|e] eqn:E1; cbn [obind] in Hraise.
    + destruct (np_binop s_mul err _) as [werr|e] eqn:E2; cbn [obind] in Hraise.
      * destruct (np_dot _ u) as [tau|e] eqn:E3; cbn [obind] in Hraise;
          [discriminate|].
        injection Hraise as ->. exact (np_dot_not_IndexError _ _ E3).
      * injection Hraise as ->. exact (np_binop_not_IndexError _ _ _ E2).
    + injection Hraise as ->. exact (np_binop_not_IndexError _ _ _ E1).
  - split; [|reflexivity]. intros _. now apply nth_error_None.
Qed.

(** A cost that is returned is the sum of a square and of [R_] times a
    square. *)
Lemma traj_cost_value (w : BaxterWriter num)
  (lqr_traj_ctrl : PyLQR_TrajCtrl num) (spatial_traj : Array2 num)
  (x u : list num) (t : nat) (aux : unit) (c : num) :
  traj_cost w lqr_traj_ctrl spatial_traj x u t aux = Ok c ->
  exists werr tau,
    c = (sq (np_norm werr) + R_ lqr_traj_ctrl * sq (np_norm tau))%num.
Proof.
  unfold traj_cost.
  destruct (getitem spatial_traj t) as [target|e]; cbn [obind]; [|discriminate].
  destruct (np_binop s_sub _ target) as [err|e]; cbn [obind]; [|discriminate].
  destruct (np_binop s_mul err _) as [werr|e]; cbn [obind]; [|discriminate].
  destruct (np_dot _ u) as [tau|e]; cbn [obind]; [|discriminate].
  intros [= <-]. now exists werr, tau.
Qed.

(** The points of a time axis, in any arithmetic. *)
Lemma np_linspace_nth (start stop : num) (n : nat) :
  2 <= n ->
  (forall i, S i < n ->
     nth_error (np_linspace start stop n) i
     = Some (s_of_Z (Z.of_nat i)
             * ((stop - start) / s_of_Z (Z.of_nat (n - 1))) + start)%num) /\
  nth_error (np_linspace start stop n) (n - 1) = Some stop.
Proof.
  intros Hn. destruct n as [|[|m]]; try lia.
  cbn [np_linspace]. replace (S (S m) - 1) with (S m) by lia.
  set (f := fun i : nat => _).
  assert (Hl : length (map f (seq 0 (S m))) = S m)
    by now rewrite length_map, length_seq.
  split.
  - intros i Hi. rewrite nth_error_app1 by lia.
    rewrite nth_error_map, nth_error_seq.
    assert (E : (i <? S m) = true) by (apply Nat.ltb_lt; lia).
    rewrite E. reflexivity.
  - rewrite nth_error_app2 by lia. rewrite Hl, Nat.sub_diag. reflexivity.
Qed.

End CostFacts.

(** ** Over the reals: the time axis and the sign of the cost *)

Section RealFacts.
Local Open Scope R_scope.

Lemma np_linspace_unit_interval (n : nat) :
  Forall (fun t : R => 0 <= t <= 1) (np_linspace (s_of_Z 0) (s_of_Z 1) n).
Proof.
  destruct n as [|[|m]]; cbn [np_linspace s_of_Z R_Scalar].
  - constructor.
  - constructor; [cbn [s_mul s_add s_sub R_Scalar]; lra | constructor].
  - apply Forall_app. split; [|constructor; [lra | constructor]].
    apply Forall_forall. intros t Hin.
    apply in_map_iff in Hin. destruct Hin as (i & <- & Hi).
    apply in_seq in Hi. cbn [s_mul s_add s_sub s_div R_Scalar].
    assert (Hi0 : 0 <= IZR (Z.of_nat i)) by (apply IZR_le; lia).
    assert (Hik : IZR (Z.of_nat i) <= IZR (Z.of_nat (S m))) by (apply IZR_le; lia).
    assert (Hk : 0 < IZR (Z.of_nat (S m))) by (apply IZR_lt; lia).
    set (a := IZR (Z.of_nat i)) in *. set (b := IZR (Z.of_nat (S m))) in *.
    assert (Hinv : 0 < / b) by now apply Rinv_0_lt_compat.
    assert (Hone : b * / b = 1) by (apply Rinv_r; lra).
    unfold Rdiv. split; nra.
Qed.

(** In exact arithmetic the points of the axis are evenly spaced. *)
Lemma np_linspace_evenly_spaced (n i : nat) :
  (2 <= n)%nat -> (i < n)%nat ->
  nth_error (np_linspace (s_of_Z 0) (s_of_Z 1) n) i
  = Some (IZR (Z.of_nat i) / IZR (Z.of_nat (n - 1))).
Proof.
  intros Hn Hi.
  destruct (np_linspace_nth (s_of_Z 0 : R) (s_of_Z 1) Hn) as [Hin Hlast].
  assert (Hk : 0 < IZR (Z.of_nat (n - 1))) by (apply IZR_lt; lia).
  destruct (Nat.eq_dec i (n - 1)) as [-> | Hne].
  - rewrite Hlast. cbn [s_of_Z R_Scalar]. f_equal. field. lra.
  - rewrite Hin by lia. cbn [s_of_Z s_mul s_add s_sub s_div R_Scalar].
    f_equal. field. lra.
Qed.

Lemma sum_sq_from (v : list R) :
  forall acc : R,
    fold_left (fun a x => a + x * x) v acc = acc + sum_sq v.
Proof.
  unfold sum_sq. cbn [s_add s_mul R_Scalar zero s_of_Z].
  induction v as [|x v IH]; intros acc; cbn [fold_left].
  - lra.
  - rewrite (IH (acc + x * x)), (IH (0 + x * x)). lra.
Qed.

Lemma sum_sq_cons (x : R) (v : list R) : sum_sq (x :: v) = x * x + sum_sq v.
Proof.
  unfold sum_sq at 1. cbn [fold_left s_add s_mul R_Scalar zero s_of_Z].
  rewrite sum_sq_from. lra.
Qed.

Lemma sum_sq_nil : sum_sq (@nil R) = 0.
Proof. reflexivity. Qed.

Lemma sum_sq_nonneg (v : list R) : 0 <= sum_sq v.
Proof.
  induction v as [|x v IH]; [rewrite sum_sq_nil; lra|].
  rewrite sum_sq_cons. nra.
Qed.

Lemma sum_sq_zero (v : list R) : sum_sq v = 0 -> Forall (fun y => y = 0) v.
Proof.
  induction v as [|x v IH]; intros Hs; [constructor|].
  rewrite sum_sq_cons in Hs. pose proof (sum_sq_nonneg v) as Hv.
  constructor; [nra | apply IH; nra].
Qed.

(** The square of the norm is the sum of squares. *)
Lemma sq_np_norm (v : list R) : sq (np_norm v) = sum_sq v.
Proof.
  unfold sq, np_norm. cbn [s_mul s_sqrt R_Scalar].
  apply sqrt_sqrt, sum_sq_nonneg.
Qed.

(** The cost in exact arithmetic. *)
Lemma traj_cost_exact
  (w : BaxterWriter R) (spatial_traj : Array2 R) (x u : list R) (t : nat)
  (p0 p1 p2 g0 g1 g2 : R) (orientation : list R) :
  forward_position_kinematics (robot_dynamics w) (slice 0 7 x)
  = p0 :: p1 :: p2 :: orientation ->
  nth_error (rows spatial_traj) t = Some [g0; g1; g2] ->
  ncols (inertia (robot_dynamics w) (slice 0 7 x)) = length u ->
  let jnt_mass := inertia (robot_dynamics w) (slice 0 7 x) in
  let tau := map (fun row => dot row u) (rows jnt_mass) in
  let lqr_traj_ctrl := mkPyLQR_TrajCtrl (dec 1 100) (dec 1 100) in
  exists c : R,
    traj_cost w lqr_traj_ctrl spatial_traj x u t tt = Ok c /\
    (c = ((p0 - g0) * 10) * ((p0 - g0) * 10)
         + ((p1 - g1) * 10) * ((p1 - g1) * 10)
         + ((p2 - g2) * 50) * ((p2 - g2) * 50)
         + 1 / 100 * sum_sq tau)%R /\
    (0 <= c)%R /\
    (c = 0%R -> p0 = g0 /\ p1 = g1 /\ p2 = g2 /\ Forall (fun y => y = 0%R) tau).
Proof.
  intros Hfk Htarget Hshape jnt_mass tau lqr_traj_ctrl.
  assert (Hcost :
    traj_cost w lqr_traj_ctrl spatial_traj x u t tt =
    Ok (sq (np_norm [(p0 - g0) * 10; (p1 - g1) * 10; (p2 - g2) * 50])
        + 1 / 100 * sq (np_norm tau))%R).
  { now rewrite (traj_cost_run w lqr_traj_ctrl spatial_traj x u t
                   Hfk Htarget Hshape). }
  rewrite Hcost, !sq_np_norm.
  pose proof (sum_sq_nonneg tau) as Htau.
  rewrite !sum_sq_cons, sum_sq_nil.
  pose proof (Rle_0_sqr ((p0 - g0) * 10)) as H0.
  pose proof (Rle_0_sqr ((p1 - g1) * 10)) as H1.
  pose proof (Rle_0_sqr ((p2 - g2) * 50)) as H2.
  unfold Rsqr in H0, H1, H2.
  eexists. split; [reflexivity|].
  split; [lra|]. split; [lra|].
  intros Hzero.
  assert (Hs : sum_sq tau = 0%R) by lra.
  assert (E0 : (((p0 - g0) * 10) * ((p0 - g0) * 10) = 0)%R) by lra.
  assert (E1 : (((p1 - g1) * 10) * ((p1 - g1) * 10) = 0)%R) by lra.
  assert (E2 : (((p2 - g2) * 50) * ((p2 - g2) * 50) = 0)%R) by lra.
  apply Rsqr_0_uniq in E0, E1, E2.
  repeat split; try lra. now apply sum_sq_zero.
Qed.

End RealFacts.

(** ** In binary64: the sign of the cost and the time axis *)

Section FloatFacts.

Lemma binary_round_aux_sign (prec emax : Z) (s : bool) (mx ex : Z)
  (lx : SpecFloat.location) :
  match SpecFloat.binary_round_aux prec emax s mx ex lx with
  | SpecFloat.S754_nan => True
  | SpecFloat.S754_zero s' => s' = s
  | SpecFloat.S754_infinity s' => s' = s
  | SpecFloat.S754_finite s' _ _ => s' = s
  end.
Proof.
  unfold SpecFloat.binary_round_aux.
  destruct (SpecFloat.shr_fexp prec emax mx ex lx) as [mrs' e'].
  destruct (SpecFloat.shr_fexp prec emax _ e' SpecFloat.loc_Exact) as [mrs'' e''].
  destruct (SpecFloat.shr_m mrs''); [reflexivity | | exact I].
  destruct (_ <=? _)%Z; reflexivity.
Qed.

Lemma binary_round_aux_not_negative (prec emax mx ex : Z)
  (lx : SpecFloat.location) :
  sf_not_negative (SpecFloat.binary_round_aux prec emax false mx ex lx).
Proof.
  pose proof (binary_round_aux_sign prec emax false mx ex lx) as Hs.
  now destruct (SpecFloat.binary_round_aux prec emax false mx ex lx).
Qed.

Lemma SFmul_self_not_negative (prec emax : Z) (x : SpecFloat.spec_float) :
  sf_not_negative (SpecFloat.SFmul prec emax x x).
Proof.
  destruct x as [s|s| |s m e]; cbn [SpecFloat.SFmul sf_not_negative];
    try exact I; try (now destruct s).
  replace (xorb s s) with false by now destruct s.
  apply binary_round_aux_not_negative.
Qed.

Lemma SFmul_not_negative (prec emax : Z) (x y : SpecFloat.spec_float) :
  sf_not_negative x -> sf_not_negative y ->
  sf_not_negative (SpecFloat.SFmul prec emax x y).
Proof.
  destruct x as [sx|sx| |sx mx ex]; destruct y as [sy|sy| |sy my ey];
    cbn [SpecFloat.SFmul sf_not_negative]; intros Hx Hy; subst;
    try exact I; try reflexivity.
  apply binary_round_aux_not_negative.
Qed.

Lemma SFadd_not_negative (prec emax : Z) (x y : SpecFloat.spec_float) :
  sf_not_negative x -> sf_not_negative y ->
  sf_not_negative (SpecFloat.SFadd prec emax x y).
Proof.
  destruct x as [sx|sx| |sx mx ex]; destruct y as [sy|sy| |sy my ey];
    cbn [SpecFloat.SFadd sf_not_negative]; intros Hx Hy; subst;
    try exact I; try reflexivity.
  cbn [SpecFloat.cond_Zopp]. cbn [Z.add SpecFloat.binary_normalize].
  unfold SpecFloat.binary_round.
  destruct (SpecFloat.shl_align _ _ _) as [mz ez].
  apply binary_round_aux_not_negative.
Qed.

Lemma SFsqrt_not_negative (prec emax : Z) (x : SpecFloat.spec_float) :
  sf_not_negative x -> sf_not_negative (SpecFloat.SFsqrt prec emax x).
Proof.
  destruct x as [s|s| |s m e]; cbn [SpecFloat.SFsqrt sf_not_negative];
    intros Hx; subst; try exact I; try reflexivity.
  destruct (SpecFloat.SFsqrt_core_binary prec emax (Z.pos m) e) as [[mz ez] lz].
  apply binary_round_aux_not_negative.
Qed.

Lemma add_not_negative (x y : PrimFloat.float) :
  not_negative x -> not_negative y -> not_negative (PrimFloat.add x y).
Proof.
  unfold not_negative. rewrite FloatAxioms.add_spec. apply SFadd_not_negative.
Qed.

Lemma mul_not_negative (x y : PrimFloat.float) :
  not_negative x -> not_negative y -> not_negative (PrimFloat.mul x y).
Proof.
  unfold not_negative. rewrite FloatAxioms.mul_spec. apply SFmul_not_negative.
Qed.

Lemma sq_not_negative (x : PrimFloat.float) : not_negative (sq x).
Proof.
  unfold not_negative, sq. cbn [s_mul float_Scalar].
  rewrite FloatAxioms.mul_spec. apply SFmul_self_not_negative.
Qed.

Lemma zero_not_negative : not_negative (s_of_Z 0).
Proof. vm_compute. reflexivity. Qed.

Lemma hundredth_not_negative : not_negative (dec 1 100).
Proof. vm_compute. reflexivity. Qed.

(** What is not negative is not below zero. *)
Lemma not_negative_ltb (x : PrimFloat.float) :
  not_negative x -> PrimFloat.ltb x (s_of_Z 0) = false.
Proof.
  unfold not_negative. rewrite FloatAxioms.ltb_spec.
  replace (FloatOps.Prim2SF (s_of_Z 0)) with (SpecFloat.S754_zero false)
    by (vm_compute; reflexivity).
  destruct (FloatOps.Prim2SF x) as [s|s| |s m e];
    cbn [sf_not_negative]; intros Hx; subst; reflexivity.
Qed.

(** The cost of the refiner, returned in binary64, is not below zero. *)
Lemma traj_cost_not_negative (w : BaxterWriter PrimFloat.float)
  (spatial_traj : Array2 PrimFloat.float) (x u : list PrimFloat.float)
  (t : nat) (aux : unit) (c : PrimFloat.float) :
  traj_cost w (mkPyLQR_TrajCtrl (dec 1 100) (dec 1 100)) spatial_traj x u t aux
  = Ok c ->
  not_negative c.
Proof.
  intros Hc. destruct (traj_cost_value _ _ _ _ _ _ _ Hc) as (werr & tau & ->).
  cbn [R_ s_add s_mul float_Scalar].
  apply add_not_negative; [apply sq_not_negative|].
  apply mul_not_negative; [apply hundredth_not_negative | apply sq_not_negative].
Qed.

(** The time axes of up to 500 points stay in the unit interval. *)
Lemma np_linspace_unit_interval_binary64 (n : nat) :
  n <= 500 ->
  Forall (fun t => PrimFloat.leb (s_of_Z 0) t = true /\
                   PrimFloat.leb t (s_of_Z 1) = true)
    (np_linspace (s_of_Z 0) (s_of_Z 1) n : list PrimFloat.float).
Proof.
  intros Hn.
  assert (Hall : forallb (fun n =>
                    forallb (fun t => PrimFloat.leb (s_of_Z 0) t
                                      && PrimFloat.leb t (s_of_Z 1))
                      (np_linspace (s_of_Z 0) (s_of_Z 1) n : list PrimFloat.float))
                   (seq 0 501) = true)
    by (vm_compute; reflexivity).
  rewrite forallb_forall in Hall.
  assert (Hin : In n (seq 0 501)) by (apply in_seq; lia).
  specialize (Hall n Hin). rewrite forallb_forall in Hall.
  apply Forall_forall. intros t Ht. specialize (Hall t Ht).
  now apply andb_prop in Hall.
Qed.

End FloatFacts.




(** ** The codec *)

Section CodecFacts.
Context {num : Type} `{Scalar num}.

Lemma length_fitted (w : BaxterWriter num) (q_array : Array2 num) (K : nat) :
  (forall fa z y, In fa (func_approxs w) -> length (fa_fit fa z y false) = K) ->
  Forall (fun theta => length theta = K)
    (map (fun qf => fa_fit (snd qf)
                      (np_linspace (s_of_Z 0) (s_of_Z 1) (len q_array))
                      (fst qf) false)
       (combine (rows (np_T q_array)) (func_approxs w))).
Proof.
  intros Hfit. apply Forall_forall. intros theta Hin.
  apply in_map_iff in Hin. destruct Hin as ([q fa] & <- & Hin).
  apply in_combine_r in Hin. now apply Hfit.
Qed.

Lemma len_decoded_nothing (w : BaxterWriter num) (fa_parms : list (list num)) :
  fa_parms = [] \/ func_approxs w = [] ->
  len (np_T (np_array (map (fun pf => fa_evaluate (snd pf) (eval_z w) (fst pf))
                         (combine fa_parms (func_approxs w))))) = 0.
Proof.
  intros [-> | ->]; [reflexivity|]. now rewrite combine_nil.
Qed.

End CodecFacts.

(** C7, as stated, fails: the writer evaluates on an axis of
    [resolution = 100] evenly spaced points and has seven approximators, yet
    for the trajectory [derive_ik_trajectory] returns when no target was
    reachable the encoder fits no parameter vector, not one per joint, and
    decoding what it returned gives a trajectory of length 0, not
    [resolution]. *)
Lemma codec_of_empty_trajectory_has_no_row :
  exists (resolution : nat) (q_array : Array2 PrimFloat.float)
         (fa_parms : list (list PrimFloat.float))
         (jnt_traj : Array2 PrimFloat.float),
    eval_z Synthetic.writer = np_linspace (s_of_Z 0) (s_of_Z 1) resolution /\
    resolution = 100 /\
    length (func_approxs Synthetic.writer) = 7 /\
    result (derive_ik_trajectory SyntheticEdge.unreachable Synthetic.writer)
    = Ok q_array /\
    result (derive_fa_parms_from_jnt_traj q_array Synthetic.writer)
    = Ok fa_parms /\
    length fa_parms = 0 /\
    result (derive_jnt_traj_from_fa_parms fa_parms Synthetic.writer)
    = Ok jnt_traj /\
    len jnt_traj = 0 /\
    len jnt_traj <> resolution.
Proof.
  exists 100, (np_array []), [], (np_T (np_array [])).
  split; [reflexivity|]. split; [reflexivity|]. split; [reflexivity|].
  split; [vm_compute; reflexivity|].
  repeat split; try reflexivity. discriminate.
Qed.

(** C7, amended.  Encoding fits, for each column of the joint trajectory
    and with the approximator of that joint alone, a parameter vector on the
    time axis [np.linspace(0, 1, len(q_array))], which has as many points as
    the trajectory has rows; the vectors have one size when the fits of the
    approximator have.  Decoding has no resolution argument: [resolution] is
    the number of points of the axis the writer holds, 100 after
    construction.  It evaluates each joint's parameter vector on these
    [resolution] points and returns the series as columns, a trajectory of
    length [resolution] when there is at least one parameter vector and one
    approximator, each series having one value per point, and of length 0
    otherwise.  The points of an axis are evenly spaced from 0 to 1: point
    [i] of [n] is [i * (1 / (n - 1))], the last is 1; in exact arithmetic
    that is [i / (n - 1)], within [[0, 1]], and in binary64 the axes of up
    to 500 points stay within [[0, 1]].  Neither method calls another
    collaborator or changes the writer. *)
Theorem codec_fits_and_evaluates
  {num : Type} `{Scalar num} (w : BaxterWriter num) :
  (forall q_array : Array2 num,
      let z := np_linspace (s_of_Z 0) (s_of_Z 1) (len q_array) in
      let r := derive_fa_parms_from_jnt_traj q_array w in
      length z = len q_array /\
      final r = w /\ events r = [] /\
      exists fa_parms,
        result r = Ok fa_parms /\
        length fa_parms = Nat.min (ncols q_array) (length (func_approxs w)) /\
        (forall j fa,
            j < ncols q_array -> nth_error (func_approxs w) j = Some fa ->
            nth_error fa_parms j = Some (fa_fit fa z (column j q_array) false)) /\
        (forall K,
            (forall fa z y, In fa (func_approxs w) ->
                            length (fa_fit fa z y false) = K) ->
            Forall (fun theta => length theta = K) fa_parms)) /\
  (forall (resolution : nat) (fa_parms : list (list num)),
      eval_z w = np_linspace (s_of_Z 0) (s_of_Z 1) resolution ->
      let z := np_linspace (s_of_Z 0) (s_of_Z 1) resolution in
      let series := map (fun pf => fa_evaluate (snd pf) z (fst pf))
                      (combine fa_parms (func_approxs w)) in
      let r := derive_jnt_traj_from_fa_parms fa_parms w in
      length z = resolution /\
      final r = w /\ events r = [] /\
      length series = Nat.min (length fa_parms) (length (func_approxs w)) /\
      (forall j theta fa,
          nth_error fa_parms j = Some theta ->
          nth_error (func_approxs w) j = Some fa ->
          nth_error series j = Some (fa_evaluate fa z theta)) /\
      exists jnt_traj,
        result r = Ok jnt_traj /\
        ncols jnt_traj = length series /\
        (forall t row, nth_error (rows jnt_traj) t = Some row ->
                       row = map (fun s => nth t s zero) series) /\
        (fa_parms <> [] -> func_approxs w <> [] ->
         (forall fa theta, In fa (func_approxs w) ->
                           length (fa_evaluate fa z theta) = length z) ->
         len jnt_traj = resolution) /\
        (fa_parms = [] \/ func_approxs w = [] -> len jnt_traj = 0)) /\
  (forall (path_prefix : string)
          (baxter_dynamics : string -> string -> RobotDynamics num)
          (PyRBF_FunctionApproximator :
             string -> nat -> bool -> FunctionApproximator num),
      eval_z (new_BaxterWriter path_prefix baxter_dynamics
                PyRBF_FunctionApproximator)
      = np_linspace (s_of_Z 0) (s_of_Z 1) 100) /\
  (forall n : nat,
      2 <= n ->
      let z := np_linspace (s_of_Z 0) (s_of_Z 1) n in
      (forall i, S i < n ->
         nth_error z i
         = Some (s_of_Z (Z.of_nat i)
                 * ((s_of_Z 1 - s_of_Z 0) / s_of_Z (Z.of_nat (n - 1)))
                 + s_of_Z 0)%num) /\
      nth_error z (n - 1) = Some (s_of_Z 1)) /\
  (forall n : nat,
      let z : list R := np_linspace (s_of_Z 0) (s_of_Z 1) n in
      Forall (fun t : R => (0 <= t <= 1)%R) z /\
      forall i, 2 <= n -> i < n ->
                nth_error z i
                = Some (IZR (Z.of_nat i) / IZR (Z.of_nat (n - 1)))%R) /\
  (forall n : nat,
      n <= 500 ->
      Forall (fun t => PrimFloat.leb (s_of_Z 0) t = true /\
                       PrimFloat.leb t (s_of_Z 1) = true)
        (np_linspace (s_of_Z 0) (s_of_Z 1) n : list PrimFloat.float)).
Proof.
  split; [|split; [|split; [|split; [|split]]]].
  - intros q_array z r. unfold r. rewrite derive_fa_parms_from_jnt_traj_run.
    split; [apply length_np_linspace|].
    split; [reflexivity|]. split; [reflexivity|].
    eexists. split; [reflexivity|]. split; [|split].
    + rewrite length_map, length_combine. unfold np_T. cbn [rows].
      now rewrite length_map, length_seq.
    + intros j fa Hj Hfa. rewrite nth_error_map.
      rewrite (nth_error_combine (rows (np_T q_array)) (func_approxs w) j
                 (a := column j q_array) (b := fa)); auto.
      now apply nth_error_rows_np_T.
    + intros K Hfit. now apply length_fitted.
  - intros resolution fa_parms Hz z series r. unfold r.
    rewrite derive_jnt_traj_from_fa_parms_run. rewrite Hz. fold z.
    split; [apply length_np_linspace|].
    split; [reflexivity|]. split; [reflexivity|].
    split; [unfold series; now rewrite length_map, length_combine|].
    split.
    { intros j theta fa Hth Hfa. unfold series. rewrite nth_error_map.
      now rewrite (nth_error_combine fa_parms (func_approxs w) j Hth Hfa). }
    eexists. split; [reflexivity|]. fold series.
    split; [unfold np_T; cbn [ncols]; now rewrite len_np_array|].
    split; [|split].
    + intros t row Ht. unfold np_T in Ht. cbn [rows] in Ht.
      rewrite nth_error_map in Ht.
      rewrite nth_error_seq in Ht.
      destruct (t <? ncols (np_array series)); [|discriminate].
      cbn in Ht. inversion Ht. unfold column.
      now rewrite rows_np_array.
    + intros Hp Hf Hev. unfold series, z in *.
      pose proof (@len_decoded _ _ fa_parms w Hp Hf) as Hlen.
      rewrite Hz in Hlen. rewrite Hlen by exact Hev.
      apply length_np_linspace.
    + intros Hnone. pose proof (len_decoded_nothing w Hnone) as Hlen.
      rewrite Hz in Hlen. exact Hlen.
  - intros path_prefix baxter_dynamics PyRBF_FunctionApproximator.
    unfold new_BaxterWriter. now rewrite init_sets_every_field.
  - intros n Hn z. exact (np_linspace_nth (s_of_Z 0) (s_of_Z 1) Hn).
  - intros n z. split; [apply np_linspace_unit_interval|].
    intros i Hn Hi. now apply np_linspace_evenly_spaced.
  - exact np_linspace_unit_interval_binary64.
Qed.

Lemma codec_fits_and_evaluates_witness :
  exists jnt_traj,
    result (derive_jnt_traj_from_fa_parms Synthetic.parms7 Synthetic.writer)
    = Ok jnt_traj /\
    len jnt_traj = 100.
Proof.
  destruct (codec_fits_and_evaluates Synthetic.writer) as (_ & Hdec & _).
  destruct (Hdec 100 Synthetic.parms7 eq_refl)
    as (_ & _ & _ & _ & _ & jnt_traj & Hres & _ & _ & Hlen & _).
  exists jnt_traj. split; [exact Hres|].
  apply Hlen.
  - discriminate.
  - discriminate.
  - intros fa theta Hin. cbn in Hin.
    repeat (destruct Hin as [<- | Hin]; [apply length_map|]). contradiction.
Defined.

(** ** Runs on the synthetic collaborators, in binary64 *)

(** The axis of a constructed writer has 100 points, and seven joints are
    given an approximator each. *)
Example constructed_writer_axis :
  length (eval_z Synthetic.writer) = 100 /\
  length (func_approxs Synthetic.writer) = 7.
Proof. split; vm_compute; reflexivity. Qed.

(** The planar origin is mapped to the block centre. *)
Example origin_maps_to_block_center :
  exists spatial_traj,
    result (generate_spatial_trajectory Synthetic.stroke Synthetic.writer)
    = Ok spatial_traj /\
    nth_error (rows spatial_traj) 0 = Some (block_center Synthetic.writer).
Proof. eexists. split; vm_compute; reflexivity. Qed.

(** The unreachable fourth target is reported, with its position. *)
Example fourth_target_is_reported :
  diagnostics (events (derive_ik_trajectory Synthetic.path10 Synthetic.writer))
  = [(3, [Synthetic.fl 3; Synthetic.fl 0; Synthetic.fl 0])].
Proof. vm_compute. reflexivity. Qed.

(** Without a single IK solution the refiner stops at [q_ik[0]], after the
    solver was built and before it is run. *)
Example refiner_needs_a_first_configuration :
  let r := derive_ilqr_trajectory Synthetic.solver Synthetic.no_path
             Synthetic.writer in
  result r = Raise IndexError /\ builds (events r) = [(7, 100)] /\
  runs (events r) = [].
Proof. repeat split; vm_compute; reflexivity. Qed.

(** * Further properties of the class *)

(** ** IK trajectory builder: the orientation *)


(** ** iLQR refiner: what it does around the solver *)

Section RefinerEdges.
Context {num : Type} `{Scalar num}.
Variable synthesize_trajectory :
  PyLQR_TrajCtrl num -> CostFn num -> nat -> nat ->
  list num -> Array2 num -> nat -> Outcome (Array2 num).
Implicit Types (w : BaxterWriter num) (spatial_traj : Array2 num).

Lemma accepted_none (cs : list (Solve num)) :
  Forall (fun c => sv_q c = None) cs -> accepted cs = [].
Proof.
  induction 1 as [|c cs Hc _ IH]; [reflexivity|].
  cbn. now rewrite Hc.
Qed.

Lemma filter_failed_all (cs : list (Solve num)) :
  Forall (fun c => sv_q c = None) cs -> filter failed cs = cs.
Proof.
  induction 1 as [|c cs Hc _ IH]; [reflexivity|].
  cbn. unfold failed at 1. now rewrite Hc, IH.
Qed.

Lemma solves_refiner spatial_traj w :
  let r := derive_ilqr_trajectory synthesize_trajectory spatial_traj w in
  let rik := derive_ik_trajectory spatial_traj w in
  final r = w /\
  solves (events r) = solves (events rik) /\
  diagnostics (events r) = diagnostics (events rik) /\
  length (runs (events r)) <= 1.
Proof.
  cbn zeta. rewrite derive_ilqr_trajectory_run. cbn zeta.
  destruct (derive_ik_trajectory_post spatial_traj w) as (Hf & _ & P).
  destruct P as [_ _ _ _ _ _ _ _ Hn]. cbn [events snd] in Hn.
  revert Hf Hn. generalize (derive_ik_trajectory spatial_traj w). intros rik Hf Hn.
  unfold final, events in *.
  destruct (result rik); [|cbn; rewrite Hn; cbn; auto].
  destruct (getitem _ _); [|cbn; rewrite Hn; cbn; auto].
  destruct (np_vstack _ _); cbn; [|rewrite Hn; cbn; auto].
  rewrite solves_app, diagnostics_app, runs_app, Hn. cbn.
  rewrite !app_nil_r. auto.
Qed.

Lemma np_vstack_zeros_raises (a : Array2 num) :
  ncols a <> 7 -> np_vstack (np_zeros 7) a = Raise ValueError.
Proof.
  intros Hc. unfold np_vstack, np_zeros. rewrite repeat_length.
  destruct (7 =? ncols a) eqn:E; [apply Nat.eqb_eq in E; congruence | reflexivity].
Qed.

(** The one solver run, when the IK trajectory has a first configuration
    and seven columns. *)
Lemma derive_ilqr_trajectory_runs spatial_traj w (q_ik : Array2 num)
  (q0 : list num) :
  result (derive_ik_trajectory spatial_traj w) = Ok q_ik ->
  nth_error (rows q_ik) 0 = Some q0 ->
  ncols q_ik = 7 ->
  let dt := dec 1 100 in
  let q_dot_ik :=
    mkArray2 7 (np_zeros 7 :: rows (np_div_scalar (np_diff q_ik) dt)) in
  let u_array_init := np_div_scalar (np_diff q_dot_ik) dt in
  runs (events (derive_ilqr_trajectory synthesize_trajectory spatial_traj w))
  = [(q0, u_array_init, 25)] /\
  len u_array_init = len q_ik - 1.
Proof.
  intros Hik Hq0 Hcols dt q_dot_ik u_array_init.
  destruct (derive_ik_trajectory_post spatial_traj w) as (_ & _ & P).
  destruct P as [_ _ _ _ _ _ _ _ Hn]. cbn [events snd] in Hn.
  split.
  - rewrite derive_ilqr_trajectory_run. cbn zeta.
    rewrite Hik. unfold getitem. rewrite Hq0.
    unfold np_vstack. cbn [ncols np_div_scalar np_diff].
    rewrite Hcols. unfold np_zeros at 1. rewrite repeat_length. cbn [Nat.eqb].
    unfold events in *. cbn [snd app runs]. rewrite runs_app, Hn. reflexivity.
  - unfold len, u_array_init, q_dot_ik. cbn [rows np_div_scalar np_diff].
    rewrite length_map, length_adjacent. cbn [length].
    rewrite length_map, length_adjacent.
    assert (0 < length (rows q_ik)) by (apply nth_error_Some; congruence).
    lia.
Qed.

End RefinerEdges.

(** X2.  Whatever the path and whatever the solver answers,
    [derive_ilqr_trajectory] leaves the writer as it found it, asks the IK
    solver exactly what [derive_ik_trajectory] asks on the same path, prints
    the same diagnostics, and runs the solver at most once. *)
Theorem derive_ilqr_trajectory_keeps_writer
  {num : Type} `{Scalar num}
  (synthesize_trajectory :
     PyLQR_TrajCtrl num -> CostFn num -> nat -> nat ->
     list num -> Array2 num -> nat -> Outcome (Array2 num))
  (w : BaxterWriter num) (spatial_traj : Array2 num) :
  let r := derive_ilqr_trajectory synthesize_trajectory spatial_traj w in
  let rik := derive_ik_trajectory spatial_traj w in
  final r = w /\
  solves (events r) = solves (events rik) /\
  diagnostics (events r) = diagnostics (events rik) /\
  length (runs (events r)) <= 1.
Proof. exact (solves_refiner synthesize_trajectory spatial_traj w). Qed.

(** X3.  When no IK solve on the path succeeds (none at all on an empty
    path), [derive_ilqr_trajectory] raises [IndexError] at [q_ik[0]]: the
    solver has been built, it is never run, and one diagnostic per target
    has been printed. *)
Theorem derive_ilqr_trajectory_without_solution
  {num : Type} `{Scalar num}
  (synthesize_trajectory :
     PyLQR_TrajCtrl num -> CostFn num -> nat -> nat ->
     list num -> Array2 num -> nat -> Outcome (Array2 num))
  (w : BaxterWriter num) (spatial_traj : Array2 num) :
  Forall (fun c => sv_q c = None)
    (solves (events (derive_ik_trajectory spatial_traj w))) ->
  let r := derive_ilqr_trajectory synthesize_trajectory spatial_traj w in
  result r = Raise IndexError /\
  builds (events r) = [(7, 100)] /\
  runs (events r) = [] /\
  length (diagnostics (events r)) = len spatial_traj.
Proof.
  intros Hall r.
  destruct (solves_refiner synthesize_trajectory spatial_traj w)
    as (_ & _ & Hd & _). fold r in Hd.
  pose proof (derive_ilqr_trajectory_builds synthesize_trajectory spatial_traj w)
    as Hb. fold r in Hb.
  destruct (derive_ik_trajectory_post spatial_traj w) as (_ & Hres & P).
  destruct P as [_ _ Ht _ _ _ Hdi _ Hn]. cbn [events snd] in Ht, Hdi, Hn.
  assert (Hrun : result r = Raise IndexError /\ runs (events r) = []).
  { unfold r. rewrite derive_ilqr_trajectory_run. cbn zeta.
    rewrite Hres, (accepted_none Hall). cbn. unfold result, events. cbn.
    split; [reflexivity|]. exact Hn. }
  destruct Hrun as [Hr Hrn].
  repeat split; try assumption.
  rewrite Hd, Hdi, failures_length, (filter_failed_all Hall).
  unfold len. now rewrite <- Ht, length_map.
Qed.

Lemma derive_ilqr_trajectory_without_solution_witness :
  result (derive_ilqr_trajectory Synthetic.solver SyntheticEdge.unreachable
            Synthetic.writer) = Raise IndexError /\
  length (diagnostics (events (derive_ilqr_trajectory Synthetic.solver
                                 SyntheticEdge.unreachable Synthetic.writer))) = 2.
Proof.
  destruct (derive_ilqr_trajectory_without_solution Synthetic.solver
              Synthetic.writer SyntheticEdge.unreachable)
    as (Hr & _ & _ & Hd).
  - vm_compute. repeat constructor.
  - split; [exact Hr | exact Hd].
Defined.

(** X4.  When the IK configurations do not have seven entries,
    [derive_ilqr_trajectory] raises [ValueError] at [np.vstack] and never
    runs the solver: the zero velocity row has seven entries whatever the
    number of joints of the model. *)
Theorem derive_ilqr_trajectory_needs_seven_joints
  {num : Type} `{Scalar num}
  (synthesize_trajectory :
     PyLQR_TrajCtrl num -> CostFn num -> nat -> nat ->
     list num -> Array2 num -> nat -> Outcome (Array2 num))
  (w : BaxterWriter num) (spatial_traj q_ik : Array2 num) :
  result (derive_ik_trajectory spatial_traj w) = Ok q_ik ->
  0 < len q_ik ->
  ncols q_ik <> 7 ->
  let r := derive_ilqr_trajectory synthesize_trajectory spatial_traj w in
  result r = Raise ValueError /\ runs (events r) = [].
Proof.
  intros Hik Hlen Hcols r.
  destruct (derive_ik_trajectory_post spatial_traj w) as (_ & _ & P).
  destruct P as [_ _ _ _ _ _ _ _ Hn]. cbn [events snd] in Hn.
  unfold r. rewrite derive_ilqr_trajectory_run. cbn zeta. rewrite Hik.
  unfold getitem, len in *.
  destruct (rows q_ik) as [|q0 qs] eqn:Hrows; [cbn in Hlen; lia|].
  cbn [nth_error].
  rewrite (np_vstack_zeros_raises
             (np_div_scalar (np_diff q_ik) (dec 1 100)) Hcols).
  unfold result, events in *. cbn [fst snd runs].
  split; [reflexivity | exact Hn].
Qed.

Lemma derive_ilqr_trajectory_needs_seven_joints_witness :
  result (derive_ilqr_trajectory Synthetic.solver Synthetic.path3
            SyntheticEdge.writer6) = Raise ValueError /\
  runs (events (derive_ilqr_trajectory Synthetic.solver Synthetic.path3
                  SyntheticEdge.writer6)) = [].
Proof.
  apply (derive_ilqr_trajectory_needs_seven_joints Synthetic.solver
           SyntheticEdge.writer6 Synthetic.path3
           (q_ik := mkArray2 6 (accepted (solves (events
                      (derive_ik_trajectory Synthetic.path3 SyntheticEdge.writer6)))))).
  - vm_compute. reflexivity.
  - vm_compute. lia.
  - cbn. lia.
Defined.

(** X5.  Every failed IK solve shortens the initial control sequence by one
    row: when the solver is run, the controls it is given, the failed
    solves and one more add up to the number of points of the path, while
    the horizon the solver was built with stays 100. *)
Theorem derive_ilqr_trajectory_controls_count
  {num : Type} `{Scalar num}
  (synthesize_trajectory :
     PyLQR_TrajCtrl num -> CostFn num -> nat -> nat ->
     list num -> Array2 num -> nat -> Outcome (Array2 num))
  (w : BaxterWriter num) (spatial_traj q_ik : Array2 num) :
  result (derive_ik_trajectory spatial_traj w) = Ok q_ik ->
  0 < len q_ik ->
  ncols q_ik = 7 ->
  let r := derive_ilqr_trajectory synthesize_trajectory spatial_traj w in
  exists x0 u_array_init,
    runs (events r) = [(x0, u_array_init, 25)] /\
    builds (events r) = [(7, 100)] /\
    len u_array_init + 1 + length (filter failed (solves (events r)))
    = len spatial_traj.
Proof.
  intros Hik Hlen Hcols r.
  destruct (solves_refiner synthesize_trajectory spatial_traj w)
    as (_ & Hs & _ & _). fold r in Hs. rewrite Hs.
  destruct (derive_ik_trajectory_post spatial_traj w) as (_ & Hres & P).
  destruct P as [_ _ Ht _ _ _ _ _ Hn]. cbn [events snd] in Ht, Hn.
  set (cs := solves (events (derive_ik_trajectory spatial_traj w))) in *.
  assert (Hq : q_ik = np_array (accepted cs)) by congruence.
  assert (Hrows : len q_ik = length (accepted cs))
    by (rewrite Hq; apply len_np_array).
  destruct (rows q_ik) as [|q0 qs] eqn:Hq0; [unfold len in Hlen; rewrite Hq0 in Hlen;
                                              cbn in Hlen; lia|].
  assert (Hfirst : nth_error (rows q_ik) 0 = Some q0) by now rewrite Hq0.
  destruct (derive_ilqr_trajectory_runs synthesize_trajectory spatial_traj w
              Hik Hfirst Hcols) as (Hruns & Hu).
  eexists q0, _. split; [exact Hruns|].
  split; [apply derive_ilqr_trajectory_builds|].
  rewrite Hu, Hrows. pose proof (accepted_length cs) as Hl.
  assert (length cs = len spatial_traj)
    by (unfold len; now rewrite <- Ht, length_map).
  lia.
Qed.

Lemma derive_ilqr_trajectory_controls_count_witness :
  exists x0 u_array_init,
    runs (events (derive_ilqr_trajectory Synthetic.solver Synthetic.path10
                    Synthetic.writer))
    = [(x0, u_array_init, 25)] /\
    len u_array_init + 1
    + length (filter failed
                (solves (events (derive_ilqr_trajectory Synthetic.solver
                                   Synthetic.path10 Synthetic.writer))))
    = len Synthetic.path10.
Proof.
  destruct (derive_ilqr_trajectory_controls_count Synthetic.solver
              Synthetic.writer Synthetic.path10
              (q_ik := mkArray2 7 (accepted (solves (events
                         (derive_ik_trajectory Synthetic.path10
                            Synthetic.writer))))))
    as (x0 & u & Hruns & _ & Hcount).
  - vm_compute. reflexivity.
  - vm_compute. lia.
  - reflexivity.
  - exists x0, u. split; [exact Hruns | exact Hcount].
Defined.

(** ** Stage cost: what it reads *)

(** X6.  The stage cost reads the state through its first seven entries
    only, and never its auxiliary argument: two states with the same joint
    positions cost the same whatever their velocities. *)
Theorem traj_cost_ignores_velocities
  {num : Type} `{Scalar num}
  (w : BaxterWriter num) (lqr_traj_ctrl : PyLQR_TrajCtrl num)
  (spatial_traj : Array2 num) (x x' u : list num) (t : nat) (aux aux' : unit) :
  firstn 7 x = firstn 7 x' ->
  traj_cost w lqr_traj_ctrl spatial_traj x u t aux
  = traj_cost w lqr_traj_ctrl spatial_traj x' u t aux'.
Proof.
  intros Hx. unfold traj_cost, slice. cbn [Nat.sub skipn]. now rewrite Hx.
Qed.

Lemma traj_cost_ignores_velocities_witness :
  traj_cost SyntheticR.writer SyntheticR.ctrl SyntheticR.path2
    SyntheticR.state SyntheticR.control 0 tt
  = traj_cost SyntheticR.writer SyntheticR.ctrl SyntheticR.path2
      (firstn 7 SyntheticR.state ++ [5; 5; 5; 5; 5; 5; 5]%R)
      SyntheticR.control 0 tt.
Proof.
  apply (traj_cost_ignores_velocities SyntheticR.writer SyntheticR.ctrl
           SyntheticR.path2 SyntheticR.state
           (firstn 7 SyntheticR.state ++ [5; 5; 5; 5; 5; 5; 5]%R)
           SyntheticR.control 0 tt tt).
  reflexivity.
Defined.

(** ** Spatial mapper: the writing plane and the one-column input *)

(** X7.  Whatever character trajectory [generate_spatial_trajectory]
    accepts, every row it returns has three entries and its third entry is
    [0 + block_center[2]]: the mapped path lies in one plane, whose height
    comes from the writer and not from the input. *)
Theorem generate_spatial_trajectory_is_planar
  {num : Type} `{Scalar num} (w : BaxterWriter num)
  (char_traj spatial_traj : Array2 num) :
  length (block_center w) = 3 ->
  result (generate_spatial_trajectory char_traj w) = Ok spatial_traj ->
  len spatial_traj = len char_traj /\
  Forall (fun row => length row = 3 /\
                     nth 2 row zero = (zero + nth 2 (block_center w) zero)%num)
    (rows spatial_traj).
Proof.
  intros Hbc Hres.
  assert (Hc : ncols char_traj = 2 \/ ncols char_traj = 1).
  { destruct (Nat.eq_dec (ncols char_traj) 2) as [|H2]; [now left|].
    destruct (Nat.eq_dec (ncols char_traj) 1) as [|H1]; [now right|].
    assert (Hr : result (generate_spatial_trajectory char_traj w) = Raise ValueError)
      by (apply generate_spatial_trajectory_raises; auto).
    congruence. }
  destruct (generate_spatial_trajectory_returns char_traj w Hbc Hc)
    as (out & Hout & _ & Hlen & Hrows).
  assert (out = spatial_traj) by congruence. subst out.
  split; [exact Hlen|].
  rewrite Hrows. apply Forall_forall. intros row Hin.
  apply in_map_iff in Hin. destruct Hin as (r' & <- & Hin).
  apply in_map_iff in Hin. destruct Hin as ([d s] & <- & Hin).
  apply in_combine_l in Hin. apply repeat_spec in Hin. subst d.
  cbn. split; reflexivity.
Qed.

Lemma generate_spatial_trajectory_is_planar_witness :
  exists spatial_traj,
    result (generate_spatial_trajectory Synthetic.stroke Synthetic.writer)
    = Ok spatial_traj /\
    Forall (fun row => length row = 3 /\
                       nth 2 row zero
                       = (zero + nth 2 (block_center Synthetic.writer) zero)%num)
      (rows spatial_traj).
Proof.
  assert (Hrun : exists spatial_traj,
             result (generate_spatial_trajectory Synthetic.stroke Synthetic.writer)
             = Ok spatial_traj)
    by (eexists; vm_compute; reflexivity).
  destruct Hrun as (spatial_traj & Hres).
  exists spatial_traj. split; [exact Hres|].
  exact (proj2 (generate_spatial_trajectory_is_planar Synthetic.writer
                  Synthetic.stroke eq_refl Hres)).
Defined.

(** X8.  A character trajectory of one column is not rejected: numpy
    writes the single coordinate [x] of a row to both planar axes, so the
    row is mapped to [(x * scale, x * scale, 0) + block_center]. *)
Theorem generate_spatial_trajectory_broadcasts_one_column
  {num : Type} `{Scalar num} (w : BaxterWriter num) (char_traj : Array2 num) :
  length (block_center w) = 3 ->
  ncols char_traj = 1 ->
  exists spatial_traj,
    result (generate_spatial_trajectory char_traj w) = Ok spatial_traj /\
    len spatial_traj = len char_traj /\
    forall i x,
      nth_error (rows char_traj) i = Some [x] ->
      nth_error (rows spatial_traj) i =
      Some [(x * scale w + nth 0 (block_center w) zero)%num;
            (x * scale w + nth 1 (block_center w) zero)%num;
            (zero + nth 2 (block_center w) zero)%num].
Proof.
  intros Hbc Hc.
  destruct (generate_spatial_trajectory_returns char_traj w Hbc (or_intror Hc))
    as (out & Hres & _ & Hlen & Hrows).
  exists out. repeat split; try assumption.
  intros i x Hi. rewrite Hrows, !nth_error_map.
  assert (Hlt : i < len char_traj).
  { unfold len. apply nth_error_Some. congruence. }
  rewrite (nth_error_combine (repeat (np_zeros 3) (len char_traj))
             (map (map (fun x => (x * scale w)%num)) (rows char_traj)) i
             (a := np_zeros 3) (b := [(x * scale w)%num])).
  - reflexivity.
  - now apply nth_error_repeat.
  - now rewrite nth_error_map, Hi.
Qed.

Lemma generate_spatial_trajectory_broadcasts_one_column_witness :
  exists spatial_traj,
    result (generate_spatial_trajectory Synthetic.column_path Synthetic.writer)
    = Ok spatial_traj /\
    len spatial_traj = 2.
Proof.
  destruct (generate_spatial_trajectory_broadcasts_one_column Synthetic.writer
              Synthetic.column_path) as (out & Hres & Hlen & _);
    [reflexivity | reflexivity |].
  exists out. split; [exact Hres | exact Hlen].
Defined.

(** ** Codec: surplus parameters and the trajectory without a row *)

Section CodecEdges.
Context {num : Type} `{Scalar num}.

Lemma combine_app_surplus {A B} (l : list A) :
  forall (l' : list B) (extra : list A),
    length l' <= length l -> combine (l ++ extra) l' = combine l l'.
Proof.
  induction l as [|a l IH]; intros [|b l'] extra Hlen; cbn in *;
    try reflexivity; try lia.
  - now destruct extra.
  - f_equal. apply IH. lia.
Qed.

End CodecEdges.

(** X9.  [derive_jnt_traj_from_fa_parms] pairs the parameter vectors with
    the approximators of the joints and stops at the shorter list: the
    vectors beyond the number of joints are never evaluated and do not
    change the result. *)
Theorem derive_jnt_traj_from_fa_parms_drops_surplus
  {num : Type} `{Scalar num} (w : BaxterWriter num)
  (fa_parms extra : list (list num)) :
  length (func_approxs w) <= length fa_parms ->
  derive_jnt_traj_from_fa_parms (fa_parms ++ extra) w
  = derive_jnt_traj_from_fa_parms fa_parms w.
Proof.
  intros Hlen. rewrite !derive_jnt_traj_from_fa_parms_run.
  now rewrite combine_app_surplus.
Qed.

Lemma derive_jnt_traj_from_fa_parms_drops_surplus_witness :
  derive_jnt_traj_from_fa_parms
    (Synthetic.parms7 ++ [[Synthetic.fl 9; Synthetic.fl 9]]) Synthetic.writer
  = derive_jnt_traj_from_fa_parms Synthetic.parms7 Synthetic.writer.
Proof.
  apply (derive_jnt_traj_from_fa_parms_drops_surplus Synthetic.writer
           Synthetic.parms7 [[Synthetic.fl 9; Synthetic.fl 9]]).
  vm_compute. lia.
Defined.

(** X10.  When every IK solve on a path fails, [derive_ik_trajectory]
    returns the array without a row or a column; encoding it fits nothing
    and returns no parameter vector, and decoding that returns a trajectory
    of no row, not of 100. *)
Theorem codec_of_trajectory_without_solution
  {num : Type} `{Scalar num} (w : BaxterWriter num) (spatial_traj : Array2 num) :
  Forall (fun c => sv_q c = None)
    (solves (events (derive_ik_trajectory spatial_traj w))) ->
  exists q_array jnt_traj,
    result (derive_ik_trajectory spatial_traj w) = Ok q_array /\
    len q_array = 0 /\
    result (derive_fa_parms_from_jnt_traj q_array w) = Ok [] /\
    result (derive_jnt_traj_from_fa_parms [] w) = Ok jnt_traj /\
    len jnt_traj = 0.
Proof.
  intros Hall.
  destruct (derive_ik_trajectory_post spatial_traj w) as (_ & Hres & _).
  rewrite (accepted_none Hall) in Hres.
  exists (np_array []), (np_T (np_array [])).
  repeat split; try assumption; reflexivity.
Qed.

Lemma codec_of_trajectory_without_solution_witness :
  exists q_array,
    result (derive_ik_trajectory SyntheticEdge.unreachable Synthetic.writer)
    = Ok q_array /\
    result (derive_fa_parms_from_jnt_traj q_array Synthetic.writer) = Ok [].
Proof.
  destruct (codec_of_trajectory_without_solution Synthetic.writer
              SyntheticEdge.unreachable) as (q & _ & Hik & _ & Henc & _).
  - vm_compute. repeat constructor.
  - exists q. split; [exact Hik | exact Henc].
Defined.

(** ** Reconstruction of the Cartesian path *)

Section ReconstructionFacts.
Context {num : Type} `{Scalar num}.
Implicit Types (w : BaxterWriter num).

Lemma cartesian_loop_run (qs : list (list num)) :
  forall (spatial_traj : list (list num)) w,
    cartesian_loop qs spatial_traj w =
    (Ok (spatial_traj ++ map (forward_position_kinematics (robot_dynamics w)) qs),
     w, []).
Proof.
  induction qs as [|q qs IH]; intros spatial_traj w.
  - cbn. now rewrite app_nil_r.
  - cbn [cartesian_loop]. unfold bind, get. cbn. rewrite IH.
    now rewrite <- app_assoc.
Qed.

Lemma derive_cartesian_trajectory_run (q_array : Array2 num) w :
  derive_cartesian_trajectory q_array w =
  (Ok (map (forward_position_kinematics (robot_dynamics w)) (rows q_array)), w, []).
Proof. unfold derive_cartesian_trajectory. now rewrite cartesian_loop_run. Qed.

(** The positions of the poses of the configurations found are the targets
    of the solves that found them, when the solver's answers are right. *)
Lemma positions_of_accepted (fk : list num -> list num) (cs : list (Solve num)) :
  Forall (fun c => forall q, sv_q c = Some q -> firstn 3 (fk q) = sv_pnt c) cs ->
  map (fun q => firstn 3 (fk q)) (accepted cs)
  = map (@sv_pnt num) (filter (fun c => negb (failed c)) cs).
Proof.
  induction 1 as [|c cs Hc _ IH]; [reflexivity|].
  cbn [accepted filter]. unfold failed at 1.
  destruct (sv_q c) as [q|] eqn:Hq; cbn [map negb].
  - now rewrite (Hc q eq_refl), IH.
  - exact IH.
Qed.

Lemma filter_reached_all (cs : list (Solve num)) :
  filter failed cs = [] -> filter (fun c => negb (failed c)) cs = cs.
Proof.
  induction cs as [|c cs IH]; intros Hf; [reflexivity|].
  cbn in *. destruct (failed c); [discriminate|]. cbn. now rewrite IH.
Qed.

End ReconstructionFacts.

(** X11.  With a kinematic model whose IK answers are mapped back to their
    targets by forward kinematics, the Cartesian trajectory derived from an
    IK trajectory has, as positions, exactly the targets that were reached,
    in order: the whole spatial path when no solve failed.  Deriving it
    raises nothing and leaves the writer untouched. *)
Theorem derive_cartesian_trajectory_retraces_path
  {num : Type} `{Scalar num} (w : BaxterWriter num) (spatial_traj : Array2 num) :
  (forall pnt orientation seed q,
      inverse_kinematics (robot_dynamics w) pnt orientation seed = Some q ->
      firstn 3 (forward_position_kinematics (robot_dynamics w) q) = pnt) ->
  let r := derive_ik_trajectory spatial_traj w in
  exists q_array cart_poses,
    result r = Ok q_array /\
    derive_cartesian_trajectory q_array (final r) = (Ok cart_poses, w, []) /\
    length cart_poses = len q_array /\
    map (firstn 3) cart_poses
    = map (@sv_pnt num) (filter (fun c => negb (failed c)) (solves (events r))) /\
    (filter failed (solves (events r)) = [] ->
     map (firstn 3) cart_poses = rows spatial_traj).
Proof.
  intros Hexact r.
  destruct (derive_ik_trajectory_post spatial_traj w) as (Hf & Hres & P).
  fold r in Hf, Hres, P. destruct P as [_ _ Ht _ Ha _ _ _ _].
  cbn [events snd] in Ht, Ha.
  set (cs := solves (events r)) in *.
  exists (np_array (accepted cs)),
    (map (forward_position_kinematics (robot_dynamics w)) (accepted cs)).
  assert (Hpos : map (firstn 3)
                   (map (forward_position_kinematics (robot_dynamics w)) (accepted cs))
                 = map (@sv_pnt num) (filter (fun c => negb (failed c)) cs)).
  { rewrite map_map. apply positions_of_accepted.
    rewrite Forall_forall in *. intros c Hc q Hq.
    apply (Hexact (sv_pnt c) (sv_orientation c) (sv_seed c)).
    now rewrite <- (Ha c Hc). }
  split; [exact Hres|]. split.
  { rewrite Hf, derive_cartesian_trajectory_run. now rewrite rows_np_array. }
  split; [now rewrite length_map, len_np_array|].
  split; [exact Hpos|].
  intros Hnone. now rewrite Hpos, (filter_reached_all cs Hnone).
Qed.

Lemma derive_cartesian_trajectory_retraces_path_witness :
  exists q_array cart_poses,
    result (derive_ik_trajectory Synthetic.path3 SyntheticEdge.writer_exact)
    = Ok q_array /\
    result (derive_cartesian_trajectory q_array SyntheticEdge.writer_exact)
    = Ok cart_poses /\
    map (firstn 3) cart_poses = rows Synthetic.path3.
Proof.
  destruct (derive_cartesian_trajectory_retraces_path SyntheticEdge.writer_exact
              Synthetic.path3) as (q & poses & Hq & Hposes & _ & _ & Hall).
  - intros pnt orientation seed q. cbn.
    destruct pnt as [|a [|b [|c [|e pnt]]]]; cbn; try discriminate.
    intros [= <-]. reflexivity.
  - exists q, poses. split; [exact Hq|]. split.
    + replace SyntheticEdge.writer_exact
        with (final (derive_ik_trajectory Synthetic.path3
                       SyntheticEdge.writer_exact)) at 1 by reflexivity.
      now rewrite Hposes.
    + apply Hall. vm_compute. reflexivity.
Defined.

(** X12.  On a writer built by the constructor,
    [derive_cartesian_trajectory_from_fa_parms] returns 100 poses for every
    parameter set with at least one vector, the pose at index [t] being the
    forward kinematics of row [t] of the decoded joint trajectory; the
    approximator is taken to answer with one value per point of its axis. *)
Theorem derive_cartesian_trajectory_from_fa_parms_has_100_poses
  {num : Type} `{Scalar num} (path_prefix : string)
  (baxter_dynamics : string -> string -> RobotDynamics num)
  (PyRBF_FunctionApproximator : string -> nat -> bool -> FunctionApproximator num)
  (fa_parms : list (list num)) :
  (forall rbf_type K normalize z theta,
      length (fa_evaluate (PyRBF_FunctionApproximator rbf_type K normalize) z theta)
      = length z) ->
  0 < num_jnts (baxter_dynamics "right"%string
                  (os_path_join path_prefix "urdf/baxter.urdf"%string)) ->
  fa_parms <> [] ->
  let w := new_BaxterWriter path_prefix baxter_dynamics PyRBF_FunctionApproximator in
  let r := derive_cartesian_trajectory_from_fa_parms fa_parms w in
  exists jnt_traj cart_poses,
    result (derive_jnt_traj_from_fa_parms fa_parms w) = Ok jnt_traj /\
    result r = Ok cart_poses /\ final r = w /\ events r = [] /\
    length cart_poses = 100 /\
    cart_poses
    = map (forward_position_kinematics (robot_dynamics w)) (rows jnt_traj).
Proof.
  intros Hev Hjnts Hp w r.
  assert (Hz : length (eval_z w) = 100).
  { unfold w, new_BaxterWriter. rewrite init_sets_every_field. cbn [eval_z].
    apply length_np_linspace. }
  assert (Hfas : func_approxs w <> []).
  { unfold w, new_BaxterWriter. rewrite init_sets_every_field. cbn [func_approxs].
    destruct (num_jnts _); [lia|]. discriminate. }
  assert (Hcontract : forall fa theta, In fa (func_approxs w) ->
            length (fa_evaluate fa (eval_z w) theta) = length (eval_z w)).
  { intros fa theta Hin. unfold w, new_BaxterWriter in Hin.
    rewrite init_sets_every_field in Hin. cbn [func_approxs] in Hin.
    apply in_map_iff in Hin. destruct Hin as (? & <- & _). apply Hev. }
  pose proof (@len_decoded _ _ fa_parms w Hp Hfas Hcontract) as Hlen.
  unfold r, derive_cartesian_trajectory_from_fa_parms, bind.
  rewrite derive_jnt_traj_from_fa_parms_run, derive_cartesian_trajectory_run.
  unfold result, final, events, ret. cbn [fst snd app].
  eexists. eexists. split; [reflexivity|]. split; [reflexivity|].
  split; [reflexivity|]. split; [reflexivity|]. split; [|reflexivity].
  rewrite length_map. unfold len in Hlen. now rewrite Hlen.
Qed.

Lemma derive_cartesian_trajectory_from_fa_parms_has_100_poses_witness :
  exists cart_poses,
    result (derive_cartesian_trajectory_from_fa_parms Synthetic.parms7
              Synthetic.writer) = Ok cart_poses /\
    length cart_poses = 100.
Proof.
  destruct (derive_cartesian_trajectory_from_fa_parms_has_100_poses
              "/opt/vae_assoc"%string Synthetic.dynamics Synthetic.approximator
              (fa_parms := Synthetic.parms7))
    as (jnt & poses & _ & Hres & _ & _ & Hlen & _).
  - intros rbf_type K normalize z theta. apply length_map.
  - cbn. lia.
  - discriminate.
  - exists poses. split; [exact Hres | exact Hlen].
Defined.

(** ** What the builders write and read back *)

Section ArrayFacts.
Context {num : Type} `{Scalar num}.

Lemma map_nth_seq {A : Type} (l : list A) (d : A) :
  map (fun i => nth i l d) (seq 0 (length l)) = l.
Proof.
  induction l as [|a l IH]; [reflexivity|].
  cbn [length seq map nth]. f_equal.
  rewrite <- seq_shift, map_map. exact IH.
Qed.

Lemma nth_map_some {A B : Type} (f : A -> B) (l : list A) (d : B) :
  forall i a, nth_error l i = Some a -> nth i (map f l) d = f a.
Proof.
  induction l as [|x l IH]; intros [|i] a Hi; cbn in *; try discriminate.
  - now inversion Hi.
  - now apply IH.
Qed.

Lemma firstn_exact {A : Type} (c r : list A) : firstn (length c) (c ++ r) = c.
Proof. induction c as [|a c IH]; cbn; [reflexivity | now rewrite IH]. Qed.

Lemma skipn_exact {A : Type} (c r : list A) : skipn (length c) (c ++ r) = r.
Proof. induction c as [|a c IH]; cbn; [reflexivity | exact IH]. Qed.

Lemma chunks_concat (n : nat) (cols : list (list num)) :
  Forall (fun c => length c = n) cols ->
  chunks (length cols) n (concat cols) = cols.
Proof.
  induction 1 as [|c cols Hc _ IH]; [reflexivity|].
  cbn [length chunks concat].
  assert (E1 : firstn n (c ++ concat cols) = c)
    by (rewrite <- Hc; apply firstn_exact).
  assert (E2 : skipn n (c ++ concat cols) = concat cols)
    by (rewrite <- Hc; apply skipn_exact).
  now rewrite E1, E2, IH.
Qed.

Lemma length_concat_uniform (n : nat) (cols : list (list num)) :
  Forall (fun c => length c = n) cols ->
  length (concat cols) = length cols * n.
Proof.
  induction 1 as [|c cols Hc _ IH]; [reflexivity|].
  cbn [concat length]. rewrite length_app, Hc, IH. lia.
Qed.

Lemma np_reshape_concat (n : nat) (cols : list (list num)) :
  cols <> [] ->
  Forall (fun c => length c = n) cols ->
  np_reshape (length cols) (concat cols) = Ok (mkArray2 n cols).
Proof.
  intros Hne Hall. unfold np_reshape.
  assert (Hk : length cols <> 0) by (destruct cols; [contradiction | discriminate]).
  rewrite (length_concat_uniform Hall), (Nat.mul_comm (length cols) n).
  rewrite Nat.Div0.mod_mul, Nat.div_mul by exact Hk.
  cbn [Nat.eqb]. now rewrite chunks_concat.
Qed.

Lemma columns_uniform (q : Array2 num) :
  Forall (fun c => length c = len q) (rows (np_T q)).
Proof.
  unfold np_T. cbn [rows]. apply Forall_forall. intros c Hin.
  apply in_map_iff in Hin. destruct Hin as (j & <- & _).
  unfold column, len. apply length_map.
Qed.

Lemma np_T_np_T (q : Array2 num) : shaped q -> np_T (np_T q) = q.
Proof.
  intros Hshaped. destruct q as [k rs]. unfold shaped in Hshaped. cbn in Hshaped.
  unfold np_T at 1. unfold len at 1. cbn [ncols rows np_T].
  rewrite length_map, length_seq. f_equal. unfold len. cbn [rows].
  rewrite <- (map_nth_seq rs []) at 2.
  apply map_ext_in. intros i Hi. apply in_seq in Hi.
  unfold column at 1. unfold np_T. cbn [rows ncols]. rewrite map_map.
  assert (Hrow : nth_error rs i = Some (nth i rs [])).
  { apply nth_error_nth'. lia. }
  assert (Hlen : length (nth i rs []) = k).
  { rewrite Forall_forall in Hshaped. apply Hshaped.
    exact (nth_error_In _ _ Hrow). }
  transitivity (map (fun j => nth j (nth i rs []) zero) (seq 0 k));
    [|rewrite <- Hlen; apply map_nth_seq].
  apply map_ext. intros j. unfold column. cbn [rows].
  exact (nth_map_some (fun r => nth j r zero) rs zero i Hrow).
Qed.

Lemma np_reshape_flattened (q : Array2 num) :
  0 < ncols q -> shaped q ->
  np_reshape (ncols q) (flatten (np_T q)) = Ok (np_T q).
Proof.
  intros Hk Hshaped.
  pose proof (columns_uniform q) as Hcols.
  assert (Hn : length (rows (np_T q)) = ncols q).
  { unfold np_T. cbn [rows]. now rewrite length_map, length_seq. }
  assert (Hne : rows (np_T q) <> []).
  { intros E. rewrite E in Hn. cbn in Hn. lia. }
  unfold flatten. rewrite <- Hn. now rewrite (np_reshape_concat Hne Hcols).
Qed.

End ArrayFacts.

(** X13.  A rectangular joint trajectory with at least one column is
    recovered from what a builder stores for it: [q.T.flatten()] has
    [ncols * len] numbers, cutting it back into [ncols] rows with
    [np.reshape(., (ncols, -1))] succeeds, and transposing gives [q] again
    (the column count is 7 throughout the program). *)
Theorem flatten_then_reshape_recovers_trajectory
  {num : Type} `{Scalar num} (q : Array2 num) :
  0 < ncols q ->
  shaped q ->
  length (flatten (np_T q)) = ncols q * len q /\
  exists a, np_reshape (ncols q) (flatten (np_T q)) = Ok a /\ np_T a = q.
Proof.
  intros Hk Hshaped. split.
  - pose proof (columns_uniform q) as Hcols. unfold flatten.
    rewrite (length_concat_uniform Hcols). unfold np_T. cbn [rows].
    now rewrite length_map, length_seq.
  - exists (np_T q). split; [now apply np_reshape_flattened | now apply np_T_np_T].
Qed.

Lemma flatten_then_reshape_recovers_trajectory_witness :
  exists a,
    np_reshape 7 (flatten (np_T SyntheticEdge.joints2)) = Ok a /\
    np_T a = SyntheticEdge.joints2.
Proof.
  destruct (flatten_then_reshape_recovers_trajectory (q := SyntheticEdge.joints2))
    as (_ & a & Ha & HT).
  - cbn. lia.
  - repeat constructor.
  - exists a. split; [exact Ha | exact HT].
Defined.

Section SampleFacts.
Context {num : Type} `{Scalar num} `{Negation num}.
Implicit Types (w : BaxterWriter num) (d : list num).

Lemma fa_for_sample_run d w :
  fa_for_sample d w =
  (match np_reshape 7 d with
   | Ok a =>
       match result (derive_fa_parms_from_jnt_traj (np_T a) w) with
       | Ok tmp_fa_parms => Ok (flatten (np_array tmp_fa_parms))
       | Raise e => Raise e
       end
   | Raise e => Raise e
   end, w, []).
Proof.
  unfold fa_for_sample, bind, lift, ret.
  destruct (np_reshape 7 d) as [a|e]; [|reflexivity].
  rewrite derive_fa_parms_from_jnt_traj_run. reflexivity.
Qed.

End SampleFacts.

(** X14.  [build_fa_for_joint_trajs] encodes the very trajectory a joint
    builder stored: given [q.T.flatten()] of a rectangular trajectory [q] of
    seven columns, its loop body fits the columns of [q] and appends the
    parameter vectors, which [np.array] takes to be of one length, one
    after the other, the writer untouched. *)
Theorem fa_for_sample_reads_stored_trajectory
  {num : Type} `{Scalar num} (w : BaxterWriter num) (q : Array2 num) :
  ncols q = 7 ->
  shaped q ->
  let r := fa_for_sample (flatten (np_T q)) w in
  exists fa_parms,
    result (derive_fa_parms_from_jnt_traj q w) = Ok fa_parms /\
    result r = Ok (concat fa_parms) /\
    final r = w /\ events r = [].
Proof.
  intros Hk Hshaped r.
  assert (Hpos : 0 < ncols q) by lia.
  unfold r. rewrite fa_for_sample_run.
  rewrite <- Hk, (np_reshape_flattened Hpos Hshaped), (np_T_np_T Hshaped).
  rewrite derive_fa_parms_from_jnt_traj_run. unfold result, final, events.
  cbn [fst snd]. eexists. split; [reflexivity|].
  split; [|split; reflexivity].
  unfold flatten. now rewrite rows_np_array.
Qed.

Lemma fa_for_sample_reads_stored_trajectory_witness :
  exists fa_parms,
    result (derive_fa_parms_from_jnt_traj SyntheticEdge.joints2 Synthetic.writer)
    = Ok fa_parms /\
    result (fa_for_sample (flatten (np_T SyntheticEdge.joints2)) Synthetic.writer)
    = Ok (concat fa_parms).
Proof.
  destruct (fa_for_sample_reads_stored_trajectory Synthetic.writer
              (q := SyntheticEdge.joints2))
    as (fa_parms & Henc & Hres & _); [reflexivity | repeat constructor |].
  exists fa_parms. split; [exact Henc | exact Hres].
Defined.

(** ** The samples of the joint builders *)

Section JointSampleFacts.
Context {num : Type} `{Scalar num} `{Negation num}.
Variable synthesize_trajectory :
  PyLQR_TrajCtrl num -> CostFn num -> nat -> nat ->
  list num -> Array2 num -> nat -> Outcome (Array2 num).
Implicit Types (w : BaxterWriter num) (d xs ys : list num).

Lemma np_reshape_halves xs ys :
  length xs = length ys ->
  np_reshape 2 (xs ++ ys) = Ok (mkArray2 (length ys) [xs; ys]).
Proof.
  intros Hlen.
  replace (xs ++ ys) with (concat [xs; ys]) by (cbn; now rewrite app_nil_r).
  apply (np_reshape_concat (cols := [xs; ys])); [discriminate|].
  repeat constructor. exact Hlen.
Qed.

Lemma turned_char_traj xs ys :
  length xs = length ys ->
  let tmp_char_traj := np_T (mkArray2 (length ys) [xs; ys]) in
  np_T (np_array [np_neg (column 1 tmp_char_traj);
                  np_neg (column 0 tmp_char_traj)])
  = turned xs ys.
Proof.
  intros Hlen tmp_char_traj.
  assert (Hc1 : column 1 tmp_char_traj = ys).
  { unfold column, tmp_char_traj, np_T. cbn [rows ncols map]. rewrite map_map.
    cbn [nth]. apply map_nth_seq. }
  assert (Hc0 : column 0 tmp_char_traj = xs).
  { unfold column, tmp_char_traj, np_T. cbn [rows ncols map]. rewrite map_map.
    cbn [nth]. rewrite <- Hlen. apply map_nth_seq. }
  rewrite Hc1, Hc0. unfold turned, np_T, np_array, len, column.
  cbn [rows ncols length map].
  replace (length (np_neg ys)) with (length ys)
    by (unfold np_neg; now rewrite length_map).
  reflexivity.
Qed.

(** A joint builder's sample, once its payload is cut in two halves. *)
Lemma sample_pipeline (m : Array2 num -> Method num (Array2 num))
  (tmp_char_traj out : Array2 num) w :
  result (generate_spatial_trajectory tmp_char_traj w) = Ok out ->
  bind (generate_spatial_trajectory tmp_char_traj)
    (fun tmp_spatial_traj =>
       bind (m tmp_spatial_traj)
         (fun tmp_q_array => ret (flatten (np_T tmp_q_array)))) w
  = (match result (m out w) with
     | Ok tmp_q_array => Ok (flatten (np_T tmp_q_array))
     | Raise e => Raise e
     end, final (m out w), events (m out w)).
Proof.
  rewrite generate_spatial_trajectory_run. unfold result at 1. cbn [fst].
  intros Hout. unfold bind at 1. rewrite generate_spatial_trajectory_run, Hout.
  unfold bind, ret, result, final, events.
  destruct (m out w) as [[[q|e] s] ev]; cbn; now rewrite ?app_nil_r.
Qed.

Lemma joint_sample_run (m : Array2 num -> Method num (Array2 num)) d xs ys w :
  removelast d = xs ++ ys -> length xs = length ys ->
  bind (lift (np_reshape 2 (removelast d)))
    (fun a =>
       let tmp_char_traj := np_T a in
       let tmp_char_traj :=
         np_T (np_array [np_neg (column 1 tmp_char_traj);
                         np_neg (column 0 tmp_char_traj)]) in
       bind (generate_spatial_trajectory tmp_char_traj)
         (fun tmp_spatial_traj =>
            bind (m tmp_spatial_traj)
              (fun tmp_q_array => ret (flatten (np_T tmp_q_array))))) w
  = bind (generate_spatial_trajectory (turned xs ys))
      (fun tmp_spatial_traj =>
         bind (m tmp_spatial_traj)
           (fun tmp_q_array => ret (flatten (np_T tmp_q_array)))) w.
Proof.
  intros Hd Hlen. unfold bind at 1, lift.
  rewrite Hd, (np_reshape_halves xs ys Hlen). cbn zeta.
  rewrite (turned_char_traj xs ys Hlen).
  destruct (bind _ _ w) as [[r s] ev]. now rewrite app_nil_l.
Qed.

Lemma joint_sample_raises (m : Array2 num -> Method num (Array2 num)) d w :
  length (removelast d) mod 2 <> 0 ->
  bind (lift (np_reshape 2 (removelast d)))
    (fun a =>
       let tmp_char_traj := np_T a in
       let tmp_char_traj :=
         np_T (np_array [np_neg (column 1 tmp_char_traj);
                         np_neg (column 0 tmp_char_traj)]) in
       bind (generate_spatial_trajectory tmp_char_traj)
         (fun tmp_spatial_traj =>
            bind (m tmp_spatial_traj)
              (fun tmp_q_array => ret (flatten (np_T tmp_q_array))))) w
  = (Raise ValueError, w, []).
Proof.
  intros Hodd. unfold bind at 1, lift, np_reshape.
  apply Nat.eqb_neq in Hodd. now rewrite Hodd.
Qed.

(** The rows of the spatial trajectory of a turned character trajectory. *)
Lemma turned_spatial_rows xs ys w (out : Array2 num) :
  length (block_center w) = 3 ->
  length xs = length ys ->
  result (generate_spatial_trajectory (turned xs ys) w) = Ok out ->
  len out = length ys /\
  forall i x y,
    nth_error xs i = Some x -> nth_error ys i = Some y ->
    nth_error (rows out) i =
    Some [(s_neg y * scale w + nth 0 (block_center w) zero)%num;
          (s_neg x * scale w + nth 1 (block_center w) zero)%num;
          (zero + nth 2 (block_center w) zero)%num].
Proof.
  intros Hbc Hlen Hres.
  destruct (@generate_spatial_trajectory_returns _ _ (turned xs ys) w Hbc
              (or_introl eq_refl)) as (out' & Hout & _ & Hl & Hrows).
  assert (out' = out) by congruence. subst out'.
  assert (Hn : len (turned xs ys) = length ys).
  { unfold len, turned. cbn [rows]. now rewrite length_map, length_seq. }
  split; [now rewrite Hl|].
  intros i x y Hx Hy. rewrite Hrows, !nth_error_map.
  assert (Hi : i < length ys) by (apply nth_error_Some; congruence).
  rewrite (nth_error_combine (repeat (np_zeros 3) (len (turned xs ys)))
             (map (map (fun x => (x * scale w)%num)) (rows (turned xs ys))) i
             (a := np_zeros 3)
             (b := [(s_neg y * scale w)%num; (s_neg x * scale w)%num])).
  - reflexivity.
  - apply nth_error_repeat. now rewrite Hn.
  - unfold turned. cbn [rows]. rewrite !nth_error_map, nth_error_seq.
    apply Nat.ltb_lt in Hi. rewrite Hi. cbn [option_map map Nat.add].
    unfold np_neg.
    rewrite (nth_map_some s_neg ys zero i Hy), (nth_map_some s_neg xs zero i Hx).
    reflexivity.
Qed.

(** The spatial path of a turned character trajectory, row by row. *)
Lemma turned_spatial_path xs ys w (out : Array2 num) :
  length (block_center w) = 3 ->
  length xs = length ys ->
  result (generate_spatial_trajectory (turned xs ys) w) = Ok out ->
  rows out =
  map (fun xy => [(s_neg (snd xy) * scale w + nth 0 (block_center w) zero)%num;
                  (s_neg (fst xy) * scale w + nth 1 (block_center w) zero)%num;
                  (zero + nth 2 (block_center w) zero)%num])
    (combine xs ys).
Proof.
  intros Hbc Hlen Hres.
  destruct (turned_spatial_rows xs ys w Hbc Hlen Hres) as (Hn & Hrows).
  apply nth_error_ext. intros i.
  destruct (nth_error ys i) as [y|] eqn:Hy.
  - assert (Hi : i < length xs).
    { rewrite Hlen. apply nth_error_Some. congruence. }
    destruct (nth_error xs i) as [x|] eqn:Hx;
      [|apply nth_error_None in Hx; lia].
    rewrite (Hrows i x y Hx Hy), nth_error_map.
    now rewrite (nth_error_combine xs ys i Hx Hy).
  - apply nth_error_None in Hy.
    assert (E1 : nth_error (rows out) i = None).
    { apply nth_error_None. unfold len in Hn. lia. }
    rewrite E1. symmetry. apply nth_error_None.
    rewrite length_map, length_combine. lia.
Qed.

Lemma ik_joint_traj_for_sample_run d xs ys w (out : Array2 num) :
  removelast d = xs ++ ys -> length xs = length ys ->
  result (generate_spatial_trajectory (turned xs ys) w) = Ok out ->
  ik_joint_traj_for_sample d w =
  (match result (derive_ik_trajectory out w) with
   | Ok tmp_q_array => Ok (flatten (np_T tmp_q_array))
   | Raise e => Raise e
   end, final (derive_ik_trajectory out w), events (derive_ik_trajectory out w)).
Proof.
  intros Hd Hlen Hout. unfold ik_joint_traj_for_sample.
  etransitivity;
    [exact (joint_sample_run derive_ik_trajectory d xs ys w Hd Hlen)|].
  now apply sample_pipeline.
Qed.

Lemma ilqr_joint_traj_for_sample_run d xs ys w (out : Array2 num) :
  removelast d = xs ++ ys -> length xs = length ys ->
  result (generate_spatial_trajectory (turned xs ys) w) = Ok out ->
  ilqr_joint_traj_for_sample synthesize_trajectory d w =
  (match result (derive_ilqr_trajectory synthesize_trajectory out w) with
   | Ok tmp_q_array => Ok (flatten (np_T tmp_q_array))
   | Raise e => Raise e
   end, final (derive_ilqr_trajectory synthesize_trajectory out w),
   events (derive_ilqr_trajectory synthesize_trajectory out w)).
Proof.
  intros Hd Hlen Hout. unfold ilqr_joint_traj_for_sample.
  etransitivity;
    [exact (joint_sample_run (derive_ilqr_trajectory synthesize_trajectory)
              d xs ys w Hd Hlen)|].
  now apply sample_pipeline.
Qed.

End JointSampleFacts.

(** X15.  What the joint builders ask of the arm for one sample.  A sample
    is the x coordinates of its points, then the y coordinates, then one
    last entry that is dropped.  For the point [(x, y)] both
    [build_ik_joint_traj_for_chars] and [build_ilqr_joint_traj_for_chars]
    solve IK for the target
    [(-y * scale, -x * scale, 0) + block_center], in the order of the
    points; the IK builder then stores the accepted configurations joint by
    joint ([q.T.flatten()]). *)
Theorem joint_builders_turn_the_sample
  {num : Type} `{Scalar num} `{Negation num}
  (synthesize_trajectory :
     PyLQR_TrajCtrl num -> CostFn num -> nat -> nat ->
     list num -> Array2 num -> nat -> Outcome (Array2 num))
  (w : BaxterWriter num) (d xs ys : list num) :
  length (block_center w) = 3 ->
  removelast d = xs ++ ys ->
  length xs = length ys ->
  let rik := ik_joint_traj_for_sample d w in
  let rlqr := ilqr_joint_traj_for_sample synthesize_trajectory d w in
  let targets :=
    map (fun xy => [(s_neg (snd xy) * scale w + nth 0 (block_center w) zero)%num;
                    (s_neg (fst xy) * scale w + nth 1 (block_center w) zero)%num;
                    (zero + nth 2 (block_center w) zero)%num])
      (combine xs ys) in
  map (@sv_pnt num) (solves (events rik)) = targets /\
  map (@sv_pnt num) (solves (events rlqr)) = targets /\
  result rik
  = Ok (flatten (np_T (np_array (accepted (solves (events rik)))))).
Proof.
  intros Hbc Hd Hlen rik rlqr targets.
  destruct (@generate_spatial_trajectory_returns _ _ (turned xs ys) w Hbc
              (or_introl eq_refl)) as (out & Hout & _).
  pose proof (turned_spatial_path xs ys w Hbc Hlen Hout) as Hpath.
  fold targets in Hpath.
  destruct (derive_ik_trajectory_post out w) as (_ & Hres & P).
  destruct P as [_ _ Ht _ _ _ _ _ _]. cbn [events snd] in Ht.
  destruct (solves_refiner synthesize_trajectory out w) as (_ & Hsame & _).
  unfold rik, rlqr.
  rewrite (ik_joint_traj_for_sample_run d xs ys w Hd Hlen Hout).
  rewrite (ilqr_joint_traj_for_sample_run synthesize_trajectory d xs ys w
             Hd Hlen Hout).
  unfold result, events in *. cbn [fst snd] in *.
  rewrite Hsame, Ht, Hres, Hpath. repeat split; reflexivity.
Qed.

Lemma joint_builders_turn_the_sample_witness :
  map (@sv_pnt _)
    (solves (events (ik_joint_traj_for_sample SyntheticEdge.sample2
                       Synthetic.writer)))
  = map (fun xy =>
           [(s_neg (snd xy) * scale Synthetic.writer
             + nth 0 (block_center Synthetic.writer) zero)%num;
            (s_neg (fst xy) * scale Synthetic.writer
             + nth 1 (block_center Synthetic.writer) zero)%num;
            (zero + nth 2 (block_center Synthetic.writer) zero)%num])
      (combine (map Synthetic.fl [1; 2]%Z) (map Synthetic.fl [3; 4]%Z)).
Proof.
  destruct (joint_builders_turn_the_sample Synthetic.solver Synthetic.writer
              SyntheticEdge.sample2
              (map Synthetic.fl [1; 2]%Z) (map Synthetic.fl [3; 4]%Z))
    as (Hik & _).
  - reflexivity.
  - vm_compute. reflexivity.
  - reflexivity.
  - exact Hik.
Defined.

(** X16.  A sample of the wrong size stops a builder before the arm is
    asked anything: when the entries before the last are odd in number, the
    bodies of the two joint builders raise [ValueError] at the reshape with
    no IK solve, no print and no solver built; so does the body of
    [build_fa_for_joint_trajs] when the entries are not a multiple of
    seven. *)
Theorem builders_reject_missized_samples
  {num : Type} `{Scalar num} `{Negation num}
  (synthesize_trajectory :
     PyLQR_TrajCtrl num -> CostFn num -> nat -> nat ->
     list num -> Array2 num -> nat -> Outcome (Array2 num))
  (w : BaxterWriter num) (d : list num) :
  (length (removelast d) mod 2 <> 0 ->
   ik_joint_traj_for_sample d w = (Raise ValueError, w, []) /\
   ilqr_joint_traj_for_sample synthesize_trajectory d w
   = (Raise ValueError, w, [])) /\
   (length d mod 7 <> 0 -> fa_for_sample d w = (Raise ValueError, w, [])).
Proof.
  split.
  - intros Hodd. split.
    + exact (joint_sample_raises derive_ik_trajectory d w Hodd).
    + exact (joint_sample_raises (derive_ilqr_trajectory synthesize_trajectory)
               d w Hodd).
  - intros Hbad. rewrite fa_for_sample_run. unfold np_reshape.
    apply Nat.eqb_neq in Hbad. now rewrite Hbad.
Qed.

Lemma builders_reject_missized_samples_witness :
  ik_joint_traj_for_sample SyntheticEdge.sample_odd Synthetic.writer
  = (Raise ValueError, Synthetic.writer, []) /\
  fa_for_sample SyntheticEdge.sample_odd Synthetic.writer
  = (Raise ValueError, Synthetic.writer, []).
Proof.
  destruct (builders_reject_missized_samples Synthetic.solver Synthetic.writer
              SyntheticEdge.sample_odd) as [Hjoint Hfa].
  split.
  - apply Hjoint. vm_compute. discriminate.
  - apply Hfa. vm_compute. discriminate.
Defined.

(** ** The builders over a data set *)

Section BatchFacts.
Context {num : Type} `{Scalar num} `{Negation num}.
Implicit Types (w : BaxterWriter num) (res : ResData num) (c : string).

Lemma frame_bind {A B : Type} (m : Method num A) (f : A -> Method num B) w :
  final (m w) = w -> (forall a, final (f a w) = w) -> final (bind m f w) = w.
Proof.
  unfold bind, final. destruct (m w) as [[[a|e] s] ev]; cbn [fst snd].
  - intros -> Hf. specialize (Hf a). destruct (f a w) as [[r s] ev2].
    exact Hf.
  - intros -> _. reflexivity.
Qed.

Lemma dd_get_append_same c (x : list num) res :
  dd_get c (dd_append c x res)
  = Some (match dd_get c res with Some old => old ++ [x] | None => [x] end).
Proof.
  induction res as [|[c' xs] res IH]; cbn.
  - now rewrite String.eqb_refl.
  - destruct (String.eqb c c') eqn:E; cbn; now rewrite E.
Qed.

Lemma dd_get_append_other c c' (x : list num) res :
  c <> c' -> dd_get c (dd_append c' x res) = dd_get c res.
Proof.
  intros Hne. pose proof Hne as Hb. apply String.eqb_neq in Hb.
  induction res as [|[c'' xs] res IH]; cbn.
  - now rewrite Hb.
  - destruct (String.eqb c' c'') eqn:E; cbn.
    + apply String.eqb_eq in E. subst c''. now rewrite Hb.
    + now rewrite IH.
Qed.

Section Loop.
Variable body : list num -> Method num (list num).
Hypothesis body_frame : forall d w, final (body d w) = w.

Lemma samples_loop_step c d ds res w :
  samples_loop body c (d :: ds) res w =
  match result (body d w) with
  | Ok x =>
      let r := samples_loop body c ds (dd_append c x res) w in
      (result r, final r, map During (events (body d w)) ++ events r)
  | Raise e => (Raise e, w, map During (events (body d w)))
  end.
Proof.
  cbn [samples_loop]. unfold bind, during. cbn zeta. rewrite body_frame.
  destruct (result (body d w)) as [x|e]; [|reflexivity].
  unfold result, final, events.
  now destruct (samples_loop body c ds (dd_append c x res) w) as [[r s] ev].
Qed.

Lemma processed_during (evs : list (Event num)) (rest : list (BatchEvent num)) :
  processed (map During evs ++ rest) = processed rest.
Proof. induction evs as [|e evs IH]; [reflexivity | exact IH]. Qed.

Lemma samples_loop_post c ds :
  forall res w,
    let r := samples_loop body c ds res w in
    final r = w /\
    processed (events r) = [] /\
    (forall res', result r = Ok res' ->
       (forall c', c' <> c -> dd_get c' res' = dd_get c' res) /\
       exists xs,
         Forall2 (fun d x => result (body d w) = Ok x) ds xs /\
         dd_get c res' =
         match xs with
         | [] => dd_get c res
         | _ :: _ =>
             Some (match dd_get c res with Some old => old ++ xs | None => xs end)
         end) /\
    ((forall d, In d ds -> exists x, result (body d w) = Ok x) ->
     exists res', result r = Ok res') /\
    (forall e, result r = Raise e ->
       exists d, In d ds /\ result (body d w) = Raise e).
Proof.
  induction ds as [|d ds IH]; intros res w r.
  - subst r. cbn. split; [reflexivity|]. split; [reflexivity|].
    split; [|split].
    + intros res' E. injection E as <-. split; [reflexivity|].
      exists []. split; [constructor | reflexivity].
    + intros _. now exists res.
    + intros e E. discriminate.
  - subst r. rewrite samples_loop_step.
    destruct (result (body d w)) as [x|e0] eqn:Hd.
    + destruct (IH (dd_append c x res) w) as (Hf & Hp & Hok & Htot & Hraise).
      cbn zeta. unfold result, final, events in *. cbn [fst snd] in *.
      split; [exact Hf|]. split; [now rewrite processed_during|].
      split; [|split].
      * intros res' E. destruct (Hok res' E) as (Hothers & xs & Hall & Hget).
        split.
        { intros c' Hne. rewrite (Hothers c' Hne).
          now apply dd_get_append_other. }
        exists (x :: xs). split; [now constructor|].
        rewrite Hget, dd_get_append_same.
        destruct xs as [|x' xs]; destruct (dd_get c res) as [old|];
          try reflexivity.
        now rewrite <- app_assoc.
      * intros Hall. apply Htot. intros d' Hin. apply Hall. now right.
      * intros e E. destruct (Hraise e E) as (d' & Hin & Hd').
        exists d'. split; [now right | exact Hd'].
    + unfold result, final, events in *. cbn [fst snd].
      split; [reflexivity|]. split.
      { rewrite <- (app_nil_r (map During _)). now rewrite processed_during. }
      split; [intros res' E; discriminate|]. split.
      * intros Hall. destruct (Hall d (or_introl eq_refl)) as (x & Hx). congruence.
      * intros e E. injection E as <-. exists d. split; [now left | exact Hd].
Qed.

Lemma chars_loop_step c ds data res w :
  chars_loop body ((c, ds) :: data) res w =
  let r1 := samples_loop body c ds res w in
  match result r1 with
  | Ok res1 =>
      let r := chars_loop body data res1 w in
      (result r, final r, Processing c :: events r1 ++ events r)
  | Raise e => (Raise e, w, Processing c :: events r1)
  end.
Proof.
  cbn [chars_loop]. unfold bind, emit. cbn zeta.
  destruct (samples_loop_post c ds res w) as (Hf & _).
  unfold result, final, events in *.
  destruct (samples_loop body c ds res w) as [[[res1|e] s] ev];
    cbn [fst snd] in *; subst s; [|reflexivity].
  now destruct (chars_loop body data res1 w) as [[r s] ev2].
Qed.

Lemma processed_app_silent (ev1 ev2 : list (BatchEvent num)) :
  processed ev1 = [] -> processed (ev1 ++ ev2) = processed ev2.
Proof.
  induction ev1 as [|[c|e] ev1 IH]; cbn; intros E; auto; discriminate.
Qed.

Lemma chars_loop_post data :
  NoDup (map fst data) ->
  forall res w,
    let r := chars_loop body data res w in
    final r = w /\
    (forall res', result r = Ok res' ->
       processed (events r) = map fst data /\
       (forall c, ~ In c (map fst data) -> dd_get c res' = dd_get c res) /\
       forall c ds, In (c, ds) data ->
         exists xs,
           Forall2 (fun d x => result (body d w) = Ok x) ds xs /\
           dd_get c res' =
           match xs with
           | [] => dd_get c res
           | _ :: _ =>
               Some (match dd_get c res with Some old => old ++ xs | None => xs end)
           end) /\
    ((forall c ds d, In (c, ds) data -> In d ds ->
        exists x, result (body d w) = Ok x) ->
     exists res', result r = Ok res') /\
    (forall e, result r = Raise e ->
       exists c ds d, In (c, ds) data /\ In d ds /\ result (body d w) = Raise e).
Proof.
  induction data as [|[c0 ds0] data IH]; intros Hnodup res w r.
  - subst r. cbn. split; [reflexivity|]. split; [|split].
    + intros res' E. injection E as <-. split; [reflexivity|].
      split; [reflexivity|]. intros c ds [].
    + intros _. now exists res.
    + intros e E. discriminate.
  - cbn [map fst] in Hnodup. inversion Hnodup as [|? ? Hfresh Hrest]. subst.
    subst r. rewrite chars_loop_step. cbn zeta.
    destruct (samples_loop_post c0 ds0 res w) as (_ & Hp1 & Hok1 & Htot1 & Hraise1).
    destruct (result (samples_loop body c0 ds0 res w)) as [res1|e1] eqn:E1.
    + destruct (Hok1 res1 eq_refl) as (Hothers1 & xs0 & Hall0 & Hget0).
      destruct (IH Hrest res1 w) as (Hf & Hok & Htot & Hraise).
      unfold result, final, events in *. cbn [fst snd] in *.
      split; [exact Hf|]. split; [|split].
      * intros res' E. destruct (Hok res' E) as (Hp & Hout & Hin).
        split; [|split].
        { cbn [processed map fst]. f_equal.
          now rewrite (@processed_app_silent _ _ Hp1). }
        { intros c Hc. cbn [map fst In] in Hc.
          rewrite (Hout c) by tauto. apply Hothers1. intros ->. tauto. }
        intros c ds [Ehd | Htl].
        { injection Ehd as -> ->. exists xs0. split; [exact Hall0|].
          now rewrite (Hout c Hfresh). }
        assert (Hne : c <> c0).
        { intros ->. apply Hfresh. apply in_map_iff. now exists (c0, ds). }
        destruct (Hin c ds Htl) as (xs & Hall & Hget).
        exists xs. split; [exact Hall|]. now rewrite Hget, (Hothers1 c Hne).
      * intros Hall. apply Htot. intros c ds d Hin Hd.
        apply (Hall c ds d); [now right | exact Hd].
      * intros e E. destruct (Hraise e E) as (c & ds & d & Hin & Hd & Hr).
        exists c, ds, d. split; [now right | now split].
    + unfold result, final, events in *. cbn [fst snd] in *.
      split; [reflexivity|]. split; [intros res' E; discriminate|]. split.
      * intros Hall.
        destruct Htot1 as (res1 & Hres1); [|congruence].
        intros d Hd. apply (Hall c0 ds0 d); [now left | exact Hd].
      * intros e E. injection E as <-.
        destruct (Hraise1 e1 eq_refl) as (d & Hd & Hr).
        exists c0, ds0, d. split; [now left | now split].
Qed.

Lemma chars_loop_batch_post data w :
  NoDup (map fst data) ->
  batch_post body w data (chars_loop body data [] w).
Proof.
  intros Hnodup.
  destruct (@chars_loop_post data Hnodup [] w) as (Hf & Hok & Htot & Hraise).
  constructor; auto.
  intros res E. destruct (Hok res E) as (Hp & Hout & Hin).
  split; [exact Hp|]. split; [|exact Hout].
  intros c ds Hc. destruct (Hin c ds Hc) as (xs & Hall & Hget).
  exists xs. split; [exact Hall|]. rewrite Hget. now destruct xs.
Qed.

End Loop.

Variable synthesize_trajectory :
  PyLQR_TrajCtrl num -> CostFn num -> nat -> nat ->
  list num -> Array2 num -> nat -> Outcome (Array2 num).

Lemma frame_joint_sample (m : Array2 num -> Method num (Array2 num)) d w :
  (forall spatial_traj w, final (m spatial_traj w) = w) ->
  final (bind (lift (np_reshape 2 (removelast d)))
           (fun a =>
              let tmp_char_traj := np_T a in
              let tmp_char_traj :=
                np_T (np_array [np_neg (column 1 tmp_char_traj);
                                np_neg (column 0 tmp_char_traj)]) in
              bind (generate_spatial_trajectory tmp_char_traj)
                (fun tmp_spatial_traj =>
                   bind (m tmp_spatial_traj)
                     (fun tmp_q_array => ret (flatten (np_T tmp_q_array))))) w)
  = w.
Proof.
  intros Hm. apply frame_bind; [reflexivity|]. intros a. cbn zeta.
  apply frame_bind; [now rewrite generate_spatial_trajectory_run|].
  intros tmp_spatial_traj. apply frame_bind; [apply Hm | reflexivity].
Qed.

Lemma frame_ik_joint_traj_for_sample d w :
  final (ik_joint_traj_for_sample d w) = w.
Proof.
  apply frame_joint_sample. intros spatial_traj w'.
  now destruct (derive_ik_trajectory_post spatial_traj w') as (Hf & _).
Qed.

Lemma frame_ilqr_joint_traj_for_sample d w :
  final (ilqr_joint_traj_for_sample synthesize_trajectory d w) = w.
Proof.
  apply (frame_joint_sample (derive_ilqr_trajectory synthesize_trajectory)).
  intros spatial_traj w'.
  now destruct (solves_refiner synthesize_trajectory spatial_traj w') as (Hf & _).
Qed.

Lemma frame_fa_for_sample d w : final (fa_for_sample d w) = w.
Proof. now rewrite fa_for_sample_run. Qed.

End BatchFacts.

(** X17.  The three builders over a data set whose characters are the keys
    of a dictionary.  Each leaves the writer it constructed as it was.  A
    builder that returns has printed every character once, in the order of
    the keys, and its result holds, under each character, one output per
    sample in the order of the samples, each the output of the loop body on
    that sample; a character without a sample gets no entry, and no other
    key appears.  A builder returns when the body returns on every sample,
    and when it raises, the exception is that of the body on one of the
    samples: one bad sample loses the whole result. *)
Theorem builders_group_outputs_by_character
  {num : Type} `{Scalar num} `{Negation num} (path_prefix : string)
  (baxter_dynamics : string -> string -> RobotDynamics num)
  (PyRBF_FunctionApproximator : string -> nat -> bool -> FunctionApproximator num)
  (synthesize_trajectory :
     PyLQR_TrajCtrl num -> CostFn num -> nat -> nat ->
     list num -> Array2 num -> nat -> Outcome (Array2 num))
  (data : list (string * list (list num))) :
  NoDup (map fst data) ->
  let w := new_BaxterWriter path_prefix baxter_dynamics PyRBF_FunctionApproximator in
  batch_post ik_joint_traj_for_sample w data
    (build_ik_joint_traj_for_chars path_prefix baxter_dynamics
       PyRBF_FunctionApproximator data) /\
  batch_post (ilqr_joint_traj_for_sample synthesize_trajectory) w data
    (build_ilqr_joint_traj_for_chars path_prefix baxter_dynamics
       PyRBF_FunctionApproximator synthesize_trajectory data) /\
  batch_post fa_for_sample w data
    (build_fa_for_joint_trajs path_prefix baxter_dynamics
       PyRBF_FunctionApproximator data).
Proof.
  intros Hnodup w. split; [|split].
  - apply chars_loop_batch_post; [|exact Hnodup].
    exact frame_ik_joint_traj_for_sample.
  - apply chars_loop_batch_post; [|exact Hnodup].
    exact (frame_ilqr_joint_traj_for_sample synthesize_trajectory).
  - apply chars_loop_batch_post; [|exact Hnodup].
    exact frame_fa_for_sample.
Qed.

Lemma builders_group_outputs_by_character_witness :
  batch_post ik_joint_traj_for_sample Synthetic.writer SyntheticEdge.data_ab
    (build_ik_joint_traj_for_chars "/opt/vae_assoc" Synthetic.dynamics
       Synthetic.approximator SyntheticEdge.data_ab).
Proof.
  refine (proj1 (builders_group_outputs_by_character "/opt/vae_assoc"
                   Synthetic.dynamics Synthetic.approximator Synthetic.solver
                   SyntheticEdge.data_ab _)).
  apply NoDup_cons; [cbn; intros [E|[]]; discriminate|].
  apply NoDup_cons; [intros []|apply NoDup_nil].
Defined.
